(** * xiaozhi-esp32: control core of the voice endpoint

    A shallow embedding of [main/background_task.cc] and of the state
    machine, decode queue, output pipeline and prompt player of
    [main/application.cc], with the properties the specification states
    about them.

    Conventions.
    - Data members keep their C++ names, trailing underscore included.
    - Calls into collaborators that live outside the core (codec, display,
      LED, decoder, encoder, resampler, transport, logger) are recorded, in
      program order, in a trace of [Effect]s.
    - [size_t] and [uint16_t] are integers in [Z] with the wrap-around
      written out; time points of [std::chrono::steady_clock] are counts of
      nanoseconds in [Z]. *)

From Stdlib Require Import ZArith List Bool Lia String Ascii.
From Stdlib.Strings Require Import Byte.
Import ListNotations.

Local Open Scope Z_scope.

(* ===================================================================== *)
(** * The background executor ([background_task.cc])                      *)
(* ===================================================================== *)

Module BackgroundTask.

Section Executor.

(** The closures handed to [Schedule]. The executor never looks inside
    them. *)
Variable Callback : Type.

(** [active_tasks_] is a [std::atomic] of an unsigned 32-bit type on the
    target (it is printed with [%u]). *)
Definition size_t_modulus : Z := 2 ^ 32.

Definition size_t_incr (n : Z) : Z := (n + 1) mod size_t_modulus.
Definition size_t_decr (n : Z) : Z := (n - 1) mod size_t_modulus.

(** The data members every thread sees, guarded by [mutex_]. The entries
    of [main_tasks_] are the wrappers built by [Schedule]; a wrapper is
    determined by the callback it captured, so the list holds those. *)
Record t : Type := mk {
  main_tasks_ : list Callback;
  active_tasks_ : Z
}.

Definition create : t := {| main_tasks_ := []; active_tasks_ := 0 |}.

(** [if (active_tasks_ >= 30) ESP_LOGW(...)] *)
Definition Schedule_warns (b : t) : bool := 30 <=? active_tasks_ b.

(** The critical section of [Schedule]: count the closure in, append its
    wrapper. The call ends with an unconditional [notify_all], which is
    what wakes the worker loop. *)
Definition Schedule (cb : Callback) (b : t) : t :=
  {| main_tasks_ := main_tasks_ b ++ [cb];
     active_tasks_ := size_t_incr (active_tasks_ b) |}.

(** The predicate both [WaitForCompletion] and the wrapper evaluate:
    [main_tasks_.empty() && active_tasks_ == 0]. *)
Definition completed (b : t) : bool :=
  match main_tasks_ b with
  | [] => active_tasks_ b =? 0
  | _ :: _ => false
  end.

(** [std::list<...> tasks = std::move(main_tasks_)] in the worker loop. *)
Definition take_batch (b : t) : list Callback * t :=
  (main_tasks_ b, {| main_tasks_ := []; active_tasks_ := active_tasks_ b |}).

(** The critical section at the end of a wrapper, entered after [cb()]
    has returned: count the closure out and say whether [notify_all] is
    called. *)
Definition wrapper_epilogue (b : t) : t * bool :=
  let b' := {| main_tasks_ := main_tasks_ b;
               active_tasks_ := size_t_decr (active_tasks_ b) |} in
  (b', completed b').

(** ** The threads around the executor

    The worker ([BackgroundTaskLoop]) is either parked on the condition
    variable with no batch in hand, or inside the [for] loop over its
    local [tasks]: about to run / running the callback of the first
    wrapper of the batch, or back from that callback and about to enter
    the wrapper's critical section. *)
Inductive Worker : Type :=
| AtWait
| InCallback (tasks : list Callback)
| AfterCallback (tasks : list Callback).

Definition batch (w : Worker) : list Callback :=
  match w with
  | AtWait => []
  | InCallback l | AfterCallback l => l
  end.

(** The caller of [WaitForCompletion]: not in the call, asleep inside
    [condition_variable_.wait], or woken up and about to evaluate the
    predicate again under the lock. *)
Inductive Waiter : Type :=
| Outside
| Asleep
| Awake.

(** The whole system: the object, its worker, the thread that waits on
    it, the number of [notify_all] calls so far and two ghost histories,
    the callbacks submitted and the callbacks that have returned. *)
Record System : Type := mkSystem {
  object : t;
  worker : Worker;
  waiter : Waiter;
  notifications : nat;
  submitted : list Callback;
  returned : list Callback
}.

Definition boot : System :=
  {| object := create; worker := AtWait; waiter := Outside;
     notifications := 0; submitted := []; returned := [] |}.

(** Closures the executor still holds: the batch of the worker, then the
    queue. *)
Definition outstanding (s : System) : list Callback :=
  batch (worker s) ++ main_tasks_ (object s).

Definition wake (w : Waiter) : Waiter :=
  match w with
  | Asleep => Awake
  | other => other
  end.

Inductive Label : Type :=
| LSchedule (cb : Callback)
| LTake
| LCallbackReturns (cb : Callback)
| LEpilogue (cb : Callback) (notified : bool)
| LWaitBlocks
| LWaitReturns
| LSpuriousWakeup.

Definition next_task (rest : list Callback) : Worker :=
  match rest with
  | [] => AtWait
  | _ :: _ => InCallback rest
  end.

(** One atomic action of one thread. A list node is a distinct object in
    a 32-bit address space, which bounds the closures the executor can
    hold; [Schedule] past that bound does not return ([bad_alloc]). *)
Inductive step : System -> Label -> System -> Prop :=
| step_schedule s cb :
    Z.of_nat (List.length (outstanding s)) + 1 < size_t_modulus ->
    step s (LSchedule cb)
      {| object := Schedule cb (object s);
         worker := worker s;
         waiter := wake (waiter s);
         notifications := S (notifications s);
         submitted := submitted s ++ [cb];
         returned := returned s |}
| step_take s :
    worker s = AtWait ->
    main_tasks_ (object s) <> [] ->
    step s LTake
      {| object := snd (take_batch (object s));
         worker := InCallback (fst (take_batch (object s)));
         waiter := waiter s;
         notifications := notifications s;
         submitted := submitted s;
         returned := returned s |}
| step_callback s cb rest :
    worker s = InCallback (cb :: rest) ->
    step s (LCallbackReturns cb)
      {| object := object s;
         worker := AfterCallback (cb :: rest);
         waiter := waiter s;
         notifications := notifications s;
         submitted := submitted s;
         returned := returned s ++ [cb] |}
| step_epilogue s cb rest :
    worker s = AfterCallback (cb :: rest) ->
    step s (LEpilogue cb (snd (wrapper_epilogue (object s))))
      {| object := fst (wrapper_epilogue (object s));
         worker := next_task rest;
         waiter := if snd (wrapper_epilogue (object s))
                   then wake (waiter s) else waiter s;
         notifications := if snd (wrapper_epilogue (object s))
                          then S (notifications s) else notifications s;
         submitted := submitted s;
         returned := returned s |}
| step_wait_blocks s :
    waiter s <> Asleep ->
    completed (object s) = false ->
    step s LWaitBlocks
      {| object := object s; worker := worker s; waiter := Asleep;
         notifications := notifications s;
         submitted := submitted s; returned := returned s |}
| step_wait_returns s :
    waiter s <> Asleep ->
    completed (object s) = true ->
    step s LWaitReturns
      {| object := object s; worker := worker s; waiter := Outside;
         notifications := notifications s;
         submitted := submitted s; returned := returned s |}
| step_spurious s :
    waiter s = Asleep ->
    step s LSpuriousWakeup
      {| object := object s; worker := worker s; waiter := Awake;
         notifications := notifications s;
         submitted := submitted s; returned := returned s |}.

Inductive reachable : System -> Prop :=
| reachable_boot : reachable boot
| reachable_step s l s' : reachable s -> step s l s' -> reachable s'.

(** Several actions in a row. *)
Inductive steps : System -> System -> Prop :=
| steps_done s : steps s s
| steps_more s l s' s'' : step s l s' -> steps s' s'' -> steps s s''.

(** ** What holds of every state the executor reaches *)

(** The histories agree with what the worker holds: everything submitted
    has either returned, or sits in the batch, or is queued, in
    submission order. *)
Definition histories_agree (s : System) : Prop :=
  match worker s with
  | AtWait =>
      submitted s = returned s ++ main_tasks_ (object s)
  | InCallback l =>
      l <> [] /\
      submitted s = returned s ++ l ++ main_tasks_ (object s)
  | AfterCallback l =>
      exists cb rest done,
        l = cb :: rest /\
        returned s = done ++ [cb] /\
        submitted s = done ++ l ++ main_tasks_ (object s)
  end.

Record invariant (s : System) : Prop := {
  counter_is_outstanding :
    active_tasks_ (object s) = Z.of_nat (List.length (outstanding s));
  counter_in_range :
    Z.of_nat (List.length (outstanding s)) < size_t_modulus;
  histories : histories_agree s;
  sleeper_has_cause :
    waiter s = Asleep -> completed (object s) = false
}.

(** By how much an action moves [active_tasks_]. *)
Definition counter_change (l : Label) : Z :=
  match l with
  | LSchedule _ => 1
  | LEpilogue _ _ => -1
  | _ => 0
  end.

End Executor.

Arguments mk {Callback}.
Arguments main_tasks_ {Callback}.
Arguments active_tasks_ {Callback}.
Arguments create {Callback}.
Arguments Schedule {Callback}.
Arguments Schedule_warns {Callback}.
Arguments completed {Callback}.
Arguments take_batch {Callback}.
Arguments wrapper_epilogue {Callback}.
Arguments AtWait {Callback}.
Arguments InCallback {Callback}.
Arguments AfterCallback {Callback}.
Arguments batch {Callback}.
Arguments mkSystem {Callback}.
Arguments object {Callback}.
Arguments worker {Callback}.
Arguments waiter {Callback}.
Arguments notifications {Callback}.
Arguments submitted {Callback}.
Arguments returned {Callback}.
Arguments boot {Callback}.
Arguments outstanding {Callback}.
Arguments next_task {Callback}.
Arguments LSchedule {Callback}.
Arguments LTake {Callback}.
Arguments LCallbackReturns {Callback}.
Arguments LEpilogue {Callback}.
Arguments LWaitBlocks {Callback}.
Arguments LWaitReturns {Callback}.
Arguments LSpuriousWakeup {Callback}.
Arguments step {Callback}.
Arguments reachable {Callback}.
Arguments reachable_boot {Callback}.
Arguments reachable_step {Callback}.
Arguments steps {Callback}.
Arguments steps_done {Callback}.
Arguments steps_more {Callback}.
Arguments histories_agree {Callback}.
Arguments invariant {Callback}.
Arguments counter_is_outstanding {Callback}.
Arguments counter_in_range {Callback}.
Arguments histories {Callback}.
Arguments sleeper_has_cause {Callback}.
Arguments counter_change {Callback}.

End BackgroundTask.

(* ===================================================================== *)
(** * Data model of the core ([application.cc])                           *)
(* ===================================================================== *)

(** Modelled from the spec: the declaration of [enum DeviceState] is in
    [application.h], which is not part of the sources at hand. The values
    are those of section 3 of the specification, in the order in which
    [STATE_STRINGS] names them. *)
Inductive DeviceState : Type :=
| kDeviceStateUnknown
| kDeviceStateStarting
| kDeviceStateConfiguring
| kDeviceStateIdle
| kDeviceStateConnecting
| kDeviceStateListening
| kDeviceStateSpeaking
| kDeviceStateUpgrading
| kDeviceStateFatalError
| kDeviceStateInvalidState.

Definition DeviceState_index (s : DeviceState) : nat :=
  match s with
  | kDeviceStateUnknown => 0
  | kDeviceStateStarting => 1
  | kDeviceStateConfiguring => 2
  | kDeviceStateIdle => 3
  | kDeviceStateConnecting => 4
  | kDeviceStateListening => 5
  | kDeviceStateSpeaking => 6
  | kDeviceStateUpgrading => 7
  | kDeviceStateFatalError => 8
  | kDeviceStateInvalidState => 9
  end%nat.

Definition DeviceState_eqb (a b : DeviceState) : bool :=
  Nat.eqb (DeviceState_index a) (DeviceState_index b).

Definition STATE_STRINGS : list string :=
  [ "unknown"; "starting"; "configuring"; "idle"; "connecting";
    "listening"; "speaking"; "upgrading"; "fatal_error";
    "invalid_state" ]%string.

(** [STATE_STRINGS[device_state_]] *)
Definition STATE_STRINGS_at (s : DeviceState) : string :=
  nth (DeviceState_index s) STATE_STRINGS EmptyString.

Inductive AbortReason : Type :=
| kAbortReasonNone
| kAbortReasonWakeWordDetected.

Inductive ListeningMode : Type :=
| kListeningModeAutoStop
| kListeningModeManualStop
| kListeningModeRealtime.

(** One opus packet, [std::vector<uint8_t>]. *)
Definition AudioFrame : Type := list byte.

(** A block of samples, [std::vector<int16_t>]. *)
Definition Pcm : Type := list Z.

(** An argument of a [printf]-style log line. *)
Inductive LogArg : Type :=
| ArgString (s : string)
| ArgNumber (n : Z).

(** Calls that leave the core, in the order the program makes them.
    [BackgroundTask_WaitForCompletion] is recorded when that call
    returns. *)
Inductive Effect : Type :=
| ESP_LOGI (tag format : string) (args : list LogArg)
| ESP_LOGW (tag format : string) (args : list LogArg)
| BackgroundTask_WaitForCompletion
| Led_OnStateChanged
| Display_SetStatus (status : string)
| Display_SetEmotion (emotion : string)
| Display_SetChatMessage (role content : string)
| AudioProcessor_Start
| AudioProcessor_Stop
| OpusDecoder_New (sample_rate : Z)
| OpusDecoder_ResetState
| OpusDecoder_Decode (opus : AudioFrame)
| OpusEncoder_ResetState
| OpusEncoder_Encode (pcm : Pcm)
| Resampler_Configure (input_rate output_rate : Z)
| Resampler_Process (pcm : Pcm)
| Codec_EnableOutput (enable : bool)
| Codec_OutputData (pcm : Pcm)
| Protocol_SendAudio (opus : AudioFrame)
| Protocol_SendStartListening (mode : ListeningMode)
| Protocol_SendStopListening
| Protocol_SendAbortSpeaking (reason : AbortReason)
| Protocol_SendIotStates (states : string).

(** Closures the core submits to the background executor: the decode
    closure of [OutputAudio] and the encode closure of [InputAudio] and of
    the audio processor's output callback. *)
Inductive BackgroundClosure : Type :=
| DecodeClosure (opus : AudioFrame)
| EncodeClosure (data : Pcm).

(** Closures submitted to the main loop through [Application::Schedule]. *)
Inductive MainClosure : Type :=
| SendAudioClosure (opus : AudioFrame)
| TtsStartClosure
| TtsStopClosure
| StopListeningClosure
| AudioChannelClosedClosure.

Record Application : Type := mkApplication {
  device_state_ : DeviceState;
  keep_listening_ : bool;
  aborted_ : bool;
  opus_decode_sample_rate_ : Z;
  audio_decode_queue_ : list AudioFrame;
  last_output_time_ : Z;
  last_iot_states_ : string;
  main_tasks_ : list MainClosure;
  background_task_ : BackgroundTask.t BackgroundClosure;
  effects : list Effect
}.

(** What the core reads from its surroundings during one operation: the
    steady clock and the state document of the thing manager. *)
Record Ambient : Type := mkAmbient {
  steady_clock_now : Z;
  GetStatesJson : string
}.

(** What the board and the codecs are, as far as the core can tell. *)
Record Collaborators : Type := mkCollaborators {
  CONFIG_IDF_TARGET_ESP32S3 : bool;
  output_sample_rate : Z;
  Decode : Z -> AudioFrame -> option Pcm;
  Resample : Z -> Z -> Pcm -> Pcm;
  Encode : Pcm -> list AudioFrame
}.

(** ** Assignments to data members *)

Definition set_device_state_ (v : DeviceState) (a : Application) :=
  mkApplication v (keep_listening_ a) (aborted_ a)
    (opus_decode_sample_rate_ a) (audio_decode_queue_ a)
    (last_output_time_ a) (last_iot_states_ a) (main_tasks_ a)
    (background_task_ a) (effects a).

Definition set_aborted_ (v : bool) (a : Application) :=
  mkApplication (device_state_ a) (keep_listening_ a) v
    (opus_decode_sample_rate_ a) (audio_decode_queue_ a)
    (last_output_time_ a) (last_iot_states_ a) (main_tasks_ a)
    (background_task_ a) (effects a).

Definition set_opus_decode_sample_rate_ (v : Z) (a : Application) :=
  mkApplication (device_state_ a) (keep_listening_ a) (aborted_ a)
    v (audio_decode_queue_ a)
    (last_output_time_ a) (last_iot_states_ a) (main_tasks_ a)
    (background_task_ a) (effects a).

Definition set_audio_decode_queue_ (v : list AudioFrame) (a : Application) :=
  mkApplication (device_state_ a) (keep_listening_ a) (aborted_ a)
    (opus_decode_sample_rate_ a) v
    (last_output_time_ a) (last_iot_states_ a) (main_tasks_ a)
    (background_task_ a) (effects a).

Definition set_last_output_time_ (v : Z) (a : Application) :=
  mkApplication (device_state_ a) (keep_listening_ a) (aborted_ a)
    (opus_decode_sample_rate_ a) (audio_decode_queue_ a)
    v (last_iot_states_ a) (main_tasks_ a)
    (background_task_ a) (effects a).

Definition set_last_iot_states_ (v : string) (a : Application) :=
  mkApplication (device_state_ a) (keep_listening_ a) (aborted_ a)
    (opus_decode_sample_rate_ a) (audio_decode_queue_ a)
    (last_output_time_ a) v (main_tasks_ a)
    (background_task_ a) (effects a).

Definition set_main_tasks_ (v : list MainClosure) (a : Application) :=
  mkApplication (device_state_ a) (keep_listening_ a) (aborted_ a)
    (opus_decode_sample_rate_ a) (audio_decode_queue_ a)
    (last_output_time_ a) (last_iot_states_ a) v
    (background_task_ a) (effects a).

Definition set_background_task_
    (v : BackgroundTask.t BackgroundClosure) (a : Application) :=
  mkApplication (device_state_ a) (keep_listening_ a) (aborted_ a)
    (opus_decode_sample_rate_ a) (audio_decode_queue_ a)
    (last_output_time_ a) (last_iot_states_ a) (main_tasks_ a)
    v (effects a).

(** A call to a collaborator: append it to the trace. *)
Definition call (e : Effect) (a : Application) : Application :=
  mkApplication (device_state_ a) (keep_listening_ a) (aborted_ a)
    (opus_decode_sample_rate_ a) (audio_decode_queue_ a)
    (last_output_time_ a) (last_iot_states_ a) (main_tasks_ a)
    (background_task_ a) (effects a ++ [e]).

(** Statements in sequence, read left to right. *)
Definition seq (f g : Application -> Application) : Application -> Application :=
  fun a => g (f a).

Declare Scope stmt_scope.
Delimit Scope stmt_scope with stmt.
Notation "f ;; g" := (seq f g)
  (at level 61, left associativity) : stmt_scope.

Definition skip : Application -> Application := fun a => a.

Definition TAG : string := "Application".
Definition BACKGROUND_TAG : string := "BackgroundTask".

(* ===================================================================== *)
(** * Operations of the core                                              *)
(* ===================================================================== *)

Section Core.

Variable board : Collaborators.

Local Open Scope stmt_scope.

(** ** Submissions *)

(** [Application::Schedule]: append to the main loop's queue. *)
Definition Schedule (c : MainClosure) (a : Application) : Application :=
  set_main_tasks_ (main_tasks_ a ++ [c]) a.

(** [background_task_->Schedule(...)], with its warning. *)
Definition background_Schedule (c : BackgroundClosure) (a : Application)
  : Application :=
  let b := background_task_ a in
  let a1 :=
    if BackgroundTask.Schedule_warns b
    then call (ESP_LOGW BACKGROUND_TAG "active_tasks_ == %u"
                 [ArgNumber (BackgroundTask.active_tasks_ b)]) a
    else a in
  set_background_task_ (BackgroundTask.Schedule c b) a1.

(** ** The two background closures *)

(** The closure built at the end of [OutputAudio]. It reads [aborted_]
    and [opus_decode_sample_rate_] when it runs, not when it is built. *)
Definition run_DecodeClosure (opus : AudioFrame) (a : Application)
  : Application :=
  if aborted_ a then a
  else
    let a1 := call (OpusDecoder_Decode opus) a in
    match Decode board (opus_decode_sample_rate_ a) opus with
    | None => a1
    | Some pcm =>
        if opus_decode_sample_rate_ a =? output_sample_rate board
        then call (Codec_OutputData pcm) a1
        else
          let resampled :=
            Resample board (opus_decode_sample_rate_ a)
              (output_sample_rate board) pcm in
          call (Codec_OutputData resampled)
            (call (Resampler_Process pcm) a1)
    end.

(** The encode closure: every packet the encoder hands to the callback
    becomes a [SendAudio] closure for the main loop. *)
Definition run_EncodeClosure (data : Pcm) (a : Application) : Application :=
  fold_left (fun acc opus => Schedule (SendAudioClosure opus) acc)
    (Encode board data)
    (call (OpusEncoder_Encode data) a).

Definition run_callback (c : BackgroundClosure) : Application -> Application :=
  match c with
  | DecodeClosure opus => run_DecodeClosure opus
  | EncodeClosure data => run_EncodeClosure data
  end.

(** A whole wrapper, as the worker runs it: the callback, then the
    critical section that counts it out. *)
Definition run_wrapper (c : BackgroundClosure) (a : Application)
  : Application :=
  let a1 := run_callback c a in
  set_background_task_
    (fst (BackgroundTask.wrapper_epilogue (background_task_ a1))) a1.

Fixpoint run_batch (tasks : list BackgroundClosure) (a : Application)
  : Application :=
  match tasks with
  | [] => a
  | c :: rest => run_batch rest (run_wrapper c a)
  end.

(** [background_task_->WaitForCompletion()] as the main loop lives it:
    the caller is suspended while the worker takes what is queued and
    runs it, wrapper after wrapper; the trace records the return of the
    call. None of the two callbacks submits background work, so one
    batch is all there is. *)
Definition WaitForCompletion (a : Application) : Application :=
  let taken := BackgroundTask.take_batch (background_task_ a) in
  call BackgroundTask_WaitForCompletion
    (run_batch (fst taken) (set_background_task_ (snd taken) a)).

(** The worker alone: it runs the oldest queued wrapper, if any, from
    the test of [aborted_] that opens the callback to the end of the
    wrapper, as one action. *)
Definition worker_runs_next (a : Application) : option Application :=
  match BackgroundTask.main_tasks_ (background_task_ a) with
  | [] => None
  | c :: rest =>
      Some (run_wrapper c
              (set_background_task_
                 (BackgroundTask.mk rest
                    (BackgroundTask.active_tasks_ (background_task_ a)))
                 a))
  end.

(** ** Decoder housekeeping *)

Definition ResetDecoder (now : Z) : Application -> Application :=
  call OpusDecoder_ResetState ;;
  set_audio_decode_queue_ [] ;;
  set_last_output_time_ now ;;
  call (Codec_EnableOutput true).

Definition SetDecodeSampleRate (sample_rate : Z) (a : Application)
  : Application :=
  if opus_decode_sample_rate_ a =? sample_rate then a
  else
    let a1 :=
      call (OpusDecoder_New sample_rate)
        (set_opus_decode_sample_rate_ sample_rate a) in
    if sample_rate =? output_sample_rate board then a1
    else
      (call (ESP_LOGI TAG "Resampling audio from %d to %d"
               [ArgNumber sample_rate;
                ArgNumber (output_sample_rate board)]) ;;
       call (Resampler_Configure sample_rate (output_sample_rate board)))
        a1.

Definition UpdateIotStates (states : string) (a : Application)
  : Application :=
  if String.eqb states (last_iot_states_ a) then a
  else call (Protocol_SendIotStates states) (set_last_iot_states_ states a).

(** ** The state machine *)

Definition audio_processor (e : Effect) : Application -> Application :=
  if CONFIG_IDF_TARGET_ESP32S3 board then call e else skip.

(** The [switch] of [SetDeviceState]. *)
Definition state_entry (state : DeviceState) (env : Ambient)
  : Application -> Application :=
  match state with
  | kDeviceStateUnknown
  | kDeviceStateIdle =>
      call (Display_SetStatus "待命") ;;
      call (Display_SetEmotion "neutral") ;;
      audio_processor AudioProcessor_Stop
  | kDeviceStateConnecting =>
      call (Display_SetStatus "连接中...")
  | kDeviceStateListening =>
      call (Display_SetStatus "聆听中...") ;;
      call (Display_SetEmotion "neutral") ;;
      ResetDecoder (steady_clock_now env) ;;
      call OpusEncoder_ResetState ;;
      audio_processor AudioProcessor_Start ;;
      UpdateIotStates (GetStatesJson env)
  | kDeviceStateSpeaking =>
      call (Display_SetStatus "说话中...") ;;
      ResetDecoder (steady_clock_now env) ;;
      audio_processor AudioProcessor_Stop
  | _ => skip
  end.

(** [ESP_LOGI(TAG, "STATE: %s", STATE_STRINGS[device_state_])] *)
Definition log_state (a : Application) : Application :=
  call (ESP_LOGI TAG "STATE: %s"
          [ArgString (STATE_STRINGS_at (device_state_ a))]) a.

Definition SetDeviceState (state : DeviceState) (env : Ambient)
    (a : Application) : Application :=
  if DeviceState_eqb (device_state_ a) state then a
  else
    (set_device_state_ state ;;
     log_state ;;
     WaitForCompletion ;;
     call Led_OnStateChanged ;;
     state_entry state env) a.

(** ** Control surface *)

Definition AbortSpeaking (reason : AbortReason) : Application -> Application :=
  call (ESP_LOGI TAG "Abort speaking" []) ;;
  set_aborted_ true ;;
  call (Protocol_SendAbortSpeaking reason).

(** The closure of [OnIncomingJson] for [tts] / [start]. *)
Definition run_TtsStart (env : Ambient) (a : Application) : Application :=
  let a1 := set_aborted_ false a in
  match device_state_ a1 with
  | kDeviceStateIdle | kDeviceStateListening =>
      SetDeviceState kDeviceStateSpeaking env a1
  | _ => a1
  end.

(** The closure of [OnIncomingJson] for [tts] / [stop]. *)
Definition run_TtsStop (env : Ambient) (a : Application) : Application :=
  match device_state_ a with
  | kDeviceStateSpeaking =>
      let a1 := WaitForCompletion a in
      if keep_listening_ a1
      then SetDeviceState kDeviceStateListening env
             (call (Protocol_SendStartListening kListeningModeAutoStop) a1)
      else SetDeviceState kDeviceStateIdle env a1
  | _ => a
  end.

(** The closure of [StopListening]. *)
Definition run_StopListening (env : Ambient) (a : Application)
  : Application :=
  match device_state_ a with
  | kDeviceStateListening =>
      SetDeviceState kDeviceStateIdle env (call Protocol_SendStopListening a)
  | _ => a
  end.

(** The closure of [OnAudioChannelClosed]. *)
Definition run_AudioChannelClosed (env : Ambient) : Application -> Application :=
  call (Display_SetChatMessage EmptyString EmptyString) ;;
  SetDeviceState kDeviceStateIdle env.

Definition run_closure (c : MainClosure) (env : Ambient)
  : Application -> Application :=
  match c with
  | SendAudioClosure opus => call (Protocol_SendAudio opus)
  | TtsStartClosure => run_TtsStart env
  | TtsStopClosure => run_TtsStop env
  | StopListeningClosure => run_StopListening env
  | AudioChannelClosedClosure => run_AudioChannelClosed env
  end.

(** ** Transport audio *)

(** The handler registered with [OnIncomingAudio]. *)
Definition OnIncomingAudio (data : AudioFrame) (a : Application)
  : Application :=
  match device_state_ a with
  | kDeviceStateSpeaking =>
      set_audio_decode_queue_ (audio_decode_queue_ a ++ [data]) a
  | _ => a
  end.

(** ** The output pipeline *)

(** [steady_clock::duration] counts nanoseconds;
    [duration_cast<seconds>] truncates toward zero. *)
Definition duration_cast_seconds (d : Z) : Z := Z.quot d 1000000000.

Definition max_silence_seconds : Z := 10.

Definition OutputAudio (now : Z) (a : Application) : Application :=
  match audio_decode_queue_ a with
  | [] =>
      match device_state_ a with
      | kDeviceStateIdle =>
          let duration :=
            duration_cast_seconds (now - last_output_time_ a) in
          if max_silence_seconds <? duration
          then call (Codec_EnableOutput false) a
          else a
      | _ => a
      end
  | opus :: rest =>
      match device_state_ a with
      | kDeviceStateListening => set_audio_decode_queue_ [] a
      | _ =>
          (set_last_output_time_ now ;;
           set_audio_decode_queue_ rest ;;
           background_Schedule (DecodeClosure opus)) a
      end
  end.

(** The submission of an encode closure, from [InputAudio] or from the
    audio processor's output callback. *)
Definition submit_encode (data : Pcm) : Application -> Application :=
  background_Schedule (EncodeClosure data).

End Core.

(* ===================================================================== *)
(** * The local prompt player ([Application::PlayLocalFile])              *)
(* ===================================================================== *)

(** The layout of [struct BinaryProtocol3], declared in a header that is
    not among the sources at hand: the size of the fixed part and the
    offset of its [uint16_t payload_size]. The flexible array member
    [payload] starts where the fixed part ends. *)
Record BinaryProtocol3 : Type := mkBinaryProtocol3 {
  sizeof : nat;
  offsetof_payload_size : nat
}.

Definition byte_value (b : byte) : Z := Z.of_N (Byte.to_N b).

(** A [uint16_t] read from memory by the little-endian target. *)
Definition load_uint16 (mem : list byte) (offset : nat) : option Z :=
  match nth_error mem offset, nth_error mem (S offset) with
  | Some b0, Some b1 =>
      Some (Z.lor (byte_value b0) (Z.shiftl (byte_value b1) 8))
  | _, _ => None
  end.

(** [ntohs] on that target swaps the two bytes. *)
Definition ntohs (x : Z) : Z :=
  Z.lor (Z.shiftl (Z.land x 255) 8) (Z.shiftr (Z.land x 65280) 8).

(** How a run of the parsing loop ends. Reading, or moving [p], past the
    end of the buffer is undefined behaviour in the source; the model
    stops there. *)
Inductive Run : Type :=
| Finished (a : Application)
| OutOfBounds
| OutOfFuel.

Section PromptPlayer.

Variable board : Collaborators.
Variable layout : BinaryProtocol3.

(** The [for] loop; [rest] is the buffer from [p] to [data + size]. *)
Fixpoint PlayLocalFile_loop (fuel : nat) (rest : list byte)
    (a : Application) : Run :=
  match rest with
  | [] => Finished a
  | _ :: _ =>
      match fuel with
      | O => OutOfFuel
      | S fuel' =>
          match load_uint16 rest (offsetof_payload_size layout) with
          | None => OutOfBounds
          | Some field =>
              let payload_size := Z.to_nat (ntohs field) in
              let after_header := skipn (sizeof layout) rest in
              if (List.length rest <? sizeof layout)%nat then OutOfBounds
              else if (List.length after_header <? payload_size)%nat
              then OutOfBounds
              else
                let opus := firstn payload_size after_header in
                PlayLocalFile_loop fuel'
                  (skipn payload_size after_header)
                  (set_audio_decode_queue_
                     (audio_decode_queue_ a ++ [opus]) a)
          end
      end
  end.

Definition PlayLocalFile (data : list byte) (a : Application) : Run :=
  PlayLocalFile_loop (S (List.length data)) data
    (SetDecodeSampleRate board 16000
       (call (ESP_LOGI TAG "PlayLocalFile: %zu bytes"
                [ArgNumber (Z.of_nat (List.length data))]) a)).

End PromptPlayer.

(* ===================================================================== *)
(** * Runs of the core                                                    *)
(* ===================================================================== *)

(** What can happen to the core, one atomic action at a time: the main
    loop runs a scheduled closure, an output tick or one of its control
    operations; the transport delivers a frame; the capture side submits
    an encode closure; the worker runs the next background wrapper. *)
Inductive Event : Type :=
| MainLoop_closure (c : MainClosure) (env : Ambient)
| MainLoop_OutputAudio (now : Z)
| MainLoop_SetDeviceState (state : DeviceState) (env : Ambient)
| MainLoop_AbortSpeaking (reason : AbortReason)
| MainLoop_PlayLocalFile (data : list byte)
| Transport_OnIncomingAudio (data : AudioFrame)
| Capture_encode (data : Pcm)
| Worker_next.

Section Runs.

Variable board : Collaborators.
Variable layout : BinaryProtocol3.

Definition perform (e : Event) (a : Application) : option Application :=
  match e with
  | MainLoop_closure c env => Some (run_closure board c env a)
  | MainLoop_OutputAudio now => Some (OutputAudio now a)
  | MainLoop_SetDeviceState state env => Some (SetDeviceState board state env a)
  | MainLoop_AbortSpeaking reason => Some (AbortSpeaking reason a)
  | MainLoop_PlayLocalFile data =>
      match PlayLocalFile board layout data a with
      | Finished a' => Some a'
      | _ => None
      end
  | Transport_OnIncomingAudio data => Some (OnIncomingAudio data a)
  | Capture_encode data => Some (submit_encode data a)
  | Worker_next => worker_runs_next board a
  end.

Fixpoint run (events : list Event) (a : Application) : option Application :=
  match events with
  | [] => Some a
  | e :: rest =>
      match perform e a with
      | Some a' => run rest a'
      | None => None
      end
  end.

End Runs.

(** The event that clears [aborted_]. *)
Definition is_tts_start (e : Event) : bool :=
  match e with
  | MainLoop_closure TtsStartClosure _ => true
  | _ => false
  end.

(** The samples handed to the codec so far. *)
Fixpoint pcm_pushed (trace : list Effect) : list Pcm :=
  match trace with
  | [] => []
  | Codec_OutputData pcm :: rest => pcm :: pcm_pushed rest
  | _ :: rest => pcm_pushed rest
  end.

Fixpoint frames_decoded (trace : list Effect) : list AudioFrame :=
  match trace with
  | [] => []
  | OpusDecoder_Decode opus :: rest => opus :: frames_decoded rest
  | _ :: rest => frames_decoded rest
  end.

(* ===================================================================== *)
(** * Vocabulary of the statements                                        *)
(* ===================================================================== *)

(** The core apart from its decode queue. *)
Definition apart_from_queue (a : Application) : Application :=
  set_audio_decode_queue_ [] a.

Definition one_second : Z := 1000000000.

(** Calls made when a state is entered. *)
Definition is_state_side_effect (e : Effect) : bool :=
  match e with
  | Led_OnStateChanged
  | Display_SetStatus _
  | Display_SetEmotion _
  | AudioProcessor_Start
  | AudioProcessor_Stop
  | OpusDecoder_ResetState
  | OpusEncoder_ResetState
  | Codec_EnableOutput _
  | Protocol_SendIotStates _ => true
  | _ => false
  end.

(** Calls made by the closures of the background executor. *)
Definition is_closure_effect (e : Effect) : bool :=
  match e with
  | OpusDecoder_Decode _
  | Resampler_Process _
  | Codec_OutputData _
  | OpusEncoder_Encode _ => true
  | _ => false
  end.

(** Calls that neither decode a frame nor hand samples to the codec. *)
Definition is_silent (e : Effect) : bool :=
  match e with
  | OpusDecoder_Decode _
  | Codec_OutputData _ => false
  | _ => true
  end.

Definition is_warning (e : Effect) : bool :=
  match e with
  | ESP_LOGW _ _ _ => true
  | _ => false
  end.

(** [f] leaves [aborted_] alone and adds to the trace only calls of the
    class [P]. *)
Definition adds (P : Effect -> bool) (f : Application -> Application)
  : Prop :=
  forall a,
    aborted_ (f a) = aborted_ a /\
    exists new, effects (f a) = effects a ++ new /\ forallb P new = true.

(** While [aborted_] is set, [f] keeps it set and makes only silent
    calls. *)
Definition hushed (f : Application -> Application) : Prop :=
  forall a,
    aborted_ a = true ->
    aborted_ (f a) = true /\
    exists new, effects (f a) = effects a ++ new /\
                forallb is_silent new = true.

(** The counter of the executor agrees with its queue: the state of the
    executor whenever its worker is parked. *)
Definition counter_matches_queue (b : BackgroundTask.t BackgroundClosure)
  : Prop :=
  BackgroundTask.active_tasks_ b
    = Z.of_nat (List.length (BackgroundTask.main_tasks_ b)) /\
  Z.of_nat (List.length (BackgroundTask.main_tasks_ b))
    < BackgroundTask.size_t_modulus.

(** The transitions section 4.5 of the specification lists as legal. *)
Definition spec_legal_transition (from to : DeviceState) : bool :=
  match from, to with
  | _, kDeviceStateUpgrading => true
  | _, kDeviceStateFatalError => true
  | kDeviceStateIdle, kDeviceStateConnecting => true
  | kDeviceStateConnecting, kDeviceStateListening => true
  | kDeviceStateListening, kDeviceStateSpeaking => true
  | kDeviceStateSpeaking, kDeviceStateListening => true
  | kDeviceStateSpeaking, kDeviceStateIdle => true
  | kDeviceStateListening, kDeviceStateIdle => true
  | _, _ => false
  end.

(** One record of a prompt file: the fixed header, then the payload. *)
Record PromptFrame : Type := mkPromptFrame {
  header : list byte;
  payload : list byte
}.

Definition serialize (f : PromptFrame) : list byte := header f ++ payload f.

(** The size the header declares, read as the format defines it: a
    big-endian 16-bit number at the offset of [payload_size]. *)
Definition declared_payload_size (layout : BinaryProtocol3) (f : PromptFrame)
  : option Z :=
  match nth_error (header f) (offsetof_payload_size layout),
        nth_error (header f) (S (offsetof_payload_size layout)) with
  | Some high, Some low => Some (256 * byte_value high + byte_value low)
  | _, _ => None
  end.

(** A record is well formed when its header has the size of the struct
    and declares the length of its payload. *)
Definition well_formed (layout : BinaryProtocol3) (f : PromptFrame) : Prop :=
  List.length (header f) = sizeof layout /\
  declared_payload_size layout f = Some (Z.of_nat (List.length (payload f))).

Definition Run_map (g : Application -> Application) (r : Run) : Run :=
  match r with
  | Finished a => Finished (g a)
  | OutOfBounds => OutOfBounds
  | OutOfFuel => OutOfFuel
  end.

(* ===================================================================== *)
(** * Specimens used to exercise the statements                           *)
(* ===================================================================== *)

Module Specimen.

(** A board without the S3 audio front end whose codec plays at 24 kHz;
    the decoder yields one sample per packet byte. *)
Definition board : Collaborators :=
  {| CONFIG_IDF_TARGET_ESP32S3 := false;
     output_sample_rate := 24000;
     Decode := fun _ opus => Some (map byte_value opus);
     Resample := fun _ _ pcm => pcm;
     Encode := fun _ => [] |}.

(** The packed layout: type, reserved, payload_size, payload. *)
Definition layout : BinaryProtocol3 :=
  {| sizeof := 4; offsetof_payload_size := 2 |}.

Definition env : Ambient :=
  {| steady_clock_now := 0; GetStatesJson := "{}" |}.

(** The core right after [Start]: idle, nothing queued. *)
Definition idle : Application :=
  {| device_state_ := kDeviceStateIdle;
     keep_listening_ := false;
     aborted_ := false;
     opus_decode_sample_rate_ := 24000;
     audio_decode_queue_ := [];
     last_output_time_ := 0;
     last_iot_states_ := EmptyString;
     main_tasks_ := [];
     background_task_ := BackgroundTask.create;
     effects := [] |}.

Definition frame0 : AudioFrame := [x07; x08; x09].

Definition frame1 : AudioFrame := [x01; x02; x03].

Definition frame2 : AudioFrame := [x04; x05].

(** In the middle of a reply: two packets queued, the decode closure of
    an earlier one with the executor. *)
Definition speaking : Application :=
  {| device_state_ := kDeviceStateSpeaking;
     keep_listening_ := true;
     aborted_ := false;
     opus_decode_sample_rate_ := 24000;
     audio_decode_queue_ := [frame1; frame2];
     last_output_time_ := 0;
     last_iot_states_ := EmptyString;
     main_tasks_ := [];
     background_task_ := BackgroundTask.mk [DecodeClosure frame0] 1;
     effects := [] |}.

(** Listening, with late packets of the previous reply still queued. *)
Definition listening : Application :=
  set_device_state_ kDeviceStateListening speaking.

End Specimen.

(** Two records in the packed layout, with payloads of 320 and 280 bytes
    (sizes [0x0140] and [0x0118]). *)
Definition prompt_320 : PromptFrame :=
  {| header := [x00; x00; x01; x40]; payload := repeat xaa 320 |}.

Definition prompt_280 : PromptFrame :=
  {| header := [x00; x00; x01; x18]; payload := repeat xbb 280 |}.

(** A reply is cut short: an output tick hands the next frame to the
    executor, the worker runs both closures it holds, the server's
    [tts] / [stop] arrives, one more frame comes in. *)
Definition after_abort : list Event :=
  [ MainLoop_OutputAudio 1;
    Worker_next;
    Worker_next;
    Transport_OnIncomingAudio Specimen.frame1;
    MainLoop_closure TtsStopClosure Specimen.env;
    MainLoop_OutputAudio 2 ].

(** The executor, over callbacks named by numbers, after one closure has
    been submitted, taken, run and counted out. *)
Definition drained_executor : BackgroundTask.System nat :=
  BackgroundTask.mkSystem BackgroundTask.create BackgroundTask.AtWait
    BackgroundTask.Outside 2 [7%nat] [7%nat].

(* ===================================================================== *)
(** * Further vocabulary: members, playback order, executor order         *)
(* ===================================================================== *)

(** The data members of the core other than its two task queues and the
    trace. *)
Definition members (a : Application) :=
  (device_state_ a, keep_listening_ a, aborted_ a,
   opus_decode_sample_rate_ a, audio_decode_queue_ a,
   last_output_time_ a, last_iot_states_ a).

(** Output ticks in a row, at the given times. *)
Definition ticks (nows : list Z) (a : Application) : Application :=
  fold_left (fun acc now => OutputAudio now acc) nows a.

(** The frames the decode closures among [tasks] carry. *)
Fixpoint decode_frames (tasks : list BackgroundClosure) : list AudioFrame :=
  match tasks with
  | [] => []
  | DecodeClosure opus :: rest => opus :: decode_frames rest
  | EncodeClosure _ :: rest => decode_frames rest
  end.

(** What the codec is handed for [frames] decoded at [rate]: nothing for
    a frame the decoder rejects, else its samples, resampled when the
    decode rate is not the codec's. *)
Definition rendered (board : Collaborators) (rate : Z)
    (frames : list AudioFrame) : list Pcm :=
  flat_map
    (fun opus =>
       match Decode board rate opus with
       | None => []
       | Some pcm =>
           [ if rate =? output_sample_rate board then pcm
             else Resample board rate (output_sample_rate board) pcm ]
       end)
    frames.

Definition is_start_listening (e : Effect) : bool :=
  match e with
  | Protocol_SendStartListening _ => true
  | _ => false
  end.

Definition is_stop_listening (e : Effect) : bool :=
  match e with
  | Protocol_SendStopListening => true
  | _ => false
  end.

Definition is_output_disable (e : Effect) : bool :=
  match e with
  | Codec_EnableOutput false => true
  | _ => false
  end.

(** Calls a change of state can make on its own: its log line, what the
    waiting closures do, the return of the wait, the entry actions. *)
Definition is_transition_call (e : Effect) : bool :=
  match e with
  | ESP_LOGI _ _ _ => true
  | BackgroundTask_WaitForCompletion => true
  | other => is_closure_effect other || is_state_side_effect other
  end.

(** The packets handed to the transport so far. *)
Fixpoint packets_sent (trace : list Effect) : list AudioFrame :=
  match trace with
  | [] => []
  | Protocol_SendAudio opus :: rest => opus :: packets_sent rest
  | _ :: rest => packets_sent rest
  end.

(** Closures submitted to the executor whose callback has not returned:
    what is left of the worker's batch, then the queue. *)
Definition not_yet_returned {Callback : Type}
    (s : BackgroundTask.System Callback) : list Callback :=
  match BackgroundTask.worker s with
  | BackgroundTask.AfterCallback l => tl l
  | w => BackgroundTask.batch w
  end ++ BackgroundTask.main_tasks_ (BackgroundTask.object s).

(** The executor right after one submission. *)
Definition one_submitted : BackgroundTask.System nat :=
  BackgroundTask.mkSystem (BackgroundTask.mk [7%nat] 1) BackgroundTask.AtWait
    BackgroundTask.Outside 1 [7%nat] [].

(* ===================================================================== *)
(** * Start-up ([main.cc])                                                *)
(* ===================================================================== *)

(** The error codes of the platform that [app_main] tells apart. *)
Inductive esp_err_t : Type :=
| ESP_OK
| ESP_ERR_NVS_NO_FREE_PAGES
| ESP_ERR_NVS_NEW_VERSION_FOUND
| ESP_ERR_other (code : Z).

(** What [app_main] does, in order, up to the launch of the application. *)
Inductive BootCall : Type :=
| esp_event_loop_create_default
| nvs_flash_init
| nvs_flash_erase
| Boot_ESP_LOGW (tag message : string)
| Application_Start.

(** [ESP_ERROR_CHECK] aborts the program on anything but [ESP_OK]. *)
Inductive Boot : Type :=
| Aborted (calls : list BootCall)
| Launched (calls : list BootCall).

Definition is_ESP_OK (e : esp_err_t) : bool :=
  match e with
  | ESP_OK => true
  | _ => false
  end.

(** [app_main], given what the four platform calls return: the creation
    of the event loop, the first initialisation of the flash store, its
    erasure and the second initialisation. *)
Definition app_main (loop_created init_first erased init_second : esp_err_t)
  : Boot :=
  let c0 := [esp_event_loop_create_default] in
  if negb (is_ESP_OK loop_created) then Aborted c0
  else
    let c1 := c0 ++ [nvs_flash_init] in
    match init_first with
    | ESP_ERR_NVS_NO_FREE_PAGES
    | ESP_ERR_NVS_NEW_VERSION_FOUND =>
        let c2 :=
          c1 ++ [Boot_ESP_LOGW "main" "Erasing NVS flash to fix corruption";
                 nvs_flash_erase] in
        if negb (is_ESP_OK erased) then Aborted c2
        else
          let c3 := c2 ++ [nvs_flash_init] in
          if negb (is_ESP_OK init_second) then Aborted c3
          else Launched (c3 ++ [Application_Start])
    | ESP_OK => Launched (c1 ++ [Application_Start])
    | ESP_ERR_other _ => Aborted c1
    end.

Definition launched (b : Boot) : bool :=
  match b with
  | Launched _ => true
  | Aborted _ => false
  end.

Definition boot_calls (b : Boot) : list BootCall :=
  match b with
  | Launched c | Aborted c => c
  end.

Definition is_nvs_flash_erase (c : BootCall) : bool :=
  match c with
  | nvs_flash_erase => true
  | _ => false
  end.

Definition is_nvs_flash_init (c : BootCall) : bool :=
  match c with
  | nvs_flash_init => true
  | _ => false
  end.

Definition needs_erase (e : esp_err_t) : bool :=
  match e with
  | ESP_ERR_NVS_NO_FREE_PAGES | ESP_ERR_NVS_NEW_VERSION_FOUND => true
  | _ => false
  end.

(* ===================================================================== *)
(** * The input pipeline ([Application::InputAudio])                      *)
(* ===================================================================== *)

(** The capture side of the codec and the two input resamplers. A
    resampler maps a block to the block [Process] writes, of
    [GetOutputSamples] samples. *)
Record CaptureCodec : Type := mkCaptureCodec {
  input_sample_rate : Z;
  input_channels : Z;
  input_resampler_ : Pcm -> Pcm;
  reference_resampler_ : Pcm -> Pcm
}.

(** What one call of [InputAudio] finds: the block [codec->InputData]
    delivers, if it delivers one, and whether the audio processor and
    the wake-word detector are running. *)
Record CaptureReading : Type := mkCaptureReading {
  InputData : option Pcm;
  audio_processor_IsRunning : bool;
  wake_word_IsDetectionRunning : bool
}.

(** Calls to collaborators that the trace of the core does not cover.
    They are recorded apart, in the order one operation makes them. *)
Inductive ShellCall : Type :=
| ESP_LOGE (tag message : string)
| AudioProcessor_Input (data : Pcm)
| WakeWord_Feed (data : Pcm)
| WakeWord_EncodeWakeWordData
| WakeWord_StartDetection
| Display_ShowNotification (message : string)
| Display_SetIcon (icon : string)
| Protocol_OpenAudioChannel
| Protocol_CloseAudioChannel
| Protocol_IsAudioChannelOpened
| Protocol_SendWakeWordDetected (wake_word : string)
| Protocol_SendIotDescriptors (descriptors : string)
| Board_SetPowerSaveMode (enabled : bool)
| ThingManager_Invoke (command : string)
| vTaskDelay_ms (ms : Z)
| BackgroundTask_delete.

(** The first loop of the stereo branch: [mic_channel[i] = data[j]],
    [reference_channel[i] = data[j + 1]], over [data.size() / 2] pairs. *)
Definition mic_channel (data : Pcm) : Pcm :=
  map (fun i => nth (2 * i)%nat data 0) (List.seq 0 (List.length data / 2)).

Definition reference_channel (data : Pcm) : Pcm :=
  map (fun i => nth (2 * i + 1)%nat data 0)
    (List.seq 0 (List.length data / 2)).

(** [std::vector::resize]: the first [n] elements stay, new ones are 0. *)
Definition resize (n : nat) (v : Pcm) : Pcm :=
  firstn n v ++ repeat 0 (n - List.length v).

(** The second loop of the stereo branch, on the block [data] it
    overwrites: [data.resize(mic.size() + ref.size())], then
    [data[j] = mic[i]], [data[j + 1] = ref[i]] for every [i] below
    [mic.size()]. With fewer reference samples than microphone samples
    the loop reads and writes past the end of its vectors. *)
Definition interleave (mic ref data : Pcm) : option Pcm :=
  if (List.length ref <? List.length mic)%nat then None
  else
    Some (flat_map (fun i => [nth i mic 0; nth i ref 0])
            (List.seq 0 (List.length mic))
          ++ skipn (2 * List.length mic)%nat
               (resize (List.length mic + List.length ref)%nat data)).

(** The block after the resampling stage. *)
Definition resample_input (cap : CaptureCodec) (data : Pcm) : option Pcm :=
  if input_sample_rate cap =? 16000 then Some data
  else if input_channels cap =? 2 then
    interleave (input_resampler_ cap (mic_channel data))
               (reference_resampler_ cap (reference_channel data))
               data
  else Some (input_resampler_ cap data).

(** [InputAudio]: [None] when the stereo branch runs off its vectors. *)
Definition InputAudio (board : Collaborators) (cap : CaptureCodec)
    (reading : CaptureReading) (a : Application)
  : option (Application * list ShellCall) :=
  match InputData reading with
  | None => Some (a, [])
  | Some captured =>
      match resample_input cap captured with
      | None => None
      | Some data =>
          if CONFIG_IDF_TARGET_ESP32S3 board then
            Some (a,
                  (if audio_processor_IsRunning reading
                   then [AudioProcessor_Input data] else [])
                  ++ (if wake_word_IsDetectionRunning reading
                      then [WakeWord_Feed data] else []))
          else
            match device_state_ a with
            | kDeviceStateListening =>
                Some (background_Schedule (EncodeClosure data) a, [])
            | _ => Some (a, [])
            end
      end
  end.

(** A block as the pairs of its stereo frames; a sample without partner
    at the end is not part of any. *)
Fixpoint stereo_frames (data : Pcm) : list (Z * Z) :=
  match data with
  | m :: r :: rest => (m, r) :: stereo_frames rest
  | _ => []
  end.

Definition weave (frames : list (Z * Z)) : Pcm :=
  flat_map (fun p => [fst p; snd p]) frames.

(* ===================================================================== *)
(** * The main loop ([Application::MainLoop])                             *)
(* ===================================================================== *)

(** The bits [xEventGroupWaitBits] returns at one wake-up. *)
Record EventBits : Type := mkEventBits {
  SCHEDULE_EVENT : bool;
  AUDIO_INPUT_READY_EVENT : bool;
  AUDIO_OUTPUT_READY_EVENT : bool
}.

(** [for (auto& task : tasks) task();] over the closures taken from the
    queue, for closures of the kinds [MainClosure] lists; the [i]-th
    closure of the batch finds the surroundings [envs i]. *)
Fixpoint run_tasks (board : Collaborators) (envs : nat -> Ambient) (i : nat)
    (tasks : list MainClosure) (a : Application) : Application :=
  match tasks with
  | [] => a
  | c :: rest =>
      run_tasks board envs (S i) rest (run_closure board c (envs i) a)
  end.

(** One wake-up of the loop: the input pipeline, the output pipeline,
    then the closures that were queued, taken by
    [std::move(main_tasks_)], which leaves the queue empty. *)
Definition MainLoop_pass (board : Collaborators) (cap : CaptureCodec)
    (bits : EventBits) (reading : CaptureReading) (now : Z)
    (envs : nat -> Ambient) (a : Application)
  : option (Application * list ShellCall) :=
  match (if AUDIO_INPUT_READY_EVENT bits
         then InputAudio board cap reading a
         else Some (a, [])) with
  | None => None
  | Some (a1, calls) =>
      let a2 := if AUDIO_OUTPUT_READY_EVENT bits
                then OutputAudio now a1 else a1 in
      let a3 := if SCHEDULE_EVENT bits
                then run_tasks board envs 0 (main_tasks_ a2)
                       (set_main_tasks_ [] a2)
                else a2 in
      Some (a3, calls)
  end.

Definition only_SCHEDULE : EventBits :=
  {| SCHEDULE_EVENT := true;
     AUDIO_INPUT_READY_EVENT := false;
     AUDIO_OUTPUT_READY_EVENT := false |}.

(* ===================================================================== *)
(** * Control messages (the [OnIncomingJson] handler)                     *)
(* ===================================================================== *)

(** What the handler looks up in a message: for each key, the string of
    the item [cJSON_GetObjectItem] finds, if it finds one; for
    [commands], the commands of the array. Items are string-valued. *)
Record JsonMessage : Type := mkJsonMessage {
  json_type : option string;
  json_state : option string;
  json_text : option string;
  json_emotion : option string;
  json_commands : option (list string)
}.

(** The handler; [None] where it reads [valuestring] through a null
    pointer. *)
Definition OnIncomingJson (root : JsonMessage) (a : Application)
  : option (Application * list ShellCall) :=
  match json_type root with
  | None => None
  | Some type =>
      if String.eqb type "tts" then
        match json_state root with
        | None => None
        | Some state =>
            if String.eqb state "start" then
              Some (Schedule TtsStartClosure a, [])
            else if String.eqb state "stop" then
              Some (Schedule TtsStopClosure a, [])
            else if String.eqb state "sentence_start" then
              match json_text root with
              | Some text =>
                  Some (call (Display_SetChatMessage "assistant" text)
                          (call (ESP_LOGI TAG "<< %s" [ArgString text]) a),
                        [])
              | None => Some (a, [])
              end
            else Some (a, [])
        end
      else if String.eqb type "stt" then
        match json_text root with
        | Some text =>
            Some (call (Display_SetChatMessage "user" text)
                    (call (ESP_LOGI TAG ">> %s" [ArgString text]) a),
                  [])
        | None => Some (a, [])
        end
      else if String.eqb type "llm" then
        match json_emotion root with
        | Some emotion => Some (call (Display_SetEmotion emotion) a, [])
        | None => Some (a, [])
        end
      else if String.eqb type "iot" then
        match json_commands root with
        | Some commands => Some (a, map ThingManager_Invoke commands)
        | None => Some (a, [])
        end
      else Some (a, [])
  end.

(** The closures a message puts on the main loop's queue. *)
Definition scheduled_by (root : JsonMessage) : list MainClosure :=
  match json_type root, json_state root with
  | Some type, Some state =>
      if String.eqb type "tts" then
        if String.eqb state "start" then [TtsStartClosure]
        else if String.eqb state "stop" then [TtsStopClosure]
        else []
      else []
  | _, _ => []
  end.

Definition tts_start_message : JsonMessage :=
  {| json_type := Some "tts"%string; json_state := Some "start"%string;
     json_text := None; json_emotion := None; json_commands := None |}.

(* ===================================================================== *)
(** * The control surface and the transport callbacks                     *)
(* ===================================================================== *)

Definition set_keep_listening_ (v : bool) (a : Application) :=
  mkApplication (device_state_ a) v (aborted_ a)
    (opus_decode_sample_rate_ a) (audio_decode_queue_ a)
    (last_output_time_ a) (last_iot_states_ a) (main_tasks_ a)
    (background_task_ a) (effects a).

(** The prompts linked into the firmware. *)
Record PromptAssets : Type := mkPromptAssets {
  p3_err_reg : list byte;
  p3_err_pin : list byte;
  p3_err_wificonfig : list byte
}.

Section ControlSurface.

Variable board : Collaborators.
Variable layout : BinaryProtocol3.
Variable assets : PromptAssets.

(** [Application::Alert] *)
Definition Alert (title message : string) (a : Application)
  : Run * list ShellCall :=
  let a1 := call (ESP_LOGW TAG "Alert: %s, %s"
                    [ArgString title; ArgString message]) a in
  let shown := [Display_ShowNotification message] in
  if String.eqb message "PIN is not ready" then
    (PlayLocalFile board layout (p3_err_pin assets) a1, shown)
  else if String.eqb message "Configuring WiFi" then
    (PlayLocalFile board layout (p3_err_wificonfig assets) a1, shown)
  else if String.eqb message "Registration denied" then
    (PlayLocalFile board layout (p3_err_reg assets) a1, shown)
  else (Finished a1, shown).

(** The closure of [ToggleChatState]. [protocol_] says whether the
    transport exists, [opened] what [OpenAudioChannel] returns if it is
    called; [env1] and [env2] are the surroundings of the first and of
    the second change of state. *)
Definition run_ToggleChatState (protocol_ opened : bool)
    (env1 env2 : Ambient) (a : Application) : Run * list ShellCall :=
  if negb protocol_ then
    (Finished a, [ESP_LOGE TAG "Protocol not initialized"])
  else
    match device_state_ a with
    | kDeviceStateIdle =>
        let a1 := SetDeviceState board kDeviceStateConnecting env1 a in
        if opened then
          (Finished
             (SetDeviceState board kDeviceStateListening env2
                (call (Protocol_SendStartListening kListeningModeAutoStop)
                   (set_keep_listening_ true a1))),
           [Protocol_OpenAudioChannel])
        else
          match Alert "Error" "Failed to open audio channel" a1 with
          | (Finished a2, shown) =>
              (Finished (SetDeviceState board kDeviceStateIdle env2 a2),
               Protocol_OpenAudioChannel :: shown)
          | (stopped, shown) => (stopped, Protocol_OpenAudioChannel :: shown)
          end
    | kDeviceStateSpeaking =>
        (Finished (AbortSpeaking kAbortReasonNone a), [])
    | kDeviceStateListening => (Finished a, [Protocol_CloseAudioChannel])
    | _ => (Finished a, [])
    end.

(** The closure of [StartListening]. [is_opened] is what
    [IsAudioChannelOpened] returns, [opened] what [OpenAudioChannel]
    returns, each if it is called. *)
Definition run_StartListening (protocol_ is_opened opened : bool)
    (env1 env2 : Ambient) (a : Application) : Run * list ShellCall :=
  if negb protocol_ then
    (Finished a, [ESP_LOGE TAG "Protocol not initialized"])
  else
    let a0 := set_keep_listening_ false a in
    match device_state_ a0 with
    | kDeviceStateIdle =>
        if is_opened then
          (Finished
             (SetDeviceState board kDeviceStateListening env2
                (call (Protocol_SendStartListening kListeningModeManualStop)
                   a0)),
           [Protocol_IsAudioChannelOpened])
        else
          let a1 := SetDeviceState board kDeviceStateConnecting env1 a0 in
          if opened then
            (Finished
               (SetDeviceState board kDeviceStateListening env2
                  (call (Protocol_SendStartListening kListeningModeManualStop)
                     a1)),
             [Protocol_IsAudioChannelOpened; Protocol_OpenAudioChannel])
          else
            let a2 := SetDeviceState board kDeviceStateIdle env2 a1 in
            let alerted := Alert "Error" "Failed to open audio channel" a2 in
            (fst alerted,
             [Protocol_IsAudioChannelOpened; Protocol_OpenAudioChannel]
             ++ snd alerted)
    | kDeviceStateSpeaking =>
        (Finished
           (SetDeviceState board kDeviceStateListening env2
              (call (Protocol_SendStartListening kListeningModeManualStop)
                 (AbortSpeaking kAbortReasonNone a0))),
         [vTaskDelay_ms 120])
    | _ => (Finished a0, [])
    end.

(** The handler registered with [OnAudioChannelOpened]; the arguments
    are what [server_sample_rate] and [GetDescriptorsJson] return. *)
Definition OnAudioChannelOpened (server_sample_rate : Z)
    (descriptors : string) (a : Application)
  : Application * list ShellCall :=
  let a1 :=
    if server_sample_rate =? output_sample_rate board then a
    else call (ESP_LOGW TAG
                 "服务器的音频采样率 %d 与设备输出的采样率 %d 不一致，重采样后可能会失真"
                 [ArgNumber server_sample_rate;
                  ArgNumber (output_sample_rate board)]) a in
  (set_last_iot_states_ EmptyString
     (SetDecodeSampleRate board server_sample_rate a1),
   [Board_SetPowerSaveMode false; Protocol_SendIotDescriptors descriptors]).

(** The handler registered with [OnAudioChannelClosed]. *)
Definition OnAudioChannelClosed (a : Application)
  : Application * list ShellCall :=
  (Schedule AudioChannelClosedClosure a, [Board_SetPowerSaveMode true]).

(** The closure [CheckNewVersion] schedules, up to the call that starts
    the download; [icon] is [FONT_AWESOME_DOWNLOAD] and [version] what
    [GetFirmwareVersion] returns. *)
Definition run_upgrade_prologue (icon version : string) (env : Ambient)
    (a : Application) : Application * list ShellCall :=
  let a1 := SetDeviceState board kDeviceStateUpgrading env a in
  let a2 := call (Display_SetStatus (String.append "新版本 " version)) a1 in
  let a3 := call (Codec_EnableOutput false) a2 in
  let a4 := set_audio_decode_queue_ [] a3 in
  (WaitForCompletion board a4,
   [Display_SetIcon icon; BackgroundTask_delete; vTaskDelay_ms 1000]).

End ControlSurface.

(** The line [SetDeviceState] logs for [state]. *)
Definition state_log (state : DeviceState) : Effect :=
  ESP_LOGI TAG "STATE: %s" [ArgString (STATE_STRINGS_at state)].

Definition is_state_log (e : Effect) : bool :=
  match e with
  | ESP_LOGI _ format _ => String.eqb format "STATE: %s"
  | _ => false
  end.

(** The last [EnableOutput] call of a trace, if there is one. *)
Fixpoint last_output_switch (trace : list Effect) : option bool :=
  match trace with
  | [] => None
  | Codec_EnableOutput b :: rest =>
      match last_output_switch rest with
      | Some later => Some later
      | None => Some b
      end
  | _ :: rest => last_output_switch rest
  end.

Definition no_prompts : PromptAssets :=
  {| p3_err_reg := []; p3_err_pin := []; p3_err_wificonfig := [] |}.

(** The closure of [OnWakeWordDetected] (ESP32-S3 builds). [opened] is
    what [OpenAudioChannel] returns if it is called, [wake_word_opus]
    the packets [GetWakeWordOpus] hands out until it returns false. *)
Definition run_WakeWordDetected (board : Collaborators) (wake_word : string)
    (opened : bool) (wake_word_opus : list AudioFrame)
    (env1 env2 : Ambient) (a : Application) : Application * list ShellCall :=
  match device_state_ a with
  | kDeviceStateIdle =>
      let a1 := SetDeviceState board kDeviceStateConnecting env1 a in
      if opened then
        let a2 := fold_left (fun acc opus => call (Protocol_SendAudio opus) acc)
                    wake_word_opus a1 in
        let a3 := call (ESP_LOGI TAG "Wake word detected: %s"
                          [ArgString wake_word]) a2 in
        (SetDeviceState board kDeviceStateListening env2
           (set_keep_listening_ true a3),
         [WakeWord_EncodeWakeWordData; Protocol_OpenAudioChannel;
          Protocol_SendWakeWordDetected wake_word; WakeWord_StartDetection])
      else
        (SetDeviceState board kDeviceStateIdle env2 a1,
         [WakeWord_EncodeWakeWordData; Protocol_OpenAudioChannel;
          ESP_LOGE TAG "Failed to open audio channel";
          WakeWord_StartDetection])
  | kDeviceStateSpeaking =>
      (AbortSpeaking kAbortReasonWakeWordDetected a, [WakeWord_StartDetection])
  | _ => (a, [WakeWord_StartDetection])
  end.

Definition is_StartDetection (c : ShellCall) : bool :=
  match c with
  | WakeWord_StartDetection => true
  | _ => false
  end.

(** A second bench: a codec that captures at 16 kHz and an encoder that
    emits one packet per two samples. *)
Module SpecimenInput.

Definition board : Collaborators :=
  {| CONFIG_IDF_TARGET_ESP32S3 := false;
     output_sample_rate := 24000;
     Decode := fun _ opus => Some (map byte_value opus);
     Resample := fun _ _ pcm => pcm;
     Encode := fun pcm => map (fun _ => [x2a]) (stereo_frames pcm) |}.

Definition codec : CaptureCodec :=
  {| input_sample_rate := 16000;
     input_channels := 1;
     input_resampler_ := fun pcm => pcm;
     reference_resampler_ := fun pcm => pcm |}.

Definition block : Pcm := [10; 20; 30; 40].

Definition reading : CaptureReading :=
  {| InputData := Some block;
     audio_processor_IsRunning := false;
     wake_word_IsDetectionRunning := false |}.

Definition nothing : CaptureReading :=
  {| InputData := None;
     audio_processor_IsRunning := false;
     wake_word_IsDetectionRunning := false |}.

(** Listening, an earlier packet still waiting for the main loop. *)
Definition listening : Application :=
  {| device_state_ := kDeviceStateListening;
     keep_listening_ := true;
     aborted_ := false;
     opus_decode_sample_rate_ := 24000;
     audio_decode_queue_ := [];
     last_output_time_ := 0;
     last_iot_states_ := EmptyString;
     main_tasks_ := [SendAudioClosure [x07]];
     background_task_ := BackgroundTask.create;
     effects := [] |}.

End SpecimenInput.

Definition is_iot_states (e : Effect) : bool :=
  match e with
  | Protocol_SendIotStates _ => true
  | _ => false
  end.

Definition is_warning_or_output_off (e : Effect) : bool :=
  (is_warning e || is_output_disable e)%bool.

(** What an audio event keeps: the state machine's members and the main loop's
    queue; what it may add to the trace: the executor's warning and the
    switching-off of the codec output. *)
Definition keeps_the_state_machine (a a' : Application) : Prop :=
  device_state_ a' = device_state_ a /\
  keep_listening_ a' = keep_listening_ a /\
  aborted_ a' = aborted_ a /\
  opus_decode_sample_rate_ a' = opus_decode_sample_rate_ a /\
  last_iot_states_ a' = last_iot_states_ a /\
  main_tasks_ a' = main_tasks_ a /\
  exists new,
    effects a' = effects a ++ new /\
    forallb is_warning_or_output_off new = true.

(* ===================================================================== *)
(** * Facts about the background executor                                 *)
(* ===================================================================== *)

Module BackgroundTaskFacts.
Import BackgroundTask.

Section Invariants.

Variable Callback : Type.
Implicit Types (s : System Callback) (b : t Callback).

Lemma size_t_incr_small n :
  0 <= n -> n + 1 < size_t_modulus -> size_t_incr n = n + 1.
Proof.
  intros Hn Hlt. unfold size_t_incr. apply Z.mod_small. lia.
Qed.

Lemma size_t_decr_small n :
  0 < n -> n < size_t_modulus -> size_t_decr n = n - 1.
Proof.
  intros Hn Hlt. unfold size_t_decr. apply Z.mod_small. lia.
Qed.

Lemma completed_true b :
  completed b = true <-> main_tasks_ b = [] /\ active_tasks_ b = 0.
Proof.
  unfold completed. destruct (main_tasks_ b) as [|c l].
  - rewrite Z.eqb_eq. tauto.
  - split; [discriminate | intros [H _]; discriminate].
Qed.

Lemma completed_false_of_nonzero b :
  active_tasks_ b <> 0 -> completed b = false.
Proof.
  intros Hne. destruct (completed b) eqn:E; [|reflexivity].
  apply completed_true in E. tauto.
Qed.

Lemma wake_not_asleep (w : Waiter) : wake w <> Asleep.
Proof. destruct w; discriminate. Qed.

Lemma invariant_boot : invariant (@boot Callback).
Proof.
  split; simpl; try reflexivity. discriminate.
Qed.

Lemma batch_next_task (rest : list Callback) :
  batch (next_task rest) = rest.
Proof. destruct rest; reflexivity. Qed.

Lemma invariant_step s l s' : invariant s -> step s l s' -> invariant s'.
Proof.
  intros [Hcnt Hrng Hhist Hsleep] Hstep.
  unfold outstanding in Hcnt, Hrng. rewrite length_app in Hcnt, Hrng.
  destruct Hstep as
    [ s cb Hroom | s Hw Hne | s cb rest Hw | s cb rest Hw
    | s Hw Hc | s Hw Hc | s Hw ].
  - (* Schedule *)
    unfold outstanding in Hroom. rewrite length_app in Hroom.
    split; unfold outstanding; simpl.
    + rewrite !length_app. simpl.
      rewrite Hcnt, size_t_incr_small by lia. lia.
    + rewrite !length_app. simpl. lia.
    + unfold histories_agree in *; simpl.
      destruct (worker s) as [|l|l].
      * rewrite Hhist, app_assoc. reflexivity.
      * destruct Hhist as [Hl Hs]. split; [exact Hl|].
        rewrite Hs, !app_assoc. reflexivity.
      * destruct Hhist as (c & r & d & Hl & Hr & Hs).
        exists c, r, d. repeat split; try assumption.
        rewrite Hs, !app_assoc. reflexivity.
    + intros Habs. exfalso. exact (wake_not_asleep _ Habs).
  - (* the worker takes the batch *)
    rewrite Hw in Hcnt, Hrng. cbn [batch List.length] in Hcnt, Hrng.
    split; unfold outstanding; simpl.
    + rewrite Hcnt, app_nil_r. f_equal.
    + rewrite app_nil_r. exact Hrng.
    + unfold histories_agree in *; simpl. rewrite Hw in Hhist.
      split; [exact Hne|]. rewrite app_nil_r. exact Hhist.
    + intros _. apply completed_false_of_nonzero. simpl.
      rewrite Hcnt. destruct (main_tasks_ (object s)); [congruence|].
      cbn [List.length]. lia.
  - (* the callback returns *)
    rewrite Hw in Hcnt, Hrng. cbn [batch] in Hcnt, Hrng.
    split; unfold outstanding; simpl.
    + rewrite length_app. exact Hcnt.
    + rewrite length_app. exact Hrng.
    + unfold histories_agree in *; simpl. rewrite Hw in Hhist.
      destruct Hhist as [_ Hs].
      exists cb, rest, (returned s). repeat split. exact Hs.
    + exact Hsleep.
  - (* the wrapper counts the closure out *)
    rewrite Hw in Hcnt, Hrng. cbn [batch List.length] in Hcnt, Hrng.
    assert (Hdec : size_t_decr (active_tasks_ (object s))
                   = active_tasks_ (object s) - 1).
    { apply size_t_decr_small; lia. }
    unfold histories_agree in Hhist. rewrite Hw in Hhist.
    destruct Hhist as (c & r & d & Hl & Hr & Hs).
    injection Hl as <- <-.
    split; unfold outstanding; simpl.
    + rewrite batch_next_task, length_app, Hdec, Hcnt. lia.
    + rewrite batch_next_task, length_app. lia.
    + unfold histories_agree; simpl. rewrite Hr, Hs.
      destruct rest as [|c' rest']; simpl.
      * rewrite <- app_assoc. reflexivity.
      * split; [discriminate|]. rewrite <- app_assoc. reflexivity.
    + match goal with
      | |- context [if ?c then _ else _] => destruct c eqn:E
      end.
      * intros Habs. exfalso. exact (wake_not_asleep _ Habs).
      * intros _. reflexivity.
  - split; unfold outstanding; simpl; rewrite ?length_app; try assumption.
    intros _. exact Hc.
  - split; unfold outstanding; simpl; rewrite ?length_app; try assumption.
    discriminate.
  - split; unfold outstanding; simpl; rewrite ?length_app; try assumption.
    discriminate.
Qed.

Lemma reachable_invariant s : reachable s -> invariant s.
Proof.
  induction 1 as [|s l s' _ IH Hstep].
  - exact invariant_boot.
  - exact (invariant_step _ _ _ IH Hstep).
Qed.

Lemma step_counter s l s' :
  invariant s -> step s l s' ->
  active_tasks_ (object s') = active_tasks_ (object s) + counter_change l.
Proof.
  intros [Hcnt Hrng _ _] Hstep.
  unfold outstanding in Hcnt, Hrng. rewrite length_app in Hcnt, Hrng.
  destruct Hstep as
    [ s cb Hroom | s Hw Hne | s cb rest Hw | s cb rest Hw
    | s Hw Hc | s Hw Hc | s Hw ]; simpl; try lia.
  - unfold outstanding in Hroom. rewrite length_app in Hroom.
    rewrite size_t_incr_small; lia.
  - rewrite Hw in Hcnt, Hrng. cbn [batch List.length] in Hcnt, Hrng.
    rewrite size_t_decr_small; lia.
Qed.

Lemma step_reaches_completion s l s' :
  invariant s -> step s l s' ->
  completed (object s) = false -> completed (object s') = true ->
  exists cb, l = LEpilogue cb true.
Proof.
  intros Hinv Hstep Hbefore Hafter.
  pose proof (invariant_step _ _ _ Hinv Hstep) as Hinv'.
  destruct Hinv' as [Hcnt' _ _ _].
  apply completed_true in Hafter. destruct Hafter as [Hq Hz].
  destruct Hstep as
    [ s cb Hroom | s Hw Hne | s cb rest Hw | s cb rest Hw
    | s Hw Hc | s Hw Hc | s Hw ]; simpl in *;
    try (exfalso; assert (completed (object s) = true)
           by (apply completed_true; tauto); congruence).
  - exfalso. destruct (main_tasks_ (object s)); discriminate.
  - exfalso. unfold outstanding in Hcnt'. simpl in Hcnt'.
    rewrite Hcnt', length_app in Hz.
    destruct (main_tasks_ (object s)); [congruence|].
    cbn [List.length] in Hz. lia.
  - exists cb. f_equal. apply completed_true. simpl. tauto.
Qed.

(** *** The worker gets through what it holds *)

Lemma steps_trans s1 s2 s3 : steps s1 s2 -> steps s2 s3 -> steps s1 s3.
Proof.
  induction 1 as [|s l s' s'' Hstep _ IH]; [auto|].
  intros H. exact (steps_more _ _ _ _ Hstep (IH H)).
Qed.

Lemma finish_batch (l : list Callback) : forall s,
  invariant s ->
  worker s = InCallback l ->
  exists s',
    steps s s' /\ invariant s' /\ worker s' = AtWait /\
    main_tasks_ (object s') = main_tasks_ (object s) /\
    returned s' = returned s ++ l /\
    submitted s' = submitted s.
Proof.
  induction l as [|cb rest IH]; intros s Hinv Hw.
  - exfalso. pose proof (histories _ Hinv) as Hh.
    unfold histories_agree in Hh. rewrite Hw in Hh. destruct Hh as [Hne _].
    congruence.
  - pose proof (step_callback Callback s cb rest Hw) as H1.
    set (s1 := {| object := object s; worker := AfterCallback (cb :: rest);
                  waiter := waiter s; notifications := notifications s;
                  submitted := submitted s;
                  returned := returned s ++ [cb] |}) in H1.
    pose proof (invariant_step _ _ _ Hinv H1) as Hinv1.
    pose proof (step_epilogue Callback s1 cb rest eq_refl) as H2.
    match type of H2 with step _ _ ?x => set (s2 := x) in H2 end.
    pose proof (invariant_step _ _ _ Hinv1 H2) as Hinv2.
    destruct rest as [|cb' rest'].
    + exists s2. split; [exact (steps_more _ _ _ _ H1
                                  (steps_more _ _ _ _ H2 (steps_done _)))|].
      split; [exact Hinv2|]. split; [reflexivity|].
      split; [reflexivity|]. split; reflexivity.
    + destruct (IH s2 Hinv2 eq_refl) as (s' & Hs & Hi & Hw' & Hq & Hr & Hsub).
      exists s'. split.
      { exact (steps_more _ _ _ _ H1 (steps_more _ _ _ _ H2 Hs)). }
      split; [exact Hi|]. split; [exact Hw'|].
      split; [rewrite Hq; reflexivity|].
      split; [|exact Hsub].
      rewrite Hr. subst s2 s1. cbn [returned].
      rewrite <- app_assoc. reflexivity.
Qed.

Lemma parked_and_empty_is_completed s :
  invariant s -> worker s = AtWait -> main_tasks_ (object s) = [] ->
  completed (object s) = true.
Proof.
  intros Hinv Hw Hq. apply completed_true. split; [exact Hq|].
  rewrite (counter_is_outstanding _ Hinv). unfold outstanding.
  rewrite Hw, Hq. reflexivity.
Qed.

Lemma drain_parked s :
  invariant s -> worker s = AtWait ->
  exists s',
    steps s s' /\ invariant s' /\ completed (object s') = true /\
    returned s' = submitted s /\ submitted s' = submitted s.
Proof.
  intros Hinv Hw.
  pose proof (histories _ Hinv) as Hh. unfold histories_agree in Hh.
  rewrite Hw in Hh.
  destruct (main_tasks_ (object s)) as [|cb q] eqn:Hq.
  - exists s. split; [apply steps_done|]. split; [exact Hinv|].
    split; [exact (parked_and_empty_is_completed s Hinv Hw Hq)|].
    rewrite Hh, app_nil_r. auto.
  - assert (Hne : main_tasks_ (object s) <> []) by congruence.
    pose proof (step_take Callback s Hw Hne) as H1.
    match type of H1 with step _ _ ?x => set (s1 := x) in H1 end.
    pose proof (invariant_step _ _ _ Hinv H1) as Hinv1.
    destruct (finish_batch (main_tasks_ (object s)) s1 Hinv1 eq_refl)
      as (s' & Hs & Hi & Hw' & Hq' & Hr & Hsub).
    exists s'. split; [exact (steps_more _ _ _ _ H1 Hs)|].
    split; [exact Hi|].
    split; [exact (parked_and_empty_is_completed s' Hi Hw' Hq')|].
    split; [|exact Hsub].
    rewrite Hr. subst s1. cbn [returned]. rewrite Hh, Hq. reflexivity.
Qed.

(** Left alone, the worker brings the executor from any state it can be
    in to completion, having run everything that was submitted, and a
    caller of the wait is then free to return. *)
Lemma worker_drains s :
  reachable s ->
  exists s',
    steps s s' /\ completed (object s') = true /\
    returned s' = submitted s /\ waiter s' <> Asleep.
Proof.
  intros Hreach. pose proof (reachable_invariant s Hreach) as Hinv.
  assert (Hpark : exists s1, steps s s1 /\ invariant s1 /\
                             worker s1 = AtWait /\
                             submitted s1 = submitted s).
  { destruct (worker s) as [|l|l] eqn:Hw.
    - exists s. split; [apply steps_done|]. split; [exact Hinv|].
      split; [exact Hw | reflexivity].
    - destruct (finish_batch l s Hinv Hw) as (s1 & Hs & Hi & Hw1 & _ & _ & Hsub).
      exists s1. auto.
    - pose proof (histories _ Hinv) as Hh. unfold histories_agree in Hh.
      rewrite Hw in Hh. destruct Hh as (cb & rest & done & Hl & _ & _).
      subst l.
      pose proof (step_epilogue Callback s cb rest Hw) as H1.
      match type of H1 with step _ _ ?x => set (s1 := x) in H1 end.
      pose proof (invariant_step _ _ _ Hinv H1) as Hinv1.
      destruct rest as [|cb' rest'].
      + exists s1. split; [exact (steps_more _ _ _ _ H1 (steps_done _))|].
        split; [exact Hinv1|]. split; reflexivity.
      + destruct (finish_batch (cb' :: rest') s1 Hinv1 eq_refl)
          as (s2 & Hs & Hi & Hw2 & _ & _ & Hsub).
        exists s2. split; [exact (steps_more _ _ _ _ H1 Hs)|].
        split; [exact Hi|]. split; [exact Hw2 | exact Hsub]. }
  destruct Hpark as (s1 & Hs1 & Hi1 & Hw1 & Hsub1).
  destruct (drain_parked s1 Hi1 Hw1) as (s' & Hs & Hi & Hc & Hr & _).
  exists s'. split; [exact (steps_trans _ _ _ Hs1 Hs)|].
  split; [exact Hc|]. split; [congruence|].
  intros Habs. pose proof (sleeper_has_cause _ Hi Habs). congruence.
Qed.

End Invariants.


Lemma drained_executor_reachable : reachable drained_executor.
Proof.
pose (s1 := {| object := mk [7%nat] 1; worker := AtWait; waiter := Outside;
               notifications := 1; submitted := [7%nat];
               returned := [] |}).
pose (s2 := {| object := mk [] 1; worker := InCallback [7%nat];
               waiter := Outside; notifications := 1;
               submitted := [7%nat]; returned := [] |}).
pose (s3 := {| object := mk [] 1; worker := AfterCallback [7%nat];
               waiter := Outside; notifications := 1;
               submitted := [7%nat]; returned := [7%nat] |}).
assert (H1 : reachable s1).
{ apply (reachable_step boot (LSchedule 7%nat)); [apply reachable_boot|].
  apply (step_schedule nat boot 7%nat). reflexivity. }
assert (H2 : reachable s2).
{ apply (reachable_step s1 LTake); [exact H1|].
  apply (step_take nat s1); [reflexivity | discriminate]. }
assert (H3 : reachable s3).
{ apply (reachable_step s2 (LCallbackReturns 7%nat)); [exact H2|].
  apply (step_callback nat s2 7%nat []). reflexivity. }
apply (reachable_step s3 (LEpilogue 7%nat true)); [exact H3|].
apply (step_epilogue nat s3 7%nat []). reflexivity.
Qed.

Lemma drained_executor_returns : step drained_executor LWaitReturns drained_executor.
Proof.
apply (step_wait_returns nat drained_executor); [discriminate | reflexivity].
Qed.


End BackgroundTaskFacts.

(* ===================================================================== *)
(** * Facts about the core                                                *)
(* ===================================================================== *)

Lemma DeviceState_index_inj a b :
  DeviceState_index a = DeviceState_index b -> a = b.
Proof. destruct a, b; simpl; intros H; first [reflexivity | discriminate H]. Qed.

Lemma DeviceState_eqb_eq a b : DeviceState_eqb a b = true <-> a = b.
Proof.
  unfold DeviceState_eqb. rewrite Nat.eqb_eq. split.
  - apply DeviceState_index_inj.
  - intros ->. reflexivity.
Qed.

Lemma DeviceState_eqb_refl a : DeviceState_eqb a a = true.
Proof. apply DeviceState_eqb_eq. reflexivity. Qed.

Lemma DeviceState_eqb_neq a b : a <> b -> DeviceState_eqb a b = false.
Proof.
  intros Hne. destruct (DeviceState_eqb a b) eqn:E; [|reflexivity].
  apply DeviceState_eqb_eq in E. contradiction.
Qed.

Lemma snoc_neq {A} (l : list A) (x : A) : l ++ [x] <> l.
Proof.
  intros H. apply (f_equal (@List.length A)) in H.
  rewrite length_app in H. simpl in H. lia.
Qed.

(** C9. Asking for the state the core is already in changes nothing: the
    whole core, trace of calls included, is what it was, so nothing is
    logged, no barrier is taken and no side effect is applied. *)
Theorem SetDeviceState_same_state
    (board : Collaborators) (s : DeviceState) (env : Ambient)
    (a : Application) :
  device_state_ a = s -> SetDeviceState board s env a = a.
Proof.
  intros <-. unfold SetDeviceState.
  rewrite DeviceState_eqb_refl. reflexivity.
Qed.

Lemma SetDeviceState_same_state_witness :
  SetDeviceState Specimen.board kDeviceStateSpeaking Specimen.env
    Specimen.speaking = Specimen.speaking.
Proof.
  apply (SetDeviceState_same_state Specimen.board kDeviceStateSpeaking
           Specimen.env Specimen.speaking).
  reflexivity.
Defined.

(** C5. A frame from the transport joins the decode queue if and only if
    the device is speaking; in any other state the core is left exactly
    as it was. Nothing but the queue is ever touched. *)
Theorem OnIncomingAudio_iff_speaking (data : AudioFrame) (a : Application) :
  (audio_decode_queue_ (OnIncomingAudio data a)
     = audio_decode_queue_ a ++ [data]
   <-> device_state_ a = kDeviceStateSpeaking) /\
  (OnIncomingAudio data a = a
   <-> device_state_ a <> kDeviceStateSpeaking) /\
  apart_from_queue (OnIncomingAudio data a) = apart_from_queue a.
Proof.
  unfold OnIncomingAudio.
  destruct (device_state_ a) eqn:E; simpl;
    repeat split; try reflexivity; try congruence;
    try (intros H; exfalso; exact (snoc_neq _ _ H));
    try (intros H; exfalso; symmetry in H; exact (snoc_neq _ _ H)).
  intros H _. apply (f_equal audio_decode_queue_) in H. simpl in H.
  exact (snoc_neq _ _ H).
Qed.

(** C6. An output tick in Listening empties the decode queue and does
    nothing else: no frame is handed to the executor, no call is made,
    the time of the last output stays. *)
Theorem OutputAudio_in_listening (now : Z) (a : Application) :
  device_state_ a = kDeviceStateListening ->
  audio_decode_queue_ (OutputAudio now a) = [] /\
  background_task_ (OutputAudio now a) = background_task_ a /\
  frames_decoded (effects (OutputAudio now a)) = frames_decoded (effects a) /\
  apart_from_queue (OutputAudio now a) = apart_from_queue a.
Proof.
  intros Hs. unfold OutputAudio. rewrite Hs.
  destruct (audio_decode_queue_ a) eqn:Hq; simpl.
  - repeat split; assumption || reflexivity.
  - repeat split; reflexivity.
Qed.

Lemma OutputAudio_in_listening_witness :
  audio_decode_queue_ (OutputAudio 5 Specimen.listening) = [] /\
  background_task_ (OutputAudio 5 Specimen.listening)
    = background_task_ Specimen.listening /\
  frames_decoded (effects (OutputAudio 5 Specimen.listening))
    = frames_decoded (effects Specimen.listening) /\
  apart_from_queue (OutputAudio 5 Specimen.listening)
    = apart_from_queue Specimen.listening.
Proof.
  apply (OutputAudio_in_listening 5 Specimen.listening). reflexivity.
Defined.

(** ** The silence timeout of the output pipeline *)

Lemma duration_cast_seconds_spec (d : Z) :
  (max_silence_seconds <? duration_cast_seconds d) = true
  <-> 11 * one_second <= d.
Proof.
  unfold duration_cast_seconds, max_silence_seconds, one_second.
  rewrite Z.ltb_lt.
  destruct (Z_lt_le_dec d 0) as [Hneg | Hpos].
  - assert (Hq : Z.quot d 1000000000 <= 0).
    { rewrite <- (Z.opp_involutive d), Z.quot_opp_l by lia.
      pose proof (Z.quot_pos (- d) 1000000000). lia. }
    lia.
  - rewrite Z.quot_div_nonneg by lia.
    split; intros H.
    + destruct (Z_lt_le_dec d 11000000000) as [Hlt | Hge]; [|lia].
      apply (Z.div_lt_upper_bound d 1000000000 11) in Hlt; lia.
    + apply (Z.div_le_lower_bound d 1000000000 11) in H; lia.
Qed.

(** C4, as the code has it. On an output tick with an empty decode queue
    in Idle, the core compares the whole seconds elapsed since the last
    output with 10: from 11 s on, the tick calls [EnableOutput(false)]
    once and does nothing else; below 11 s (10.5 s included) the tick
    leaves the core and the codec as they are. *)
Theorem OutputAudio_idle_silence (now : Z) (a : Application) :
  audio_decode_queue_ a = [] ->
  device_state_ a = kDeviceStateIdle ->
  (11 * one_second <= now - last_output_time_ a ->
     OutputAudio now a = call (Codec_EnableOutput false) a /\
     effects (OutputAudio now a) = effects a ++ [Codec_EnableOutput false]) /\
  (now - last_output_time_ a < 11 * one_second ->
     OutputAudio now a = a).
Proof.
  intros Hq Hs. unfold OutputAudio. rewrite Hq, Hs.
  pose proof (duration_cast_seconds_spec (now - last_output_time_ a)) as Hd.
  destruct (max_silence_seconds <? _) eqn:E.
  - split; [intros _; split; reflexivity|].
    intros Hlt. exfalso. apply proj1 in Hd. specialize (Hd eq_refl). lia.
  - split; [|reflexivity].
    intros Hge. apply Hd in Hge. discriminate.
Qed.

Lemma OutputAudio_idle_silence_witness :
  (11 * one_second <= 11 * one_second - last_output_time_ Specimen.idle ->
     OutputAudio (11 * one_second) Specimen.idle
       = call (Codec_EnableOutput false) Specimen.idle /\
     effects (OutputAudio (11 * one_second) Specimen.idle)
       = effects Specimen.idle ++ [Codec_EnableOutput false]) /\
  (11 * one_second - last_output_time_ Specimen.idle < 11 * one_second ->
     OutputAudio (11 * one_second) Specimen.idle = Specimen.idle).
Proof.
  apply (OutputAudio_idle_silence (11 * one_second) Specimen.idle);
    reflexivity.
Defined.

(** C4, as the specification words it, fails: idle, queue empty, last
    output at 0 and the clock at 10.5 s, so more than 10 s have elapsed,
    yet the tick makes no call at all and the codec output stays on. *)
Lemma OutputAudio_idle_10500ms_keeps_output :
  audio_decode_queue_ Specimen.idle = [] /\
  device_state_ Specimen.idle = kDeviceStateIdle /\
  10 * one_second < 10500000000 - last_output_time_ Specimen.idle /\
  OutputAudio 10500000000 Specimen.idle = Specimen.idle /\
  ~ In (Codec_EnableOutput false)
       (effects (OutputAudio 10500000000 Specimen.idle)).
Proof.
  repeat split; try reflexivity.
  intros H. exact H.
Qed.

(** ** What an operation adds to the trace *)

Create HintDb trace discriminated.

Lemma adds_skip P : adds P skip.
Proof. intros a. split; [reflexivity|]. exists []. rewrite app_nil_r. auto. Qed.

Lemma adds_id P : adds P (fun a => a).
Proof. exact (adds_skip P). Qed.

Lemma adds_call P e : P e = true -> adds P (call e).
Proof.
  intros He a. split; [reflexivity|]. exists [e]. simpl. rewrite He. auto.
Qed.

Lemma adds_seq P f g : adds P f -> adds P g -> adds P (seq f g).
Proof.
  intros Hf Hg a. unfold seq.
  destruct (Hf a) as [Haf (n1 & E1 & P1)].
  destruct (Hg (f a)) as [Hag (n2 & E2 & P2)].
  split; [congruence|].
  exists (n1 ++ n2). rewrite E2, E1, app_assoc, forallb_app, P1, P2. auto.
Qed.

Lemma adds_weaken (P Q : Effect -> bool) f :
  (forall e, P e = true -> Q e = true) -> adds P f -> adds Q f.
Proof.
  intros HPQ Hf a. destruct (Hf a) as [Ha (n & E & Hn)].
  split; [exact Ha|]. exists n. split; [exact E|].
  rewrite forallb_forall in *. auto.
Qed.

Lemma adds_if P (c : Application -> bool) f g :
  adds P f -> adds P g -> adds P (fun a => if c a then f a else g a).
Proof. intros Hf Hg a. destruct (c a); [apply Hf | apply Hg]. Qed.

Lemma adds_set_device_state_ P v : adds P (set_device_state_ v).
Proof. intros a. split; [reflexivity|]. exists []. simpl. rewrite app_nil_r. auto. Qed.

Lemma adds_set_opus_decode_sample_rate_ P v :
  adds P (set_opus_decode_sample_rate_ v).
Proof. intros a. split; [reflexivity|]. exists []. simpl. rewrite app_nil_r. auto. Qed.

Lemma adds_set_audio_decode_queue_ P v : adds P (set_audio_decode_queue_ v).
Proof. intros a. split; [reflexivity|]. exists []. simpl. rewrite app_nil_r. auto. Qed.

Lemma adds_set_last_output_time_ P v : adds P (set_last_output_time_ v).
Proof. intros a. split; [reflexivity|]. exists []. simpl. rewrite app_nil_r. auto. Qed.

Lemma adds_set_last_iot_states_ P v : adds P (set_last_iot_states_ v).
Proof. intros a. split; [reflexivity|]. exists []. simpl. rewrite app_nil_r. auto. Qed.

Lemma adds_set_main_tasks_ P v : adds P (set_main_tasks_ v).
Proof. intros a. split; [reflexivity|]. exists []. simpl. rewrite app_nil_r. auto. Qed.

Lemma adds_set_background_task_ P v : adds P (set_background_task_ v).
Proof. intros a. split; [reflexivity|]. exists []. simpl. rewrite app_nil_r. auto. Qed.

#[local] Hint Resolve adds_skip adds_id adds_call adds_seq adds_if
  adds_set_device_state_ adds_set_opus_decode_sample_rate_
  adds_set_audio_decode_queue_ adds_set_last_output_time_
  adds_set_last_iot_states_ adds_set_main_tasks_
  adds_set_background_task_ : trace.

(** Closes [adds]-style goals about straight-line code once every test
    has been decided. *)
Ltac trace_by_computation :=
  split;
  [ first [reflexivity | cbn; congruence]
  | first
      [ exists []; split; [rewrite app_nil_r; reflexivity | reflexivity]
      | eexists; split;
        [ cbn; rewrite <- ?app_assoc; reflexivity | reflexivity ] ] ].

Ltac decide_tests :=
  repeat match goal with
         | |- context [if ?c then _ else _] => destruct c eqn:?
         | |- context [match ?c with Some _ => _ | None => _ end] =>
             destruct c eqn:?
         end.

Section CoreTraces.

Variable board : Collaborators.

Lemma adds_Schedule P c : adds P (Schedule c).
Proof. intros a. apply adds_set_main_tasks_. Qed.

Lemma adds_background_Schedule c :
  adds is_warning (background_Schedule c).
Proof.
  intros a. unfold background_Schedule. decide_tests; trace_by_computation.
Qed.

Lemma adds_run_DecodeClosure opus :
  adds is_closure_effect (run_DecodeClosure board opus).
Proof.
  intros a. unfold run_DecodeClosure. decide_tests; trace_by_computation.
Qed.

Lemma adds_schedule_packets P (packets : list AudioFrame) :
  adds P (fun a =>
            fold_left (fun acc opus => Schedule (SendAudioClosure opus) acc)
              packets a).
Proof.
  induction packets as [|opus rest IH]; simpl.
  - apply adds_id.
  - intros a. destruct (IH (Schedule (SendAudioClosure opus) a))
      as [Ha (n & E & Hn)].
    split; [exact Ha|]. exists n. split; [exact E | exact Hn].
Qed.

Lemma adds_run_EncodeClosure P data :
  P (OpusEncoder_Encode data) = true ->
  adds P (run_EncodeClosure board data).
Proof.
  intros HP. unfold run_EncodeClosure.
  apply (adds_seq P (call (OpusEncoder_Encode data))
           (fun a => fold_left _ (Encode board data) a)).
  - apply adds_call. exact HP.
  - apply adds_schedule_packets.
Qed.

Lemma adds_run_callback c : adds is_closure_effect (run_callback board c).
Proof.
  destruct c; [apply adds_run_DecodeClosure | apply adds_run_EncodeClosure].
  reflexivity.
Qed.

Lemma adds_run_wrapper c : adds is_closure_effect (run_wrapper board c).
Proof.
  intros a. unfold run_wrapper.
  destruct (adds_run_callback c a) as [Ha (n & E & Hn)].
  split; [exact Ha|]. exists n. split; [exact E | exact Hn].
Qed.

Lemma adds_run_batch tasks : adds is_closure_effect (run_batch board tasks).
Proof.
  induction tasks as [|c rest IH]; simpl.
  - apply adds_id.
  - apply (adds_seq _ (run_wrapper board c) (run_batch board rest));
      [apply adds_run_wrapper | exact IH].
Qed.

(** The barrier adds what the waiting closures do, then its own mark. *)
Lemma WaitForCompletion_trace a :
  aborted_ (WaitForCompletion board a) = aborted_ a /\
  exists drained,
    effects (WaitForCompletion board a)
      = effects a ++ drained ++ [BackgroundTask_WaitForCompletion] /\
    effects (run_batch board
               (BackgroundTask.main_tasks_ (background_task_ a))
               (set_background_task_
                  (snd (BackgroundTask.take_batch (background_task_ a))) a))
      = effects a ++ drained /\
    forallb is_closure_effect drained = true.
Proof.
  unfold WaitForCompletion. cbn [fst BackgroundTask.take_batch].
  set (a0 := set_background_task_ _ a).
  destruct (adds_run_batch (BackgroundTask.main_tasks_ (background_task_ a)) a0)
    as [Ha (n & E & Hn)].
  split; [exact Ha|]. exists n. cbn [effects call].
  rewrite E. cbn. rewrite <- app_assoc. auto.
Qed.

Lemma adds_ResetDecoder now : adds is_state_side_effect (ResetDecoder now).
Proof. unfold ResetDecoder. auto 10 with trace. Qed.

Lemma adds_UpdateIotStates states :
  adds is_state_side_effect (UpdateIotStates states).
Proof.
  intros a. unfold UpdateIotStates. decide_tests; trace_by_computation.
Qed.

Lemma adds_audio_processor e :
  is_state_side_effect e = true ->
  adds is_state_side_effect (audio_processor board e).
Proof.
  intros He. unfold audio_processor.
  destruct (CONFIG_IDF_TARGET_ESP32S3 board); auto with trace.
Qed.

Lemma adds_state_entry state env :
  adds is_state_side_effect (state_entry board state env).
Proof.
  pose proof adds_ResetDecoder. pose proof adds_UpdateIotStates.
  pose proof adds_audio_processor.
  destruct state; unfold state_entry; auto 12 with trace.
Qed.

Lemma adds_SetDecodeSampleRate rate :
  adds is_silent (SetDecodeSampleRate board rate).
Proof.
  intros a. unfold SetDecodeSampleRate, seq.
  decide_tests; trace_by_computation.
Qed.

Lemma adds_OnIncomingAudio P data : adds P (OnIncomingAudio data).
Proof.
  intros a. unfold OnIncomingAudio.
  destruct (device_state_ a);
    first [apply adds_id | apply adds_set_audio_decode_queue_].
Qed.

Lemma adds_OutputAudio now : adds is_silent (OutputAudio now).
Proof.
  intros a. unfold OutputAudio, seq, background_Schedule.
  destruct (audio_decode_queue_ a), (device_state_ a);
    decide_tests; trace_by_computation.
Qed.

End CoreTraces.

(** ** What the callbacks and the entry actions leave alone *)

Section CoreFrames.

Variable board : Collaborators.

Lemma schedule_packets_frame (packets : list AudioFrame) a :
  let a' := fold_left (fun acc opus => Schedule (SendAudioClosure opus) acc)
              packets a in
  device_state_ a' = device_state_ a /\
  background_task_ a' = background_task_ a /\
  audio_decode_queue_ a' = audio_decode_queue_ a.
Proof.
  revert a. induction packets as [|opus rest IH]; intros a; simpl.
  - auto.
  - destruct (IH (Schedule (SendAudioClosure opus) a)) as (H1 & H2 & H3).
    simpl in *. rewrite H1, H2, H3. auto.
Qed.

Lemma run_callback_frame c a :
  device_state_ (run_callback board c a) = device_state_ a /\
  background_task_ (run_callback board c a) = background_task_ a /\
  audio_decode_queue_ (run_callback board c a) = audio_decode_queue_ a.
Proof.
  destruct c as [opus | data]; simpl.
  - unfold run_DecodeClosure. decide_tests; auto.
  - unfold run_EncodeClosure.
    destruct (schedule_packets_frame (Encode board data)
                (call (OpusEncoder_Encode data) a)) as (H1 & H2 & H3).
    simpl in *. auto.
Qed.

Lemma run_batch_frame tasks a :
  device_state_ (run_batch board tasks a) = device_state_ a /\
  audio_decode_queue_ (run_batch board tasks a) = audio_decode_queue_ a.
Proof.
  revert a. induction tasks as [|c rest IH]; intros a; simpl; [auto|].
  destruct (IH (run_wrapper board c a)) as [H1 H2]. rewrite H1, H2.
  unfold run_wrapper. simpl.
  destruct (run_callback_frame c a) as (H3 & _ & H4). auto.
Qed.

(** Each wrapper of a batch counts one closure out. *)
Lemma run_batch_counts tasks : forall a n,
  BackgroundTask.active_tasks_ (background_task_ a)
    = Z.of_nat (List.length tasks) + n ->
  0 <= n ->
  Z.of_nat (List.length tasks) + n < BackgroundTask.size_t_modulus ->
  background_task_ (run_batch board tasks a)
    = BackgroundTask.mk
        (BackgroundTask.main_tasks_ (background_task_ a)) n.
Proof.
  induction tasks as [|c rest IH]; intros a n Hact Hn Hlt.
  - simpl in *. destruct (background_task_ a) as [q k]. simpl in *.
    f_equal. lia.
  - cbn [run_batch]. cbn [List.length] in Hact, Hlt.
    destruct (run_callback_frame c a) as (_ & Hbg & _).
    rewrite (IH (run_wrapper board c a) n); try lia.
    + unfold run_wrapper. simpl. rewrite Hbg. reflexivity.
    + unfold run_wrapper. simpl. rewrite Hbg.
      unfold BackgroundTask.size_t_decr. rewrite Z.mod_small; lia.
Qed.

Lemma WaitForCompletion_frame a :
  device_state_ (WaitForCompletion board a) = device_state_ a /\
  audio_decode_queue_ (WaitForCompletion board a) = audio_decode_queue_ a.
Proof.
  unfold WaitForCompletion. simpl.
  destruct (run_batch_frame (BackgroundTask.main_tasks_ (background_task_ a))
              (set_background_task_
                 (snd (BackgroundTask.take_batch (background_task_ a))) a))
    as [H1 H2].
  simpl in *. auto.
Qed.

Lemma WaitForCompletion_completes a :
  counter_matches_queue (background_task_ a) ->
  background_task_ (WaitForCompletion board a) = BackgroundTask.create.
Proof.
  intros [Hact Hlt]. unfold WaitForCompletion. simpl.
  rewrite (run_batch_counts _ _ 0); simpl; try lia. reflexivity.
Qed.

Lemma state_entry_frame state env a :
  device_state_ (state_entry board state env a) = device_state_ a /\
  background_task_ (state_entry board state env a) = background_task_ a.
Proof.
  destruct state;
    unfold state_entry, seq, skip, ResetDecoder, audio_processor,
      UpdateIotStates;
    decide_tests; simpl; auto.
Qed.

(** The shape of a state change that does take place. *)
Lemma SetDeviceState_shape state env a :
  device_state_ a <> state ->
  exists drained barrier side,
    effects barrier
      = effects a
        ++ ESP_LOGI TAG "STATE: %s" [ArgString (STATE_STRINGS_at state)]
           :: drained ++ [BackgroundTask_WaitForCompletion] /\
    forallb is_closure_effect drained = true /\
    device_state_ barrier = state /\
    aborted_ barrier = aborted_ a /\
    (counter_matches_queue (background_task_ a) ->
     background_task_ barrier = BackgroundTask.create) /\
    SetDeviceState board state env a
      = state_entry board state env (call Led_OnStateChanged barrier) /\
    effects (SetDeviceState board state env a)
      = effects barrier ++ Led_OnStateChanged :: side /\
    forallb is_state_side_effect side = true.
Proof.
  intros Hne. unfold SetDeviceState. rewrite (DeviceState_eqb_neq _ _ Hne).
  unfold seq, log_state. cbn [device_state_ set_device_state_].
  set (a1 := call _ (set_device_state_ state a)).
  destruct (WaitForCompletion_trace board a1) as [Hab (drained & E & _ & Hd)].
  destruct (adds_state_entry board state env
              (call Led_OnStateChanged (WaitForCompletion board a1)))
    as [_ (side & Es & Hs)].
  exists drained, (WaitForCompletion board a1), side.
  repeat split.
  - rewrite E. subst a1. cbn. rewrite <- app_assoc. reflexivity.
  - exact Hd.
  - destruct (WaitForCompletion_frame a1) as [H1 _]. rewrite H1. reflexivity.
  - rewrite Hab. reflexivity.
  - intros Hc. apply WaitForCompletion_completes. exact Hc.
  - rewrite Es. cbn. rewrite <- app_assoc. reflexivity.
  - exact Hs.
Qed.

End CoreFrames.

(** The parsing loop touches nothing but the decode queue. *)
Lemma PlayLocalFile_loop_frame layout fuel : forall rest a a',
  PlayLocalFile_loop layout fuel rest a = Finished a' ->
  apart_from_queue a' = apart_from_queue a.
Proof.
  induction fuel as [|fuel IH]; intros rest a a' H.
  - destruct rest; simpl in H; [|discriminate]. congruence.
  - destruct rest as [|b rest]; [simpl in H; congruence|].
    cbn [PlayLocalFile_loop] in H.
    destruct (load_uint16 _ _); [|discriminate].
    destruct (_ <? _)%nat; [discriminate|].
    destruct (_ <? _)%nat; [discriminate|].
    apply IH in H. rewrite H. reflexivity.
Qed.

(** ** The counter of the executor along a run *)

Section CoreCounter.

Variable board : Collaborators.
Variable layout : BinaryProtocol3.

Abbreviation queued a :=
  (List.length (BackgroundTask.main_tasks_ (background_task_ a))).

Lemma background_Schedule_counter c a :
  counter_matches_queue (background_task_ a) ->
  Z.of_nat (queued a) + 1 < BackgroundTask.size_t_modulus ->
  counter_matches_queue (background_task_ (background_Schedule c a)) /\
  queued (background_Schedule c a) = S (queued a).
Proof.
  intros [Hact Hlt] Hroom. unfold background_Schedule.
  assert (Hbg : forall x, background_task_
                  (set_background_task_ (BackgroundTask.Schedule c
                                           (background_task_ a)) x)
                = BackgroundTask.Schedule c (background_task_ a))
    by reflexivity.
  rewrite Hbg. unfold counter_matches_queue, BackgroundTask.Schedule.
  cbn [BackgroundTask.main_tasks_ BackgroundTask.active_tasks_].
  rewrite length_app. cbn [List.length].
  unfold BackgroundTask.size_t_incr. rewrite Hact, Z.mod_small by lia.
  repeat split; lia.
Qed.

Lemma SetDeviceState_counter state env a :
  counter_matches_queue (background_task_ a) ->
  counter_matches_queue (background_task_ (SetDeviceState board state env a))
  /\ (queued (SetDeviceState board state env a) <= queued a)%nat.
Proof.
  intros Hc. destruct (DeviceState_eqb (device_state_ a) state) eqn:E.
  - unfold SetDeviceState. rewrite E. auto.
  - assert (Hne : device_state_ a <> state).
    { intros H. apply DeviceState_eqb_eq in H. congruence. }
    destruct (SetDeviceState_shape board state env a Hne)
      as (_ & barrier & _ & _ & _ & _ & _ & Hb & Hshape & _).
    rewrite Hshape.
    destruct (state_entry_frame board state env
                (call Led_OnStateChanged barrier)) as [_ H2].
    rewrite H2. cbn [background_task_ call]. rewrite (Hb Hc).
    split; [|cbn; lia].
    split; [reflexivity | unfold BackgroundTask.size_t_modulus; simpl; lia].
Qed.

Lemma create_counter :
  counter_matches_queue (@BackgroundTask.create BackgroundClosure).
Proof.
  split; [reflexivity | unfold BackgroundTask.size_t_modulus; simpl; lia].
Qed.

Lemma run_closure_counter c env a :
  counter_matches_queue (background_task_ a) ->
  counter_matches_queue (background_task_ (run_closure board c env a)) /\
  (queued (run_closure board c env a) <= queued a)%nat.
Proof.
  intros Hc. destruct c; cbn [run_closure].
  - auto.
  - unfold run_TtsStart. cbn [device_state_ set_aborted_].
    destruct (device_state_ a); auto;
      apply (SetDeviceState_counter _ _ (set_aborted_ false a)); exact Hc.
  - unfold run_TtsStop. destruct (device_state_ a); auto.
    pose proof (WaitForCompletion_completes board a Hc) as Hw.
    destruct (keep_listening_ (WaitForCompletion board a)).
    + destruct (SetDeviceState_counter kDeviceStateListening env
                  (call (Protocol_SendStartListening kListeningModeAutoStop)
                     (WaitForCompletion board a))) as [H1 H2].
      { cbn [background_task_ call]. rewrite Hw. exact create_counter. }
      split; [exact H1|]. cbn [background_task_ call] in H2.
      rewrite Hw in H2. cbn in H2. lia.
    + destruct (SetDeviceState_counter kDeviceStateIdle env
                  (WaitForCompletion board a)) as [H1 H2].
      { rewrite Hw. exact create_counter. }
      split; [exact H1|]. rewrite Hw in H2. cbn in H2. lia.
  - unfold run_StopListening. destruct (device_state_ a); auto.
    apply (SetDeviceState_counter _ _ (call Protocol_SendStopListening a)).
    exact Hc.
  - unfold run_AudioChannelClosed, seq.
    apply (SetDeviceState_counter _ _ (call (Display_SetChatMessage EmptyString EmptyString) a)).
    exact Hc.
Qed.

Lemma OutputAudio_counter now a :
  counter_matches_queue (background_task_ a) ->
  Z.of_nat (queued a) + 1 < BackgroundTask.size_t_modulus ->
  counter_matches_queue (background_task_ (OutputAudio now a)) /\
  (queued (OutputAudio now a) <= S (queued a))%nat.
Proof.
  intros Hc Hroom. unfold OutputAudio, seq.
  destruct (audio_decode_queue_ a) as [|opus rest].
  - destruct (device_state_ a); decide_tests; auto.
  - destruct (device_state_ a); auto;
      destruct (background_Schedule_counter (DecodeClosure opus)
                  (set_audio_decode_queue_ rest (set_last_output_time_ now a))
                  Hc Hroom) as [H1 H2];
      (split; [exact H1 | rewrite H2; cbn; lia]).
Qed.

Lemma worker_runs_next_counter a a' :
  counter_matches_queue (background_task_ a) ->
  worker_runs_next board a = Some a' ->
  counter_matches_queue (background_task_ a') /\ (queued a' <= queued a)%nat.
Proof.
  intros [Hact Hlt] H. unfold worker_runs_next in H.
  destruct (BackgroundTask.main_tasks_ (background_task_ a))
    as [|c rest] eqn:Eq; [discriminate|].
  injection H as <-. unfold run_wrapper.
  cbn [background_task_ set_background_task_].
  destruct (run_callback_frame board c
              (set_background_task_
                 (BackgroundTask.mk rest
                    (BackgroundTask.active_tasks_ (background_task_ a))) a))
    as (_ & Hbg & _).
  rewrite Hbg. cbn [background_task_ set_background_task_
                    BackgroundTask.wrapper_epilogue fst
                    BackgroundTask.main_tasks_ BackgroundTask.active_tasks_].
  cbn [List.length] in Hact, Hlt.
  unfold counter_matches_queue.
  cbn [BackgroundTask.main_tasks_ BackgroundTask.active_tasks_ List.length].
  unfold BackgroundTask.size_t_decr. rewrite Hact, Z.mod_small by lia.
  repeat split; lia.
Qed.

Lemma SetDecodeSampleRate_background rate a :
  background_task_ (SetDecodeSampleRate board rate a) = background_task_ a.
Proof.
  unfold SetDecodeSampleRate, seq. decide_tests; reflexivity.
Qed.

Lemma PlayLocalFile_background data a a' :
  PlayLocalFile board layout data a = Finished a' ->
  background_task_ a' = background_task_ a.
Proof.
  intros H. unfold PlayLocalFile in H.
  apply (PlayLocalFile_loop_frame layout) in H.
  change (background_task_ a') with (background_task_ (apart_from_queue a')).
  rewrite H. cbn [apart_from_queue background_task_ set_audio_decode_queue_].
  rewrite SetDecodeSampleRate_background. reflexivity.
Qed.

Lemma perform_counter e a a' :
  counter_matches_queue (background_task_ a) ->
  Z.of_nat (queued a) + 1 < BackgroundTask.size_t_modulus ->
  perform board layout e a = Some a' ->
  counter_matches_queue (background_task_ a') /\
  (queued a' <= S (queued a))%nat.
Proof.
  intros Hc Hroom H. destruct e; cbn [perform] in H.
  - injection H as <-.
    destruct (run_closure_counter c env a Hc). split; [assumption | lia].
  - injection H as <-. apply OutputAudio_counter; assumption.
  - injection H as <-.
    destruct (SetDeviceState_counter state env a Hc). split; [assumption | lia].
  - injection H as <-. cbn. split; [exact Hc | lia].
  - destruct (PlayLocalFile board layout data a) eqn:E; try discriminate.
    injection H as <-. rewrite (PlayLocalFile_background data a _ E).
    split; [exact Hc | lia].
  - injection H as <-.
    assert (Hbg : background_task_ (OnIncomingAudio data a) = background_task_ a).
    { unfold OnIncomingAudio. destruct (device_state_ a); reflexivity. }
    rewrite Hbg. split; [exact Hc | lia].
  - injection H as <-. unfold submit_encode.
    destruct (background_Schedule_counter (EncodeClosure data) a Hc Hroom)
      as [H1 H2].
    split; [exact H1 | rewrite H2; lia].
  - destruct (worker_runs_next_counter a a' Hc H). split; [assumption | lia].
Qed.

(** Along any run that starts with the counter in agreement with the
    queue, and is short enough for the counter not to wrap, they stay in
    agreement: the premise of the barrier statement holds wherever the
    core gets. *)
Lemma run_counter events : forall a a',
  counter_matches_queue (background_task_ a) ->
  Z.of_nat (queued a + List.length events) < BackgroundTask.size_t_modulus ->
  run board layout events a = Some a' ->
  counter_matches_queue (background_task_ a').
Proof.
  induction events as [|e rest IH]; intros a a' Hc Hroom H.
  - injection H as <-. exact Hc.
  - cbn [run] in H. cbn [List.length] in Hroom.
    destruct (perform board layout e a) as [a1|] eqn:E; [|discriminate].
    destruct (perform_counter e a a1 Hc ltac:(lia) E) as [Hc1 Hq1].
    apply (IH a1 a' Hc1); [lia | exact H].
Qed.

End CoreCounter.

(** ** The state machine, its barrier and its transitions *)

Lemma SetDeviceState_same_state_aux board state env a :
  device_state_ a = state -> SetDeviceState board state env a = a.
Proof.
  intros <-. unfold SetDeviceState.
  rewrite DeviceState_eqb_refl. reflexivity.
Qed.

Lemma no_warning_among (P : Effect -> bool) (l : list Effect) :
  (forall e, P e = true -> is_warning e = false) ->
  forallb P l = true -> filter is_warning l = [].
Proof.
  intros HP. induction l as [|e l IH]; simpl; [reflexivity|].
  intros H. apply andb_prop in H. destruct H as [He Hl].
  rewrite (HP e He). exact (IH Hl).
Qed.



(** The trace of that specimen, in full. *)
Example SetDeviceState_listening_trace :
  effects (SetDeviceState Specimen.board kDeviceStateListening Specimen.env
             Specimen.speaking)
  = [ ESP_LOGI TAG "STATE: %s" [ArgString "listening"];
      OpusDecoder_Decode Specimen.frame0;
      Codec_OutputData [7; 8; 9];
      BackgroundTask_WaitForCompletion;
      Led_OnStateChanged;
      Display_SetStatus "聆听中...";
      Display_SetEmotion "neutral";
      OpusDecoder_ResetState;
      Codec_EnableOutput true;
      OpusEncoder_ResetState;
      Protocol_SendIotStates "{}" ].
Proof. reflexivity. Qed.

(** C3, as the code has it. [SetDeviceState] checks no transition: after
    the call the state is the one asked for, whatever the state before,
    and the call logs no warning. *)
Theorem SetDeviceState_takes_every_transition
    (board : Collaborators) (state : DeviceState) (env : Ambient)
    (a : Application) :
  device_state_ (SetDeviceState board state env a) = state /\
  filter is_warning (effects (SetDeviceState board state env a))
    = filter is_warning (effects a).
Proof.
  destruct (DeviceState_eqb (device_state_ a) state) eqn:E.
  - apply DeviceState_eqb_eq in E.
    rewrite (SetDeviceState_same_state_aux board state env a E). auto.
  - assert (Hne : device_state_ a <> state).
    { intros H. apply DeviceState_eqb_eq in H. congruence. }
    destruct (SetDeviceState_shape board state env a Hne)
      as (drained & barrier & side & Eb & Hd & Hs & _ & _ & Hshape & Es & Hside).
    split.
    + rewrite Hshape.
      destruct (state_entry_frame board state env
                  (call Led_OnStateChanged barrier)) as [H1 _].
      rewrite H1. exact Hs.
    + rewrite Es, Eb. rewrite !filter_app. cbn [filter is_warning].
      rewrite !filter_app. cbn [filter is_warning].
      rewrite (no_warning_among is_closure_effect drained),
              (no_warning_among is_state_side_effect side);
        try assumption; try (intros []; simpl; congruence).
      rewrite !app_nil_r. reflexivity.
Qed.

(** C3, as the specification words it, fails: Idle to Speaking is not on
    the list of legal transitions, yet the request is carried out (it is
    the one [tts] / [start] makes when it arrives in Idle), the state
    changes and no warning is logged. *)
Lemma SetDeviceState_idle_to_speaking_not_ignored :
  spec_legal_transition kDeviceStateIdle kDeviceStateSpeaking = false /\
  device_state_ Specimen.idle = kDeviceStateIdle /\
  device_state_
    (SetDeviceState Specimen.board kDeviceStateSpeaking Specimen.env
       Specimen.idle) = kDeviceStateSpeaking /\
  filter is_warning
    (effects (SetDeviceState Specimen.board kDeviceStateSpeaking
                Specimen.env Specimen.idle)) = [] /\
  device_state_ (run_TtsStart Specimen.board Specimen.env Specimen.idle)
    = kDeviceStateSpeaking.
Proof. repeat split. Qed.

(** ** Playback after an abort *)

Lemma adds_hushed P f :
  (forall e, P e = true -> is_silent e = true) -> adds P f -> hushed f.
Proof.
  intros HP Hf a Ha.
  destruct (adds_weaken P is_silent f HP Hf a) as [Hab Hnew].
  split; [congruence | exact Hnew].
Qed.

Lemma hushed_seq f g : hushed f -> hushed g -> hushed (seq f g).
Proof.
  intros Hf Hg a Ha. unfold seq.
  destruct (Hf a Ha) as [Haf (n1 & E1 & P1)].
  destruct (Hg (f a) Haf) as [Hag (n2 & E2 & P2)].
  split; [exact Hag|].
  exists (n1 ++ n2). rewrite E2, E1, app_assoc, forallb_app, P1, P2. auto.
Qed.

Lemma state_side_effect_silent e :
  is_state_side_effect e = true -> is_silent e = true.
Proof. destruct e; simpl; congruence. Qed.

Lemma warning_silent e : is_warning e = true -> is_silent e = true.
Proof. destruct e; simpl; congruence. Qed.

Lemma pcm_pushed_app l l' :
  pcm_pushed (l ++ l') = pcm_pushed l ++ pcm_pushed l'.
Proof.
  induction l as [|e l IH]; simpl; [reflexivity|].
  destruct e; simpl; rewrite IH; reflexivity.
Qed.

Lemma frames_decoded_app l l' :
  frames_decoded (l ++ l') = frames_decoded l ++ frames_decoded l'.
Proof.
  induction l as [|e l IH]; simpl; [reflexivity|].
  destruct e; simpl; rewrite IH; reflexivity.
Qed.

Lemma silent_trace l :
  forallb is_silent l = true -> pcm_pushed l = [] /\ frames_decoded l = [].
Proof.
  induction l as [|e l IH]; simpl; [auto|].
  intros H. apply andb_prop in H. destruct H as [He Hl].
  destruct (IH Hl) as [H1 H2]. destruct e; simpl in *; auto; discriminate.
Qed.

Section Hush.

Variable board : Collaborators.
Variable layout : BinaryProtocol3.

(** The heart of the matter: a decode closure that finds [aborted_] set
    returns at once. *)
Lemma run_DecodeClosure_aborted opus a :
  aborted_ a = true -> run_DecodeClosure board opus a = a.
Proof. intros Ha. unfold run_DecodeClosure. rewrite Ha. reflexivity. Qed.

Lemma hushed_run_wrapper c : hushed (run_wrapper board c).
Proof.
  intros a Ha. unfold run_wrapper. cbn [aborted_ effects set_background_task_].
  destruct c as [opus | data]; cbn [run_callback].
  - rewrite (run_DecodeClosure_aborted opus a Ha).
    split; [exact Ha|]. exists []. rewrite app_nil_r. auto.
  - destruct (adds_run_EncodeClosure board is_silent data eq_refl a)
      as [Hab Hnew].
    split; [congruence | exact Hnew].
Qed.

Lemma hushed_run_batch tasks : hushed (run_batch board tasks).
Proof.
  induction tasks as [|c rest IH]; simpl.
  - intros a Ha. split; [exact Ha|]. exists []. rewrite app_nil_r. auto.
  - apply (hushed_seq (run_wrapper board c) (run_batch board rest));
      [apply hushed_run_wrapper | exact IH].
Qed.

Lemma hushed_WaitForCompletion : hushed (WaitForCompletion board).
Proof.
  unfold WaitForCompletion.
  apply (hushed_seq
           (fun a => run_batch board
                       (fst (BackgroundTask.take_batch (background_task_ a)))
                       (set_background_task_
                          (snd (BackgroundTask.take_batch (background_task_ a)))
                          a))
           (call BackgroundTask_WaitForCompletion)).
  - intros a Ha. apply (hushed_run_batch _ (set_background_task_ _ a)).
    exact Ha.
  - apply (adds_hushed is_silent); [auto|]. apply adds_call. reflexivity.
Qed.

Lemma hushed_call e : is_silent e = true -> hushed (call e).
Proof.
  intros He. apply (adds_hushed is_silent); [auto|]. apply adds_call. exact He.
Qed.

Lemma hushed_state_entry state env : hushed (state_entry board state env).
Proof.
  apply (adds_hushed is_state_side_effect).
  - exact state_side_effect_silent.
  - apply adds_state_entry.
Qed.

Lemma hushed_SetDeviceState state env :
  hushed (SetDeviceState board state env).
Proof.
  intros a Ha. unfold SetDeviceState.
  destruct (DeviceState_eqb (device_state_ a) state).
  - split; [exact Ha|]. exists []. rewrite app_nil_r. auto.
  - revert a Ha.
    apply (hushed_seq _ (state_entry board state env));
      [|apply hushed_state_entry].
    apply (hushed_seq _ (call Led_OnStateChanged));
      [|apply hushed_call; reflexivity].
    apply (hushed_seq _ (WaitForCompletion board));
      [|apply hushed_WaitForCompletion].
    apply (hushed_seq (set_device_state_ state) log_state).
    + apply (adds_hushed is_silent); [auto|]. apply adds_set_device_state_.
    + intros a Ha. apply hushed_call; [reflexivity | exact Ha].
Qed.

Lemma hushed_AbortSpeaking reason : hushed (AbortSpeaking reason).
Proof.
  intros a _. unfold AbortSpeaking, seq. split; [reflexivity|].
  eexists. split; [cbn; rewrite <- app_assoc; reflexivity | reflexivity].
Qed.

Lemma hushed_run_closure c env :
  c <> TtsStartClosure -> hushed (run_closure board c env).
Proof.
  intros Hc. destruct c; [| congruence | | |]; cbn [run_closure].
  - apply hushed_call. reflexivity.
  - intros a Ha. unfold run_TtsStop.
    destruct (device_state_ a);
      try (split; [exact Ha|]; exists []; rewrite app_nil_r; auto; fail).
    destruct (hushed_WaitForCompletion a Ha) as [Ha1 (n1 & E1 & P1)].
    destruct (keep_listening_ (WaitForCompletion board a)).
    + destruct (hushed_seq
                  (call (Protocol_SendStartListening kListeningModeAutoStop))
                  (SetDeviceState board kDeviceStateListening env)
                  (hushed_call
                     (Protocol_SendStartListening kListeningModeAutoStop)
                     eq_refl)
                  (hushed_SetDeviceState _ _)
                  (WaitForCompletion board a) Ha1) as [Ha2 (n2 & E2 & P2)].
      unfold seq in *. split; [exact Ha2|].
      exists (n1 ++ n2). rewrite E2, E1, app_assoc, forallb_app, P1, P2. auto.
    + destruct (hushed_SetDeviceState kDeviceStateIdle env
                  (WaitForCompletion board a) Ha1) as [Ha2 (n2 & E2 & P2)].
      split; [exact Ha2|].
      exists (n1 ++ n2). rewrite E2, E1, app_assoc, forallb_app, P1, P2. auto.
  - intros a Ha. unfold run_StopListening.
    destruct (device_state_ a);
      try (split; [exact Ha|]; exists []; rewrite app_nil_r; auto; fail).
    exact (hushed_seq (call Protocol_SendStopListening)
             (SetDeviceState board kDeviceStateIdle env)
             (hushed_call Protocol_SendStopListening eq_refl)
             (hushed_SetDeviceState _ _) a Ha).
  - unfold run_AudioChannelClosed.
    apply (hushed_seq (call _) (SetDeviceState board kDeviceStateIdle env));
      [apply hushed_call; reflexivity|].
    apply hushed_SetDeviceState.
Qed.

Lemma hushed_PlayLocalFile data a a' :
  aborted_ a = true ->
  PlayLocalFile board layout data a = Finished a' ->
  aborted_ a' = true /\
  exists new, effects a' = effects a ++ new /\ forallb is_silent new = true.
Proof.
  intros Ha H. unfold PlayLocalFile in H.
  apply (PlayLocalFile_loop_frame layout) in H.
  assert (Hab : aborted_ a' = aborted_ (apart_from_queue a')) by reflexivity.
  assert (Hef : effects a' = effects (apart_from_queue a')) by reflexivity.
  rewrite Hab, Hef, H. cbn [apart_from_queue aborted_ effects
                            set_audio_decode_queue_].
  apply (hushed_seq (call _) (SetDecodeSampleRate board 16000)).
  - apply hushed_call. reflexivity.
  - apply (adds_hushed is_silent); [auto|]. apply adds_SetDecodeSampleRate.
  - exact Ha.
Qed.

Lemma hushed_worker_runs_next a a' :
  aborted_ a = true ->
  worker_runs_next board a = Some a' ->
  aborted_ a' = true /\
  exists new, effects a' = effects a ++ new /\ forallb is_silent new = true.
Proof.
  intros Ha H. unfold worker_runs_next in H.
  destruct (BackgroundTask.main_tasks_ (background_task_ a)) as [|c rest];
    [discriminate|].
  injection H as <-.
  apply (hushed_run_wrapper c (set_background_task_ _ a)). exact Ha.
Qed.

Lemma hushed_perform e a a' :
  is_tts_start e = false ->
  aborted_ a = true ->
  perform board layout e a = Some a' ->
  aborted_ a' = true /\
  exists new, effects a' = effects a ++ new /\ forallb is_silent new = true.
Proof.
  intros He Ha H. destruct e; cbn [perform] in H.
  - injection H as <-. apply hushed_run_closure; [|exact Ha].
    intros ->. discriminate He.
  - injection H as <-.
    apply (adds_hushed is_silent (OutputAudio now)); auto.
    apply adds_OutputAudio.
  - injection H as <-. apply hushed_SetDeviceState. exact Ha.
  - injection H as <-. apply hushed_AbortSpeaking. exact Ha.
  - destruct (PlayLocalFile board layout data a) eqn:E; try discriminate.
    injection H as <-. exact (hushed_PlayLocalFile data a _ Ha E).
  - injection H as <-.
    apply (adds_hushed is_silent (OnIncomingAudio data)); auto.
    apply adds_OnIncomingAudio.
  - injection H as <-. unfold submit_encode.
    apply (adds_hushed is_warning (background_Schedule (EncodeClosure data)));
      [exact warning_silent | apply adds_background_Schedule | exact Ha].
  - exact (hushed_worker_runs_next a a' Ha H).
Qed.

Lemma hushed_run events : forall a a',
  forallb (fun e => negb (is_tts_start e)) events = true ->
  aborted_ a = true ->
  run board layout events a = Some a' ->
  aborted_ a' = true /\
  exists new, effects a' = effects a ++ new /\ forallb is_silent new = true.
Proof.
  induction events as [|e rest IH]; intros a a' Hev Ha H.
  - injection H as <-. split; [exact Ha|]. exists []. rewrite app_nil_r. auto.
  - cbn [run] in H. cbn [forallb] in Hev.
    apply andb_prop in Hev. destruct Hev as [He Hrest].
    apply negb_true_iff in He.
    destruct (perform board layout e a) as [a1|] eqn:E; [|discriminate].
    destruct (hushed_perform e a a1 He Ha E) as [Ha1 (n1 & E1 & P1)].
    destruct (IH a1 a' Hrest Ha1 H) as [Ha2 (n2 & E2 & P2)].
    split; [exact Ha2|].
    exists (n1 ++ n2). rewrite E2, E1, app_assoc, forallb_app, P1, P2. auto.
Qed.

End Hush.



(** The same run without the abort plays both frames, and after an abort
    a [tts] / [start] lets the next closure play again. *)
Example playback_without_abort :
  option_map (fun a' => pcm_pushed (effects a'))
    (run Specimen.board Specimen.layout after_abort Specimen.speaking)
  = Some [[7; 8; 9]; [1; 2; 3]].
Proof. reflexivity. Qed.

Example playback_resumes_after_tts_start :
  option_map (fun a' => pcm_pushed (effects a'))
    (run Specimen.board Specimen.layout
       [ MainLoop_closure TtsStartClosure Specimen.env;
         Transport_OnIncomingAudio Specimen.frame1;
         MainLoop_OutputAudio 3;
         Worker_next ]
       (AbortSpeaking kAbortReasonNone
          (set_device_state_ kDeviceStateIdle Specimen.idle)))
  = Some [[1; 2; 3]].
Proof. reflexivity. Qed.

(** ** The prompt format *)

Lemma byte_value_range b : 0 <= byte_value b < 256.
Proof.
  unfold byte_value. pose proof (Byte.to_N_bounded b). lia.
Qed.

Lemma low_bits_disjoint lo hi :
  0 <= lo < 256 -> Z.land lo (Z.shiftl hi 8) = 0.
Proof.
  intros Hlo. apply Z.bits_inj'. intros n Hn.
  rewrite Z.land_spec, Z.bits_0.
  destruct (Z_lt_le_dec n 8) as [Hlt | Hge].
  - rewrite (Z.shiftl_spec_low hi 8 n Hlt). apply andb_false_r.
  - assert (Hb : Z.testbit lo n = false).
    { apply Z.testbit_false; [exact Hn|].
      rewrite Z.div_small; [reflexivity|].
      split; [lia|]. apply Z.lt_le_trans with (2 ^ 8); [simpl; lia|].
      apply Z.pow_le_mono_r; lia. }
    rewrite Hb. reflexivity.
Qed.

Lemma lor_shiftl_8 lo hi :
  0 <= lo < 256 -> Z.lor lo (Z.shiftl hi 8) = lo + 256 * hi.
Proof.
  intros Hlo. pose proof (low_bits_disjoint lo hi Hlo) as Hd.
  rewrite <- (Z.lxor_lor _ _ Hd), <- (Z.add_nocarry_lxor _ _ Hd).
  rewrite Z.shiftl_mul_pow2 by lia. change (2 ^ 8) with 256. lia.
Qed.

(** On the little-endian target, [ntohs] of the loaded field is the
    big-endian reading of the two bytes. *)
Lemma ntohs_load_big_endian (b0 b1 : byte) :
  ntohs (Z.lor (byte_value b0) (Z.shiftl (byte_value b1) 8))
  = 256 * byte_value b0 + byte_value b1.
Proof.
  pose proof (byte_value_range b0) as H0.
  pose proof (byte_value_range b1) as H1.
  unfold ntohs. rewrite (lor_shiftl_8 _ _ H0).
  set (x := byte_value b0 + 256 * byte_value b1).
  assert (Hlow : Z.land x 255 = byte_value b0).
  { change 255 with (Z.ones 8). rewrite Z.land_ones by lia.
    change (2 ^ 8) with 256. subst x.
    rewrite Z.mul_comm, Z.mod_add by lia. apply Z.mod_small. lia. }
  assert (Hhigh : Z.shiftr (Z.land x 65280) 8 = byte_value b1).
  { rewrite Z.shiftr_land. change (Z.shiftr 65280 8) with (Z.ones 8).
    rewrite Z.land_ones by lia. rewrite Z.shiftr_div_pow2 by lia.
    change (2 ^ 8) with 256. subst x.
    rewrite Z.mul_comm, Z.div_add by lia.
    rewrite (Z.div_small (byte_value b0)) by lia.
    apply Z.mod_small. lia. }
  rewrite Hlow, Hhigh.
  rewrite Z.lor_comm, (lor_shiftl_8 _ _ H1). lia.
Qed.

Section PromptFacts.

Variable board : Collaborators.
Variable layout : BinaryProtocol3.

Lemma well_formed_header_size f :
  well_formed layout f ->
  (offsetof_payload_size layout + 2 <= sizeof layout)%nat.
Proof.
  intros [Hlen Hdecl]. unfold declared_payload_size in Hdecl.
  destruct (nth_error (header f) (offsetof_payload_size layout)) eqn:E0;
    [|discriminate].
  destruct (nth_error (header f) (S (offsetof_payload_size layout))) eqn:E1;
    [|discriminate].
  assert (H : nth_error (header f) (S (offsetof_payload_size layout)) <> None)
    by congruence.
  apply nth_error_Some in H. lia.
Qed.

(** The field the loop reads at the head of a well-formed record. *)
Lemma load_payload_size f tail :
  well_formed layout f ->
  exists field,
    load_uint16 (serialize f ++ tail) (offsetof_payload_size layout)
      = Some field /\
    Z.to_nat (ntohs field) = List.length (payload f).
Proof.
  intros [Hlen Hdecl]. unfold declared_payload_size in Hdecl.
  unfold load_uint16, serialize.
  destruct (nth_error (header f) (offsetof_payload_size layout))
    as [b0|] eqn:E0; [|discriminate].
  destruct (nth_error (header f) (S (offsetof_payload_size layout)))
    as [b1|] eqn:E1; [|discriminate].
  assert (H0 : (offsetof_payload_size layout < List.length (header f))%nat)
    by (apply nth_error_Some; congruence).
  assert (H1 : (S (offsetof_payload_size layout) < List.length (header f))%nat)
    by (apply nth_error_Some; congruence).
  rewrite <- !app_assoc.
  rewrite (nth_error_app1 _ _ H0), (nth_error_app1 _ _ H1), E0, E1.
  eexists. split; [reflexivity|].
  rewrite ntohs_load_big_endian.
  assert (Hd : 256 * byte_value b0 + byte_value b1
               = Z.of_nat (List.length (payload f))) by congruence.
  rewrite Hd. apply Nat2Z.id.
Qed.

(** The loop over a concatenation of well-formed records queues their
    payloads, in order, and changes nothing else. *)
Lemma PlayLocalFile_loop_frames frames : forall fuel a,
  Forall (well_formed layout) frames ->
  (List.length (List.concat (map serialize frames)) <= fuel)%nat ->
  PlayLocalFile_loop layout fuel (List.concat (map serialize frames)) a
  = Finished
      (set_audio_decode_queue_
         (audio_decode_queue_ a ++ map payload frames) a).
Proof.
  induction frames as [|f rest IH]; intros fuel a Hwf Hfuel.
  - simpl. rewrite app_nil_r. destruct fuel, a; reflexivity.
  - inversion Hwf as [|f' rest' Hf Hrest]; subst.
    pose proof (well_formed_header_size f Hf) as Hsize.
    destruct Hf as [Hlen Hdecl].
    cbn [map List.concat] in *.
    set (tail := List.concat (map serialize rest)) in *.
    destruct (load_payload_size f tail (conj Hlen Hdecl))
      as (field & Hload & Hfield).
    assert (Hlength : List.length (serialize f ++ tail)
                      = (sizeof layout + List.length (payload f)
                         + List.length tail)%nat).
    { unfold serialize. rewrite !length_app, Hlen. reflexivity. }
    destruct (serialize f ++ tail) as [|b bs] eqn:Ebuf.
    { cbn [List.length] in Hlength. lia. }
    destruct fuel as [|fuel]; [cbn [List.length] in Hfuel; lia|].
    cbn [PlayLocalFile_loop]. rewrite Hload, Hfield.
    rewrite <- Ebuf in *. clear Ebuf b bs.
    assert (Hskip : skipn (sizeof layout) (serialize f ++ tail)
                    = payload f ++ tail).
    { unfold serialize. rewrite <- app_assoc, <- Hlen.
      rewrite skipn_app, skipn_all, Nat.sub_diag. reflexivity. }
    rewrite Hskip.
    replace (List.length (serialize f ++ tail) <? sizeof layout)%nat
      with false by (symmetry; apply Nat.ltb_ge; lia).
    replace (List.length (payload f ++ tail) <? List.length (payload f))%nat
      with false
      by (symmetry; apply Nat.ltb_ge; rewrite length_app; lia).
    rewrite firstn_app, firstn_all, Nat.sub_diag, app_nil_r.
    rewrite skipn_app, skipn_all, Nat.sub_diag. cbn [skipn app].
    rewrite (IH fuel _ Hrest) by lia.
    cbn [audio_decode_queue_ set_audio_decode_queue_].
    rewrite <- app_assoc. reflexivity.
Qed.

(** Whatever the buffer, the player does not read the device state. *)
Lemma PlayLocalFile_loop_any_state state fuel : forall rest a,
  PlayLocalFile_loop layout fuel rest (set_device_state_ state a)
  = Run_map (set_device_state_ state) (PlayLocalFile_loop layout fuel rest a).
Proof.
  induction fuel as [|fuel IH]; intros rest a.
  - destruct rest; reflexivity.
  - destruct rest as [|b rest]; [reflexivity|].
    cbn [PlayLocalFile_loop].
    destruct (load_uint16 _ _); [|reflexivity].
    destruct (_ <? _)%nat; [reflexivity|].
    destruct (_ <? _)%nat; [reflexivity|].
    rewrite <- IH. reflexivity.
Qed.

Lemma SetDecodeSampleRate_any_state state rate a :
  SetDecodeSampleRate board rate (set_device_state_ state a)
  = set_device_state_ state (SetDecodeSampleRate board rate a).
Proof.
  unfold SetDecodeSampleRate, seq.
  cbn [opus_decode_sample_rate_ set_device_state_].
  decide_tests; reflexivity.
Qed.

Lemma PlayLocalFile_any_state state data a :
  PlayLocalFile board layout data (set_device_state_ state a)
  = Run_map (set_device_state_ state) (PlayLocalFile board layout data a).
Proof.
  unfold PlayLocalFile. rewrite <- PlayLocalFile_loop_any_state.
  rewrite <- SetDecodeSampleRate_any_state. reflexivity.
Qed.

Lemma SetDecodeSampleRate_rate rate a :
  opus_decode_sample_rate_ (SetDecodeSampleRate board rate a) = rate /\
  audio_decode_queue_ (SetDecodeSampleRate board rate a)
    = audio_decode_queue_ a /\
  device_state_ (SetDecodeSampleRate board rate a) = device_state_ a.
Proof.
  unfold SetDecodeSampleRate, seq.
  destruct (opus_decode_sample_rate_ a =? rate) eqn:E.
  - apply Z.eqb_eq in E. auto.
  - decide_tests; simpl; auto.
Qed.

Lemma PlayLocalFile_frames frames a :
  Forall (well_formed layout) frames ->
  PlayLocalFile board layout (List.concat (map serialize frames)) a
  = Finished
      (set_audio_decode_queue_
         (audio_decode_queue_ a ++ map payload frames)
         (SetDecodeSampleRate board 16000
            (call (ESP_LOGI TAG "PlayLocalFile: %zu bytes"
                     [ArgNumber
                        (Z.of_nat
                           (List.length (List.concat (map serialize frames))))])
               a))).
Proof.
  intros Hwf. unfold PlayLocalFile.
  rewrite (PlayLocalFile_loop_frames frames _ _ Hwf) by lia.
  destruct (SetDecodeSampleRate_rate 16000
              (call (ESP_LOGI TAG "PlayLocalFile: %zu bytes"
                       [ArgNumber
                          (Z.of_nat
                             (List.length (List.concat (map serialize frames))))])
                 a)) as (_ & Hq & _).
  rewrite Hq. reflexivity.
Qed.

Lemma declared_sizes frames :
  Forall (well_formed layout) frames ->
  map (declared_payload_size layout) frames
  = map (fun opus => Some (Z.of_nat (List.length opus))) (map payload frames).
Proof.
  induction 1 as [|f rest [_ Hdecl] _ IH]; simpl; [reflexivity|].
  rewrite Hdecl, IH. reflexivity.
Qed.

Lemma OnIncomingAudio_all_dropped (packets : list AudioFrame) a :
  device_state_ a <> kDeviceStateSpeaking ->
  fold_left (fun acc opus => OnIncomingAudio opus acc) packets a = a.
Proof.
  intros Hs. induction packets as [|p ps IH]; simpl; [reflexivity|].
  replace (OnIncomingAudio p a) with a; [exact IH|].
  unfold OnIncomingAudio. destruct (device_state_ a); congruence.
Qed.

End PromptFacts.

Lemma prompts_well_formed :
  Forall (well_formed Specimen.layout) [prompt_320; prompt_280].
Proof.
  repeat constructor.
Qed.

(** C8. On a buffer that is the concatenation of N well-formed records
    the player returns, having set the decode sample rate to 16 kHz and
    then queued the N payloads behind what the decode queue held, in the
    order of the buffer, each as long as its header declares; apart from
    the queue the core is as the change of rate left it. *)
Theorem PlayLocalFile_enqueues_every_payload
    (board : Collaborators) (layout : BinaryProtocol3)
    (frames : list PromptFrame) (a : Application) :
  Forall (well_formed layout) frames ->
  exists a',
    PlayLocalFile board layout (List.concat (map serialize frames)) a
      = Finished a' /\
    opus_decode_sample_rate_ a' = 16000 /\
    audio_decode_queue_ a' = audio_decode_queue_ a ++ map payload frames /\
    List.length (audio_decode_queue_ a')
      = (List.length (audio_decode_queue_ a) + List.length frames)%nat /\
    map (fun opus => Some (Z.of_nat (List.length opus))) (map payload frames)
      = map (declared_payload_size layout) frames /\
    apart_from_queue a'
      = apart_from_queue
          (SetDecodeSampleRate board 16000
             (call (ESP_LOGI TAG "PlayLocalFile: %zu bytes"
                      [ArgNumber
                         (Z.of_nat
                            (List.length
                               (List.concat (map serialize frames))))])
                a)).
Proof.
  intros Hwf. eexists. split; [exact (PlayLocalFile_frames board layout frames a Hwf)|].
  cbn [opus_decode_sample_rate_ audio_decode_queue_ set_audio_decode_queue_].
  split; [apply SetDecodeSampleRate_rate|].
  split; [reflexivity|].
  split; [rewrite length_app, length_map; reflexivity|].
  split; [symmetry; exact (declared_sizes layout frames Hwf)|].
  reflexivity.
Qed.

Lemma PlayLocalFile_enqueues_every_payload_witness :
  exists a',
    PlayLocalFile Specimen.board Specimen.layout
      (List.concat (map serialize [prompt_320; prompt_280])) Specimen.idle
      = Finished a' /\
    opus_decode_sample_rate_ a' = 16000 /\
    audio_decode_queue_ a'
      = audio_decode_queue_ Specimen.idle
        ++ map payload [prompt_320; prompt_280] /\
    List.length (audio_decode_queue_ a')
      = (List.length (audio_decode_queue_ Specimen.idle)
         + List.length [prompt_320; prompt_280])%nat /\
    map (fun opus => Some (Z.of_nat (List.length opus)))
        (map payload [prompt_320; prompt_280])
      = map (declared_payload_size Specimen.layout)
          [prompt_320; prompt_280] /\
    apart_from_queue a'
      = apart_from_queue
          (SetDecodeSampleRate Specimen.board 16000
             (call (ESP_LOGI TAG "PlayLocalFile: %zu bytes"
                      [ArgNumber
                         (Z.of_nat
                            (List.length
                               (List.concat
                                  (map serialize
                                     [prompt_320; prompt_280]))))])
                Specimen.idle)).
Proof.
  apply (PlayLocalFile_enqueues_every_payload Specimen.board Specimen.layout
           [prompt_320; prompt_280] Specimen.idle).
  exact prompts_well_formed.
Defined.

(** Scenario S5, run: the rate goes from 24 kHz to 16 kHz first, with a
    new decoder and the resampler configured, and the queue then holds
    payloads of 320 and 280 bytes. *)
Example PlayLocalFile_scenario_S5 :
  match PlayLocalFile Specimen.board Specimen.layout
          (List.concat (map serialize [prompt_320; prompt_280]))
          Specimen.idle with
  | Finished a' =>
      opus_decode_sample_rate_ a' = 16000 /\
      map (@List.length byte) (audio_decode_queue_ a') = [320; 280]%nat /\
      effects a'
        = [ ESP_LOGI TAG "PlayLocalFile: %zu bytes" [ArgNumber 608];
            OpusDecoder_New 16000;
            ESP_LOGI TAG "Resampling audio from %d to %d"
              [ArgNumber 16000; ArgNumber 24000];
            Resampler_Configure 16000 24000 ]
  | _ => False
  end.
Proof. vm_compute. repeat split. Qed.

(** C10. The player never looks at the device state: run in any state,
    on any buffer, it does what it does in any other state; so the
    payloads of well-formed records are queued in Idle or Starting as
    they are in Speaking, the state is left as it was, while the same
    packets coming from the transport in a state other than Speaking
    would all be dropped. *)
Theorem PlayLocalFile_whatever_the_state
    (board : Collaborators) (layout : BinaryProtocol3)
    (frames : list PromptFrame) (state : DeviceState) (a : Application) :
  Forall (well_formed layout) frames ->
  exists a',
    PlayLocalFile board layout (List.concat (map serialize frames))
      (set_device_state_ state a) = Finished a' /\
    device_state_ a' = state /\
    audio_decode_queue_ a' = audio_decode_queue_ a ++ map payload frames /\
    (forall data other,
       PlayLocalFile board layout data (set_device_state_ other a)
       = Run_map (set_device_state_ other)
           (PlayLocalFile board layout data a)) /\
    (state <> kDeviceStateSpeaking ->
     fold_left (fun acc opus => OnIncomingAudio opus acc)
       (map payload frames) (set_device_state_ state a)
     = set_device_state_ state a).
Proof.
  intros Hwf. eexists.
  split; [exact (PlayLocalFile_frames board layout frames _ Hwf)|].
  split.
  { cbn [device_state_ set_audio_decode_queue_].
    destruct (SetDecodeSampleRate_rate board 16000
                (call (ESP_LOGI TAG "PlayLocalFile: %zu bytes"
                         [ArgNumber
                            (Z.of_nat
                               (List.length
                                  (List.concat (map serialize frames))))])
                   (set_device_state_ state a))) as (_ & _ & Hs).
    rewrite Hs. reflexivity. }
  split; [reflexivity|].
  split; [intros data other; apply PlayLocalFile_any_state|].
  intros Hs. apply OnIncomingAudio_all_dropped. exact Hs.
Qed.

Lemma PlayLocalFile_whatever_the_state_witness :
  exists a',
    PlayLocalFile Specimen.board Specimen.layout
      (List.concat (map serialize [prompt_320; prompt_280]))
      (set_device_state_ kDeviceStateStarting Specimen.idle) = Finished a' /\
    device_state_ a' = kDeviceStateStarting /\
    audio_decode_queue_ a'
      = audio_decode_queue_ Specimen.idle
        ++ map payload [prompt_320; prompt_280] /\
    (forall data other,
       PlayLocalFile Specimen.board Specimen.layout data
         (set_device_state_ other Specimen.idle)
       = Run_map (set_device_state_ other)
           (PlayLocalFile Specimen.board Specimen.layout data
              Specimen.idle)) /\
    (kDeviceStateStarting <> kDeviceStateSpeaking ->
     fold_left (fun acc opus => OnIncomingAudio opus acc)
       (map payload [prompt_320; prompt_280])
       (set_device_state_ kDeviceStateStarting Specimen.idle)
     = set_device_state_ kDeviceStateStarting Specimen.idle).
Proof.
  apply (PlayLocalFile_whatever_the_state Specimen.board Specimen.layout
           [prompt_320; prompt_280] kDeviceStateStarting Specimen.idle).
  exact prompts_well_formed.
Defined.

(* ===================================================================== *)
(** * Further facts about the core                                        *)
(* ===================================================================== *)

Lemma filter_none (P Q : Effect -> bool) (l : list Effect) :
  (forall e, P e = true -> Q e = false) ->
  forallb P l = true -> filter Q l = [].
Proof.
  intros HP. induction l as [|e l IH]; simpl; [reflexivity|].
  intros H. apply andb_prop in H. destruct H as [He Hl].
  rewrite (HP e He). exact (IH Hl).
Qed.

Lemma members_fields a a' :
  members a' = members a ->
  device_state_ a' = device_state_ a /\
  keep_listening_ a' = keep_listening_ a /\
  aborted_ a' = aborted_ a /\
  opus_decode_sample_rate_ a' = opus_decode_sample_rate_ a /\
  audio_decode_queue_ a' = audio_decode_queue_ a /\
  last_output_time_ a' = last_output_time_ a /\
  last_iot_states_ a' = last_iot_states_ a.
Proof. unfold members. intros H. injection H. auto 10. Qed.

Section MoreFrames.

Variable board : Collaborators.

Lemma schedule_packets_members (packets : list AudioFrame) : forall a,
  members (fold_left (fun acc opus => Schedule (SendAudioClosure opus) acc)
             packets a) = members a /\
  background_task_
    (fold_left (fun acc opus => Schedule (SendAudioClosure opus) acc)
       packets a) = background_task_ a.
Proof.
  induction packets as [|opus rest IH]; intros a; simpl; [auto|].
  destruct (IH (Schedule (SendAudioClosure opus) a)) as [H1 H2].
  rewrite H1, H2. auto.
Qed.

Lemma run_callback_members c a :
  members (run_callback board c a) = members a.
Proof.
  destruct c as [opus | data]; simpl.
  - unfold run_DecodeClosure. decide_tests; reflexivity.
  - unfold run_EncodeClosure.
    destruct (schedule_packets_members (Encode board data)
                (call (OpusEncoder_Encode data) a)) as [H _].
    rewrite H. reflexivity.
Qed.

Lemma run_wrapper_members c a :
  members (run_wrapper board c a) = members a.
Proof. unfold run_wrapper. exact (run_callback_members c a). Qed.

Lemma run_batch_members tasks : forall a,
  members (run_batch board tasks a) = members a.
Proof.
  induction tasks as [|c rest IH]; intros a; simpl; [reflexivity|].
  rewrite IH. apply run_wrapper_members.
Qed.

Lemma WaitForCompletion_members a :
  members (WaitForCompletion board a) = members a.
Proof.
  unfold WaitForCompletion.
  change (members (call BackgroundTask_WaitForCompletion ?x))
    with (members x).
  rewrite run_batch_members. reflexivity.
Qed.

Lemma run_batch_queue tasks : forall a,
  BackgroundTask.main_tasks_ (background_task_ (run_batch board tasks a))
  = BackgroundTask.main_tasks_ (background_task_ a).
Proof.
  induction tasks as [|c rest IH]; intros a; simpl; [reflexivity|].
  rewrite IH. unfold run_wrapper. cbn.
  destruct (run_callback_frame board c a) as (_ & Hbg & _).
  rewrite Hbg. reflexivity.
Qed.

Lemma WaitForCompletion_queue a :
  BackgroundTask.main_tasks_ (background_task_ (WaitForCompletion board a))
  = [].
Proof.
  unfold WaitForCompletion. cbn [background_task_ call].
  rewrite run_batch_queue. reflexivity.
Qed.

End MoreFrames.

(** X1. [UpdateIotStates] keeps the cache equal to the last document it
    was given and sends a document exactly when it differs from the
    cache: a repeated document is not sent again, and a second call with
    the same document changes nothing. *)
Theorem UpdateIotStates_sends_changes_only (states : string)
    (a : Application) :
  last_iot_states_ (UpdateIotStates states a) = states /\
  (states = last_iot_states_ a -> UpdateIotStates states a = a) /\
  (states <> last_iot_states_ a ->
   effects (UpdateIotStates states a)
     = effects a ++ [Protocol_SendIotStates states]) /\
  UpdateIotStates states (UpdateIotStates states a)
    = UpdateIotStates states a.
Proof.
  unfold UpdateIotStates.
  destruct (String.eqb states (last_iot_states_ a)) eqn:E.
  - apply String.eqb_eq in E. rewrite <- E at 1.
    repeat split; try reflexivity.
    + intros Hne. contradiction.
    + rewrite <- E. rewrite String.eqb_refl. reflexivity.
  - apply String.eqb_neq in E.
    repeat split; try reflexivity.
    + intros He. contradiction.
    + cbn [last_iot_states_ call set_last_iot_states_].
      rewrite String.eqb_refl. reflexivity.
Qed.

(** X2. [SetDecodeSampleRate] leaves the decode rate at the rate asked
    for. Asked for the rate it already has it does nothing; otherwise it
    builds one new decoder at that rate and configures the output
    resampler exactly when the rate differs from the codec's output
    rate. Calling it again with the same rate changes nothing. *)
Theorem SetDecodeSampleRate_reconciles
    (board : Collaborators) (rate : Z) (a : Application) :
  opus_decode_sample_rate_ (SetDecodeSampleRate board rate a) = rate /\
  (opus_decode_sample_rate_ a = rate ->
   SetDecodeSampleRate board rate a = a) /\
  (opus_decode_sample_rate_ a <> rate ->
   effects (SetDecodeSampleRate board rate a)
     = effects a
       ++ OpusDecoder_New rate
          :: (if rate =? output_sample_rate board then []
              else [ ESP_LOGI TAG "Resampling audio from %d to %d"
                       [ArgNumber rate;
                        ArgNumber (output_sample_rate board)];
                     Resampler_Configure rate (output_sample_rate board) ]))
  /\
  SetDecodeSampleRate board rate (SetDecodeSampleRate board rate a)
    = SetDecodeSampleRate board rate a.
Proof.
  assert (Hrate :
    opus_decode_sample_rate_ (SetDecodeSampleRate board rate a) = rate).
  { unfold SetDecodeSampleRate, seq.
    destruct (opus_decode_sample_rate_ a =? rate) eqn:E.
    - apply Z.eqb_eq in E. exact E.
    - decide_tests; reflexivity. }
  split; [exact Hrate|].
  split.
  { intros He. unfold SetDecodeSampleRate.
    rewrite (proj2 (Z.eqb_eq _ _) He). reflexivity. }
  split.
  { intros Hne. unfold SetDecodeSampleRate, seq.
    rewrite (proj2 (Z.eqb_neq _ _) Hne).
    destruct (rate =? output_sample_rate board); cbn;
      rewrite <- ?app_assoc; reflexivity. }
  unfold SetDecodeSampleRate at 1.
  rewrite (proj2 (Z.eqb_eq _ _) Hrate). reflexivity.
Qed.

Lemma state_entry_queue board state env a :
  (state = kDeviceStateListening \/ state = kDeviceStateSpeaking ->
   audio_decode_queue_ (state_entry board state env a) = [] /\
   last_output_time_ (state_entry board state env a) = steady_clock_now env /\
   exists before after,
     effects (state_entry board state env a)
     = effects a ++ before
       ++ [OpusDecoder_ResetState; Codec_EnableOutput true] ++ after) /\
  (state <> kDeviceStateListening -> state <> kDeviceStateSpeaking ->
   audio_decode_queue_ (state_entry board state env a)
     = audio_decode_queue_ a /\
   last_output_time_ (state_entry board state env a) = last_output_time_ a).
Proof.
  split.
  - intros [-> | ->];
      unfold state_entry, ResetDecoder, audio_processor,
        UpdateIotStates, seq, skip.
    + destruct (CONFIG_IDF_TARGET_ESP32S3 board);
        cbn [last_iot_states_ call set_audio_decode_queue_
             set_last_output_time_];
        match goal with
        | |- context [if ?c then _ else _] => destruct c
        end;
        (split; [reflexivity|]; split; [reflexivity|]);
        cbn [effects call set_audio_decode_queue_ set_last_output_time_
             set_last_iot_states_];
        eexists [_; _]; eexists;
        rewrite <- ?app_assoc; cbn [app]; reflexivity.
    + destruct (CONFIG_IDF_TARGET_ESP32S3 board);
        (split; [reflexivity|]; split; [reflexivity|]);
        cbn [effects call set_audio_decode_queue_ set_last_output_time_];
        eexists [_]; eexists;
        rewrite <- ?app_assoc; cbn [app]; reflexivity.
  - intros H1 H2.
    destruct state; try congruence;
      unfold state_entry, seq, skip, audio_processor;
      destruct (CONFIG_IDF_TARGET_ESP32S3 board); auto.
Qed.

Lemma SetDeviceState_queue
    (board : Collaborators) (state : DeviceState) (env : Ambient)
    (a : Application) :
  device_state_ a <> state ->
  (state = kDeviceStateListening \/ state = kDeviceStateSpeaking ->
   audio_decode_queue_ (SetDeviceState board state env a) = [] /\
   last_output_time_ (SetDeviceState board state env a)
     = steady_clock_now env /\
   In OpusDecoder_ResetState (effects (SetDeviceState board state env a)) /\
   In (Codec_EnableOutput true)
      (effects (SetDeviceState board state env a))) /\
  (state <> kDeviceStateListening -> state <> kDeviceStateSpeaking ->
   audio_decode_queue_ (SetDeviceState board state env a)
     = audio_decode_queue_ a /\
   last_output_time_ (SetDeviceState board state env a)
     = last_output_time_ a).
Proof.
  intros Hne.
  destruct (SetDeviceState_shape board state env a Hne)
    as (drained & barrier & side & _ & _ & _ & _ & _ & Hshape & _).
  assert (Hbar : SetDeviceState board state env a
                 = state_entry board state env
                     (call Led_OnStateChanged
                        (WaitForCompletion board
                           (log_state (set_device_state_ state a))))).
  { unfold SetDeviceState. rewrite (DeviceState_eqb_neq _ _ Hne).
    reflexivity. }
  rewrite Hbar. clear Hshape.
  set (x := call Led_OnStateChanged _).
  assert (Hq : audio_decode_queue_ x = audio_decode_queue_ a /\
               last_output_time_ x = last_output_time_ a).
  { subst x. cbn [audio_decode_queue_ last_output_time_ call].
    destruct (members_fields _ _
                (WaitForCompletion_members board
                   (log_state (set_device_state_ state a))))
      as (_ & _ & _ & _ & H5 & H6 & _).
    rewrite H5, H6. auto. }
  destruct (state_entry_queue board state env x) as [Hreset Hkeep].
  split.
  - intros Hs. destruct (Hreset Hs) as (H1 & H2 & before & after & E).
    repeat split; try assumption; rewrite E; rewrite !in_app_iff;
      simpl; tauto.
  - intros H1 H2. destruct (Hkeep H1 H2) as [H3 H4].
    destruct Hq as [H5 H6]. rewrite H3, H4. auto.
Qed.

(** X3. A change of state empties the decode queue, stamps the time of
    the last output and resets the decoder and turns the codec output on
    exactly when the new state is Listening or Speaking; a change to any
    other state (Idle included) leaves the queue and the stamp as they
    were, so frames still queued stay queued. *)
Theorem SetDeviceState_and_the_decode_queue
    (board : Collaborators) (state : DeviceState) (env : Ambient)
    (a : Application) :
  device_state_ a <> state ->
  (state = kDeviceStateListening \/ state = kDeviceStateSpeaking ->
   audio_decode_queue_ (SetDeviceState board state env a) = [] /\
   last_output_time_ (SetDeviceState board state env a)
     = steady_clock_now env /\
   In OpusDecoder_ResetState (effects (SetDeviceState board state env a)) /\
   In (Codec_EnableOutput true)
      (effects (SetDeviceState board state env a))) /\
  (state <> kDeviceStateListening -> state <> kDeviceStateSpeaking ->
   audio_decode_queue_ (SetDeviceState board state env a)
     = audio_decode_queue_ a /\
   last_output_time_ (SetDeviceState board state env a)
     = last_output_time_ a).
Proof. exact (SetDeviceState_queue board state env a). Qed.

Lemma SetDeviceState_and_the_decode_queue_witness :
  (kDeviceStateIdle = kDeviceStateListening \/
   kDeviceStateIdle = kDeviceStateSpeaking ->
   audio_decode_queue_
     (SetDeviceState Specimen.board kDeviceStateIdle Specimen.env
        Specimen.speaking) = [] /\
   last_output_time_
     (SetDeviceState Specimen.board kDeviceStateIdle Specimen.env
        Specimen.speaking) = steady_clock_now Specimen.env /\
   In OpusDecoder_ResetState
      (effects (SetDeviceState Specimen.board kDeviceStateIdle Specimen.env
                  Specimen.speaking)) /\
   In (Codec_EnableOutput true)
      (effects (SetDeviceState Specimen.board kDeviceStateIdle Specimen.env
                  Specimen.speaking))) /\
  (kDeviceStateIdle <> kDeviceStateListening ->
   kDeviceStateIdle <> kDeviceStateSpeaking ->
   audio_decode_queue_
     (SetDeviceState Specimen.board kDeviceStateIdle Specimen.env
        Specimen.speaking) = audio_decode_queue_ Specimen.speaking /\
   last_output_time_
     (SetDeviceState Specimen.board kDeviceStateIdle Specimen.env
        Specimen.speaking) = last_output_time_ Specimen.speaking).
Proof.
  apply (SetDeviceState_and_the_decode_queue Specimen.board kDeviceStateIdle
           Specimen.env Specimen.speaking).
  discriminate.
Defined.

Lemma OutputAudio_front
    (now : Z) (a : Application) (opus : AudioFrame) (rest : list AudioFrame) :
  audio_decode_queue_ a = opus :: rest ->
  device_state_ a <> kDeviceStateListening ->
  audio_decode_queue_ (OutputAudio now a) = rest /\
  last_output_time_ (OutputAudio now a) = now /\
  BackgroundTask.main_tasks_ (background_task_ (OutputAudio now a))
    = BackgroundTask.main_tasks_ (background_task_ a)
      ++ [DecodeClosure opus] /\
  device_state_ (OutputAudio now a) = device_state_ a /\
  aborted_ (OutputAudio now a) = aborted_ a /\
  effects (OutputAudio now a)
    = effects a
      ++ (if 30 <=? BackgroundTask.active_tasks_ (background_task_ a)
          then [ESP_LOGW BACKGROUND_TAG "active_tasks_ == %u"
                  [ArgNumber
                     (BackgroundTask.active_tasks_ (background_task_ a))]]
          else []).
Proof.
  intros Hq Hs. unfold OutputAudio. rewrite Hq.
  unfold seq, background_Schedule, BackgroundTask.Schedule_warns.
  cbn [background_task_ set_audio_decode_queue_ set_last_output_time_].
  destruct (device_state_ a) eqn:E; try congruence;
    destruct (30 <=? BackgroundTask.active_tasks_ (background_task_ a));
    cbn; rewrite ?app_nil_r, ?E; repeat split; reflexivity.
Qed.

(** X4. In every state but Listening (Idle included), an output tick
    that finds the decode queue non-empty takes exactly the frame at its
    front, stamps the time of the last output, and submits one decode
    closure for that frame behind everything the executor holds; the
    rest of the queue keeps its order, the state is untouched and the
    only call that can be made is the executor's warning. *)
Theorem OutputAudio_hands_over_the_front
    (now : Z) (a : Application) (opus : AudioFrame) (rest : list AudioFrame) :
  audio_decode_queue_ a = opus :: rest ->
  device_state_ a <> kDeviceStateListening ->
  audio_decode_queue_ (OutputAudio now a) = rest /\
  last_output_time_ (OutputAudio now a) = now /\
  BackgroundTask.main_tasks_ (background_task_ (OutputAudio now a))
    = BackgroundTask.main_tasks_ (background_task_ a)
      ++ [DecodeClosure opus] /\
  device_state_ (OutputAudio now a) = device_state_ a /\
  aborted_ (OutputAudio now a) = aborted_ a /\
  effects (OutputAudio now a)
    = effects a
      ++ (if 30 <=? BackgroundTask.active_tasks_ (background_task_ a)
          then [ESP_LOGW BACKGROUND_TAG "active_tasks_ == %u"
                  [ArgNumber
                     (BackgroundTask.active_tasks_ (background_task_ a))]]
          else []).
Proof. exact (OutputAudio_front now a opus rest). Qed.

Lemma OutputAudio_hands_over_the_front_witness :
  audio_decode_queue_
    (OutputAudio 5 (set_device_state_ kDeviceStateIdle Specimen.speaking))
    = [Specimen.frame2] /\
  last_output_time_
    (OutputAudio 5 (set_device_state_ kDeviceStateIdle Specimen.speaking))
    = 5 /\
  BackgroundTask.main_tasks_
    (background_task_
       (OutputAudio 5 (set_device_state_ kDeviceStateIdle Specimen.speaking)))
    = BackgroundTask.main_tasks_
        (background_task_
           (set_device_state_ kDeviceStateIdle Specimen.speaking))
      ++ [DecodeClosure Specimen.frame1] /\
  device_state_
    (OutputAudio 5 (set_device_state_ kDeviceStateIdle Specimen.speaking))
    = device_state_ (set_device_state_ kDeviceStateIdle Specimen.speaking) /\
  aborted_
    (OutputAudio 5 (set_device_state_ kDeviceStateIdle Specimen.speaking))
    = aborted_ (set_device_state_ kDeviceStateIdle Specimen.speaking) /\
  effects
    (OutputAudio 5 (set_device_state_ kDeviceStateIdle Specimen.speaking))
    = effects (set_device_state_ kDeviceStateIdle Specimen.speaking)
      ++ (if 30 <=? BackgroundTask.active_tasks_
                      (background_task_
                         (set_device_state_ kDeviceStateIdle
                            Specimen.speaking))
          then [ESP_LOGW BACKGROUND_TAG "active_tasks_ == %u"
                  [ArgNumber
                     (BackgroundTask.active_tasks_
                        (background_task_
                           (set_device_state_ kDeviceStateIdle
                              Specimen.speaking)))]]
          else []).
Proof.
  apply (OutputAudio_hands_over_the_front 5
           (set_device_state_ kDeviceStateIdle Specimen.speaking)
           Specimen.frame1 [Specimen.frame2]).
  - reflexivity.
  - discriminate.
Defined.

(** ** Playback order *)

Lemma decode_frames_app l l' :
  decode_frames (l ++ l') = decode_frames l ++ decode_frames l'.
Proof.
  induction l as [|c l IH]; simpl; [reflexivity|].
  destruct c; simpl; rewrite IH; reflexivity.
Qed.

Lemma decode_frames_map (q : list AudioFrame) :
  decode_frames (map DecodeClosure q) = q.
Proof. induction q as [|f q IH]; simpl; [|rewrite IH]; reflexivity. Qed.

Lemma rendered_app board rate l l' :
  rendered board rate (l ++ l')
  = rendered board rate l ++ rendered board rate l'.
Proof. unfold rendered. apply flat_map_app. Qed.

Section Playback.

Variable board : Collaborators.

Lemma schedule_packets_effects (packets : list AudioFrame) : forall a,
  effects (fold_left (fun acc opus => Schedule (SendAudioClosure opus) acc)
             packets a) = effects a.
Proof.
  induction packets as [|opus rest IH]; intros a; simpl; [reflexivity|].
  rewrite IH. reflexivity.
Qed.

Lemma run_wrapper_plays c a :
  aborted_ a = false ->
  frames_decoded (effects (run_wrapper board c a))
    = frames_decoded (effects a) ++ decode_frames [c] /\
  pcm_pushed (effects (run_wrapper board c a))
    = pcm_pushed (effects a)
      ++ rendered board (opus_decode_sample_rate_ a) (decode_frames [c]).
Proof.
  intros Ha. unfold run_wrapper. cbn [effects set_background_task_].
  destruct c as [opus | data]; cbn [run_callback decode_frames].
  - unfold run_DecodeClosure, rendered. rewrite Ha. cbn [flat_map].
    destruct (Decode board (opus_decode_sample_rate_ a) opus) as [pcm|];
      [destruct (opus_decode_sample_rate_ a =? output_sample_rate board)|];
      cbn [effects call];
      rewrite ?frames_decoded_app, ?pcm_pushed_app; cbn;
      rewrite ?app_nil_r; auto.
  - unfold run_EncodeClosure. rewrite schedule_packets_effects.
    cbn [effects call]. rewrite frames_decoded_app, pcm_pushed_app. cbn.
    rewrite !app_nil_r. auto.
Qed.

Lemma run_batch_plays tasks : forall a,
  aborted_ a = false ->
  frames_decoded (effects (run_batch board tasks a))
    = frames_decoded (effects a) ++ decode_frames tasks /\
  pcm_pushed (effects (run_batch board tasks a))
    = pcm_pushed (effects a)
      ++ rendered board (opus_decode_sample_rate_ a) (decode_frames tasks).
Proof.
  induction tasks as [|c rest IH]; intros a Ha.
  - simpl. rewrite !app_nil_r. auto.
  - cbn [run_batch].
    destruct (members_fields _ _ (run_wrapper_members board c a))
      as (_ & _ & Hab & Hrate & _).
    destruct (IH (run_wrapper board c a)) as [H1 H2]; [congruence|].
    destruct (run_wrapper_plays c a Ha) as [H3 H4].
    rewrite H1, H2, H3, H4, Hrate.
    change (c :: rest) with ([c] ++ rest).
    rewrite decode_frames_app, rendered_app, <- !app_assoc. auto.
Qed.

Lemma OutputAudio_rate now a :
  opus_decode_sample_rate_ (OutputAudio now a) = opus_decode_sample_rate_ a.
Proof.
  unfold OutputAudio, seq, background_Schedule.
  destruct (audio_decode_queue_ a), (device_state_ a);
    decide_tests; reflexivity.
Qed.

Lemma ticks_hand_over nows : forall a,
  device_state_ a <> kDeviceStateListening ->
  List.length nows = List.length (audio_decode_queue_ a) ->
  audio_decode_queue_ (ticks nows a) = [] /\
  BackgroundTask.main_tasks_ (background_task_ (ticks nows a))
    = BackgroundTask.main_tasks_ (background_task_ a)
      ++ map DecodeClosure (audio_decode_queue_ a) /\
  aborted_ (ticks nows a) = aborted_ a /\
  opus_decode_sample_rate_ (ticks nows a) = opus_decode_sample_rate_ a /\
  frames_decoded (effects (ticks nows a)) = frames_decoded (effects a) /\
  pcm_pushed (effects (ticks nows a)) = pcm_pushed (effects a).
Proof.
  induction nows as [|now rest IH]; intros a Hs Hlen.
  - destruct (audio_decode_queue_ a) eqn:Hq; [|discriminate].
    cbn. rewrite app_nil_r. auto 10.
  - destruct (audio_decode_queue_ a) as [|opus q] eqn:Hq; [discriminate|].
    cbn [ticks fold_left]. fold (ticks rest (OutputAudio now a)).
    destruct (OutputAudio_front now a opus q Hq Hs)
      as (H1 & _ & H3 & H4 & H5 & H6).
    pose proof (OutputAudio_rate now a) as Hrate.
    destruct (IH (OutputAudio now a)) as (I1 & I2 & I3 & I4 & I5 & I6).
    { rewrite H4. exact Hs. }
    { rewrite H1. cbn [List.length] in Hlen. lia. }
    rewrite I1, I2, I3, I4, I5, I6, H1, H3, H5, H6, Hrate.
    rewrite frames_decoded_app, pcm_pushed_app.
    destruct (30 <=? _); cbn; rewrite ?app_nil_r, <- ?app_assoc; auto 10.
Qed.

End Playback.

(** X5. Frames are played in arrival order. When nothing is aborted and
    the state is not Listening, one output tick per queued frame followed
    by the completion of the executor empties the decode queue and hands
    the decoder first the frames of the decode closures the executor
    already held, then the queued frames, in queue order; the codec
    receives their samples in that order, a frame the decoder rejects
    contributing nothing and delaying nothing. *)
Theorem playback_in_arrival_order
    (board : Collaborators) (nows : list Z) (a : Application) :
  device_state_ a <> kDeviceStateListening ->
  aborted_ a = false ->
  List.length nows = List.length (audio_decode_queue_ a) ->
  audio_decode_queue_ (WaitForCompletion board (ticks nows a)) = [] /\
  frames_decoded (effects (WaitForCompletion board (ticks nows a)))
    = frames_decoded (effects a)
      ++ decode_frames (BackgroundTask.main_tasks_ (background_task_ a))
      ++ audio_decode_queue_ a /\
  pcm_pushed (effects (WaitForCompletion board (ticks nows a)))
    = pcm_pushed (effects a)
      ++ rendered board (opus_decode_sample_rate_ a)
           (decode_frames (BackgroundTask.main_tasks_ (background_task_ a))
            ++ audio_decode_queue_ a).
Proof.
  intros Hs Ha Hlen.
  destruct (ticks_hand_over nows a Hs Hlen) as (H1 & H2 & H3 & H4 & H5 & H6).
  destruct (members_fields _ _ (WaitForCompletion_members board (ticks nows a)))
    as (_ & _ & _ & _ & Hq & _).
  split; [rewrite Hq; exact H1|].
  unfold WaitForCompletion.
  cbn [effects call fst snd BackgroundTask.take_batch].
  rewrite frames_decoded_app, pcm_pushed_app. cbn. rewrite !app_nil_r.
  destruct (run_batch_plays board
              (BackgroundTask.main_tasks_ (background_task_ (ticks nows a)))
              (set_background_task_
                 (BackgroundTask.mk []
                    (BackgroundTask.active_tasks_
                       (background_task_ (ticks nows a))))
                 (ticks nows a))) as [P1 P2].
  { cbn. congruence. }
  rewrite P1, P2. cbn [effects opus_decode_sample_rate_ set_background_task_].
  rewrite H2, H4, H5, H6, decode_frames_app, decode_frames_map. auto.
Qed.

Lemma playback_in_arrival_order_witness :
  audio_decode_queue_
    (WaitForCompletion Specimen.board (ticks [1; 2] Specimen.speaking)) = [] /\
  frames_decoded
    (effects
       (WaitForCompletion Specimen.board (ticks [1; 2] Specimen.speaking)))
    = frames_decoded (effects Specimen.speaking)
      ++ decode_frames
           (BackgroundTask.main_tasks_ (background_task_ Specimen.speaking))
      ++ audio_decode_queue_ Specimen.speaking /\
  pcm_pushed
    (effects
       (WaitForCompletion Specimen.board (ticks [1; 2] Specimen.speaking)))
    = pcm_pushed (effects Specimen.speaking)
      ++ rendered Specimen.board
           (opus_decode_sample_rate_ Specimen.speaking)
           (decode_frames
              (BackgroundTask.main_tasks_
                 (background_task_ Specimen.speaking))
            ++ audio_decode_queue_ Specimen.speaking).
Proof.
  apply (playback_in_arrival_order Specimen.board [1; 2] Specimen.speaking).
  - discriminate.
  - reflexivity.
  - reflexivity.
Defined.

(** ** The closures of the speech-synthesis lifecycle *)

Section Lifecycle.

Variable board : Collaborators.

Lemma adds_WaitForCompletion :
  adds is_transition_call (WaitForCompletion board).
Proof.
  intros a. destruct (WaitForCompletion_trace board a)
    as [Hab (drained & E & _ & Hd)].
  split; [exact Hab|]. exists (drained ++ [BackgroundTask_WaitForCompletion]).
  split; [exact E|]. rewrite forallb_app. cbn. rewrite andb_true_r.
  rewrite forallb_forall in *. intros e He. specialize (Hd e He).
  destruct e; simpl in *; congruence.
Qed.

Lemma adds_SetDeviceState state env :
  adds is_transition_call (SetDeviceState board state env).
Proof.
  intros a. unfold SetDeviceState.
  destruct (DeviceState_eqb (device_state_ a) state).
  - apply adds_id.
  - revert a.
    apply (adds_seq _ _ (state_entry board state env)).
    + apply (adds_seq _ _ (call Led_OnStateChanged));
        [|apply adds_call; reflexivity].
      apply (adds_seq _ _ (WaitForCompletion board));
        [|apply adds_WaitForCompletion].
      apply (adds_seq _ (set_device_state_ state) log_state);
        [apply adds_set_device_state_|].
      intros a. apply adds_call. reflexivity.
    + apply (adds_weaken is_state_side_effect);
        [|apply adds_state_entry].
      intros e He. destruct e; simpl in *; congruence.
Qed.

Lemma SetDeviceState_state state env a :
  device_state_ (SetDeviceState board state env a) = state.
Proof.
  destruct (DeviceState_eqb (device_state_ a) state) eqn:E.
  - apply DeviceState_eqb_eq in E.
    rewrite (SetDeviceState_same_state_aux board state env a E). exact E.
  - assert (Hne : device_state_ a <> state).
    { intros H. apply DeviceState_eqb_eq in H. congruence. }
    destruct (SetDeviceState_shape board state env a Hne)
      as (_ & barrier & _ & _ & _ & Hs & _ & _ & Hshape & _).
    rewrite Hshape.
    destruct (state_entry_frame board state env
                (call Led_OnStateChanged barrier)) as [H1 _].
    rewrite H1. exact Hs.
Qed.

Lemma SetDeviceState_executor_queue state env a :
  device_state_ a <> state ->
  BackgroundTask.main_tasks_
    (background_task_ (SetDeviceState board state env a)) = [].
Proof.
  intros Hne. unfold SetDeviceState. rewrite (DeviceState_eqb_neq _ _ Hne).
  unfold seq.
  destruct (state_entry_frame board state env
              (call Led_OnStateChanged
                 (WaitForCompletion board
                    (log_state (set_device_state_ state a))))) as [_ H].
  rewrite H. cbn [background_task_ call]. apply WaitForCompletion_queue.
Qed.

Lemma transition_calls_filtered (Q : Effect -> bool) f a :
  (forall e, is_transition_call e = true -> Q e = false) ->
  adds is_transition_call f ->
  filter Q (effects (f a)) = filter Q (effects a).
Proof.
  intros HQ Hf. destruct (Hf a) as [_ (new & E & Hn)].
  rewrite E, filter_app, (filter_none is_transition_call Q new HQ Hn).
  apply app_nil_r.
Qed.

Lemma transition_not_start_listening e :
  is_transition_call e = true -> is_start_listening e = false.
Proof. destruct e; simpl; congruence. Qed.

Lemma transition_not_stop_listening e :
  is_transition_call e = true -> is_stop_listening e = false.
Proof. destruct e; simpl; congruence. Qed.

End Lifecycle.

(** X6. The closure of [tts] / [stop] does nothing unless the device is
    speaking. When it is, the closure ends in Listening if
    [keep_listening_] is set, having sent [SendStartListening(AutoStop)]
    exactly once and emptied the decode queue, and in Idle otherwise,
    having sent none and left the decode queue as it was; either way the
    executor's queue is empty afterwards. *)
Theorem tts_stop_ends_the_turn
    (board : Collaborators) (env : Ambient) (a : Application) :
  (device_state_ a <> kDeviceStateSpeaking -> run_TtsStop board env a = a) /\
  (device_state_ a = kDeviceStateSpeaking ->
   device_state_ (run_TtsStop board env a)
     = (if keep_listening_ a then kDeviceStateListening
        else kDeviceStateIdle) /\
   filter is_start_listening (effects (run_TtsStop board env a))
     = filter is_start_listening (effects a)
       ++ (if keep_listening_ a
           then [Protocol_SendStartListening kListeningModeAutoStop]
           else []) /\
   audio_decode_queue_ (run_TtsStop board env a)
     = (if keep_listening_ a then [] else audio_decode_queue_ a) /\
   BackgroundTask.main_tasks_ (background_task_ (run_TtsStop board env a))
     = []).
Proof.
  split.
  { intros Hs. unfold run_TtsStop. destruct (device_state_ a); congruence. }
  intros Hs. unfold run_TtsStop. rewrite Hs.
  destruct (members_fields _ _ (WaitForCompletion_members board a))
    as (Hst & Hkeep & _ & _ & Hq & _).
  rewrite Hkeep.
  pose proof (transition_calls_filtered is_start_listening
                (WaitForCompletion board) a
                transition_not_start_listening
                (adds_WaitForCompletion board)) as Hw.
  destruct (keep_listening_ a).
  - set (a2 := call (Protocol_SendStartListening kListeningModeAutoStop)
                 (WaitForCompletion board a)).
    assert (Hne : device_state_ a2 <> kDeviceStateListening).
    { subst a2. cbn [device_state_ call]. rewrite Hst, Hs. discriminate. }
    split; [apply SetDeviceState_state|].
    split.
    { rewrite (transition_calls_filtered is_start_listening
                 (SetDeviceState board kDeviceStateListening env) a2
                 transition_not_start_listening
                 (adds_SetDeviceState board _ _)).
      subst a2. cbn [effects call]. rewrite filter_app, Hw. reflexivity. }
    split.
    { destruct (SetDeviceState_queue board kDeviceStateListening env a2 Hne)
        as [Hreset _].
      destruct (Hreset (or_introl eq_refl)) as [H _]. exact H. }
    apply SetDeviceState_executor_queue. exact Hne.
  - assert (Hne : device_state_ (WaitForCompletion board a)
                  <> kDeviceStateIdle).
    { rewrite Hst, Hs. discriminate. }
    split; [apply SetDeviceState_state|].
    split.
    { rewrite (transition_calls_filtered is_start_listening
                 (SetDeviceState board kDeviceStateIdle env) _
                 transition_not_start_listening
                 (adds_SetDeviceState board _ _)).
      rewrite Hw, app_nil_r. reflexivity. }
    split.
    { destruct (SetDeviceState_queue board kDeviceStateIdle env _ Hne)
        as [_ Hkeepq].
      destruct Hkeepq as [H _]; try discriminate. rewrite H. exact Hq. }
    apply SetDeviceState_executor_queue. exact Hne.
Qed.

(** X7. The closure of [tts] / [start] always clears [aborted_]. From
    Idle or Listening it also enters Speaking, which empties the decode
    queue; in every other state, Speaking included, clearing the flag is
    all it does: no state change, no decoder reset, the decode queue
    kept as it is. *)
Theorem tts_start_clears_the_abort
    (board : Collaborators) (env : Ambient) (a : Application) :
  aborted_ (run_TtsStart board env a) = false /\
  (device_state_ a = kDeviceStateIdle \/
   device_state_ a = kDeviceStateListening ->
   device_state_ (run_TtsStart board env a) = kDeviceStateSpeaking /\
   audio_decode_queue_ (run_TtsStart board env a) = []) /\
  (device_state_ a <> kDeviceStateIdle ->
   device_state_ a <> kDeviceStateListening ->
   run_TtsStart board env a = set_aborted_ false a).
Proof.
  assert (Hgo : forall b,
            device_state_ b <> kDeviceStateSpeaking ->
            aborted_ (SetDeviceState board kDeviceStateSpeaking env b)
              = aborted_ b /\
            device_state_ (SetDeviceState board kDeviceStateSpeaking env b)
              = kDeviceStateSpeaking /\
            audio_decode_queue_
              (SetDeviceState board kDeviceStateSpeaking env b) = []).
  { intros b Hb.
    destruct (adds_SetDeviceState board kDeviceStateSpeaking env b)
      as [Hab _].
    destruct (SetDeviceState_queue board kDeviceStateSpeaking env b Hb)
      as [Hreset _].
    destruct (Hreset (or_intror eq_refl)) as [Hq _].
    split; [exact Hab|]. split; [apply SetDeviceState_state | exact Hq]. }
  unfold run_TtsStart. cbn [device_state_ set_aborted_].
  destruct (device_state_ a) eqn:E;
    try (split; [reflexivity|];
         split; [intros [H | H]; discriminate H | reflexivity]);
    (destruct (Hgo (set_aborted_ false a)) as (H1 & H2 & H3);
     [cbn [device_state_ set_aborted_]; rewrite E; discriminate|];
     split; [rewrite H1; reflexivity|];
     split; [intros _; split; assumption|];
     intros Hi Hl; congruence).
Qed.

(** X8. The closure of [StopListening] does nothing unless the device is
    listening; when it is, it sends [SendStopListening] exactly once and
    ends in Idle, with the decode queue as it was. *)
Theorem StopListening_acts_only_when_listening
    (board : Collaborators) (env : Ambient) (a : Application) :
  (device_state_ a <> kDeviceStateListening ->
   run_StopListening board env a = a) /\
  (device_state_ a = kDeviceStateListening ->
   device_state_ (run_StopListening board env a) = kDeviceStateIdle /\
   filter is_stop_listening (effects (run_StopListening board env a))
     = filter is_stop_listening (effects a) ++ [Protocol_SendStopListening] /\
   audio_decode_queue_ (run_StopListening board env a)
     = audio_decode_queue_ a).
Proof.
  split.
  { intros Hs. unfold run_StopListening.
    destruct (device_state_ a); congruence. }
  intros Hs. unfold run_StopListening. rewrite Hs.
  set (a1 := call Protocol_SendStopListening a).
  assert (Hne : device_state_ a1 <> kDeviceStateIdle).
  { subst a1. cbn [device_state_ call]. rewrite Hs. discriminate. }
  split; [apply SetDeviceState_state|].
  split.
  - rewrite (transition_calls_filtered is_stop_listening
               (SetDeviceState board kDeviceStateIdle env) a1
               transition_not_stop_listening
               (adds_SetDeviceState board _ _)).
    subst a1. cbn [effects call]. rewrite filter_app. reflexivity.
  - destruct (SetDeviceState_queue board kDeviceStateIdle env a1 Hne)
      as [_ Hkeep].
    destruct Hkeep as [H _]; try discriminate. exact H.
Qed.

(** X9. An output tick turns the codec output off in one situation only:
    decode queue empty, state Idle and at least eleven seconds since the
    last output. In any other situation no [EnableOutput(false)] is
    called. *)
Theorem OutputAudio_disables_only_on_idle_silence
    (now : Z) (a : Application) :
  ~ (audio_decode_queue_ a = [] /\
     device_state_ a = kDeviceStateIdle /\
     11 * one_second <= now - last_output_time_ a) ->
  filter is_output_disable (effects (OutputAudio now a))
  = filter is_output_disable (effects a).
Proof.
  intros Hnot. unfold OutputAudio.
  destruct (audio_decode_queue_ a) as [|opus rest] eqn:Hq.
  - destruct (device_state_ a) eqn:Hs; try reflexivity.
    destruct (max_silence_seconds <? _) eqn:E; [|reflexivity].
    exfalso. apply Hnot. apply duration_cast_seconds_spec in E. auto.
  - destruct (device_state_ a); try reflexivity;
      unfold seq, background_Schedule;
      destruct (BackgroundTask.Schedule_warns _); cbn [effects call
        set_background_task_ set_audio_decode_queue_ set_last_output_time_];
      rewrite ?filter_app; cbn; rewrite ?app_nil_r; reflexivity.
Qed.

Lemma OutputAudio_disables_only_on_idle_silence_witness :
  filter is_output_disable
    (effects (OutputAudio (20 * one_second) Specimen.speaking))
  = filter is_output_disable (effects Specimen.speaking).
Proof.
  apply (OutputAudio_disables_only_on_idle_silence (20 * one_second)
           Specimen.speaking).
  intros (H & _). discriminate H.
Defined.

(** ** The executor: order and progress *)

Lemma one_submitted_reachable : BackgroundTask.reachable one_submitted.
Proof.
  apply (BackgroundTask.reachable_step BackgroundTask.boot
           (BackgroundTask.LSchedule 7%nat));
    [apply BackgroundTask.reachable_boot|].
  apply (BackgroundTask.step_schedule nat BackgroundTask.boot 7%nat).
  reflexivity.
Qed.

(** X10. The executor runs closures in submission order: in every state
    it can reach, the callbacks that have returned are an initial
    segment of the callbacks submitted, and what follows that segment is
    exactly what the worker still has in hand, then the queue. *)
Theorem closures_return_in_submission_order
    (Callback : Type) (s : BackgroundTask.System Callback) :
  BackgroundTask.reachable s ->
  BackgroundTask.submitted s
  = BackgroundTask.returned s ++ not_yet_returned s.
Proof.
  intros Hreach.
  pose proof (BackgroundTaskFacts.reachable_invariant _ s Hreach) as Hinv.
  pose proof (BackgroundTask.histories _ Hinv) as Hh.
  unfold BackgroundTask.histories_agree in Hh. unfold not_yet_returned.
  destruct (BackgroundTask.worker s) as [|l|l]; cbn [BackgroundTask.batch].
  - exact Hh.
  - destruct Hh as [_ Hs]. exact Hs.
  - destruct Hh as (cb & rest & done & -> & Hr & Hs).
    rewrite Hs, Hr. cbn [tl]. rewrite <- !app_assoc. reflexivity.
Qed.

Lemma closures_return_in_submission_order_witness :
  BackgroundTask.submitted one_submitted
  = BackgroundTask.returned one_submitted ++ not_yet_returned one_submitted.
Proof.
  apply (closures_return_in_submission_order nat one_submitted).
  exact one_submitted_reachable.
Defined.

(** X11. The wait is never stuck for good: from every state the executor
    can reach, the worker's own actions (taking the queue, running each
    callback, counting it out) lead to a state where the completion
    predicate holds, every callback submitted so far has returned, and
    the caller of [WaitForCompletion] is awake or was never asleep, so
    its return is enabled. *)
Theorem executor_reaches_completion
    (Callback : Type) (s : BackgroundTask.System Callback) :
  BackgroundTask.reachable s ->
  exists s',
    BackgroundTask.steps s s' /\
    BackgroundTask.completed (BackgroundTask.object s') = true /\
    BackgroundTask.returned s' = BackgroundTask.submitted s /\
    BackgroundTask.waiter s' <> BackgroundTask.Asleep.
Proof. exact (BackgroundTaskFacts.worker_drains Callback s). Qed.

Lemma executor_reaches_completion_witness :
  exists s',
    BackgroundTask.steps one_submitted s' /\
    BackgroundTask.completed (BackgroundTask.object s') = true /\
    BackgroundTask.returned s' = BackgroundTask.submitted one_submitted /\
    BackgroundTask.waiter s' <> BackgroundTask.Asleep.
Proof.
  apply (executor_reaches_completion nat one_submitted).
  exact one_submitted_reachable.
Defined.



(** ** The prompt player on buffers that are not well formed *)

Section PromptEdges.

Variable board : Collaborators.
Variable layout : BinaryProtocol3.

Lemma PlayLocalFile_loop_frames_then frames : forall fuel a tail,
  Forall (well_formed layout) frames ->
  (List.length (List.concat (map serialize frames) ++ tail) <= fuel)%nat ->
  exists fuel',
    (List.length tail <= fuel')%nat /\
    PlayLocalFile_loop layout fuel
      (List.concat (map serialize frames) ++ tail) a
    = PlayLocalFile_loop layout fuel' tail
        (set_audio_decode_queue_
           (audio_decode_queue_ a ++ map payload frames) a).
Proof.
  induction frames as [|f rest IH]; intros fuel a tail Hwf Hfuel.
  - exists fuel. split; [exact Hfuel|]. cbn [map List.concat app].
    rewrite app_nil_r. destruct a; reflexivity.
  - inversion Hwf as [|f' rest' Hf Hrest]; subst.
    pose proof (well_formed_header_size layout f Hf) as Hsize.
    cbn [map List.concat] in *. rewrite <- app_assoc in *.
    set (more := List.concat (map serialize rest) ++ tail) in *.
    destruct (load_payload_size layout f more Hf) as (field & Hload & Hfield).
    destruct Hf as [Hlen Hdecl].
    assert (Hlength : List.length (serialize f ++ more)
                      = (sizeof layout + List.length (payload f)
                         + List.length more)%nat).
    { unfold serialize. rewrite !length_app, Hlen. reflexivity. }
    destruct (serialize f ++ more) as [|b bs] eqn:Ebuf.
    { cbn [List.length] in Hlength. lia. }
    destruct fuel as [|fuel]; [cbn [List.length] in Hfuel; lia|].
    cbn [PlayLocalFile_loop]. rewrite Hload, Hfield.
    rewrite <- Ebuf in *. clear Ebuf b bs.
    assert (Hskip : skipn (sizeof layout) (serialize f ++ more)
                    = payload f ++ more).
    { unfold serialize. rewrite <- app_assoc, <- Hlen.
      rewrite skipn_app, skipn_all, Nat.sub_diag. reflexivity. }
    rewrite Hskip.
    replace (List.length (serialize f ++ more) <? sizeof layout)%nat
      with false by (symmetry; apply Nat.ltb_ge; lia).
    replace (List.length (payload f ++ more) <? List.length (payload f))%nat
      with false
      by (symmetry; apply Nat.ltb_ge; rewrite length_app; lia).
    rewrite firstn_app, firstn_all, Nat.sub_diag, app_nil_r.
    rewrite skipn_app, skipn_all, Nat.sub_diag. cbn [skipn app].
    destruct (IH fuel
                (set_audio_decode_queue_
                   (audio_decode_queue_ a ++ [payload f]) a)
                tail Hrest) as (fuel' & Hfuel' & E).
    { subst more. lia. }
    exists fuel'. split; [exact Hfuel'|].
    subst more. rewrite E.
    cbn [audio_decode_queue_ set_audio_decode_queue_].
    rewrite <- app_assoc. reflexivity.
Qed.

(** A proper, non-empty initial part of a record stops the loop outside
    the buffer. *)
Lemma PlayLocalFile_loop_truncated f k fuel a :
  well_formed layout f ->
  (0 < k < List.length (serialize f))%nat ->
  (k <= fuel)%nat ->
  PlayLocalFile_loop layout fuel (firstn k (serialize f)) a = OutOfBounds.
Proof.
  intros Hf [Hk0 Hk] Hfuel.
  pose proof (well_formed_header_size layout f Hf) as Hsize.
  destruct (load_payload_size layout f [] Hf) as (field & Hload & Hfield).
  rewrite app_nil_r in Hload.
  destruct Hf as [Hlen Hdecl].
  assert (Hl : List.length (firstn k (serialize f)) = k).
  { rewrite length_firstn. lia. }
  destruct (firstn k (serialize f)) as [|b bs] eqn:Ebuf.
  { cbn [List.length] in Hl. lia. }
  destruct fuel as [|fuel]; [lia|].
  cbn [PlayLocalFile_loop]. rewrite <- Ebuf in *. clear Ebuf b bs.
  destruct (S (offsetof_payload_size layout) <? k)%nat eqn:E1.
  - apply Nat.ltb_lt in E1.
    assert (Hsame : load_uint16 (firstn k (serialize f))
                      (offsetof_payload_size layout)
                    = load_uint16 (serialize f)
                        (offsetof_payload_size layout)).
    { unfold load_uint16. rewrite !nth_error_firstn.
      replace (offsetof_payload_size layout <? k)%nat with true
        by (symmetry; apply Nat.ltb_lt; lia).
      replace (S (offsetof_payload_size layout) <? k)%nat with true
        by (symmetry; apply Nat.ltb_lt; lia).
      reflexivity. }
    rewrite Hsame, Hload, Hfield, Hl.
    destruct (k <? sizeof layout)%nat eqn:E2; [reflexivity|].
    apply Nat.ltb_ge in E2.
    replace (List.length (skipn (sizeof layout) (firstn k (serialize f)))
             <? List.length (payload f))%nat with true; [reflexivity|].
    symmetry. apply Nat.ltb_lt. rewrite length_skipn, Hl.
    unfold serialize in Hk. rewrite length_app, Hlen in Hk. lia.
  - assert (Hnone : load_uint16 (firstn k (serialize f))
                      (offsetof_payload_size layout) = None).
    { unfold load_uint16. rewrite !nth_error_firstn, E1.
      destruct (offsetof_payload_size layout <? k)%nat;
        [destruct (nth_error (serialize f) (offsetof_payload_size layout))|];
        reflexivity. }
    rewrite Hnone. reflexivity.
Qed.

(** With a header of at least one byte every pass of the loop moves [p]
    forward, so the fuel of the model is never what stops it. *)
Lemma PlayLocalFile_loop_ends fuel : forall rest a,
  (0 < sizeof layout)%nat ->
  (List.length rest <= fuel)%nat ->
  PlayLocalFile_loop layout fuel rest a <> OutOfFuel.
Proof.
  induction fuel as [|fuel IH]; intros rest a Hpos Hfuel.
  - destruct rest; [discriminate | cbn [List.length] in Hfuel; lia].
  - destruct rest as [|b rest]; [discriminate|].
    cbn [PlayLocalFile_loop].
    destruct (load_uint16 _ _); [|discriminate].
    destruct (List.length (b :: rest) <? sizeof layout)%nat eqn:E1;
      [discriminate|].
    match goal with
    | |- context [if ?c then _ else _] => destruct c; [discriminate|]
    end.
    apply IH; [exact Hpos|].
    apply Nat.ltb_ge in E1. rewrite !length_skipn. lia.
Qed.

End PromptEdges.

(** X13. The prompt player checks no bound: when the buffer ends in the
    middle of a record (after any number of whole records, a non-empty
    proper initial part of one more), the loop goes on to read or to
    move its pointer beyond the end of the buffer instead of stopping at
    the last whole record. *)
Theorem PlayLocalFile_overruns_a_truncated_record
    (board : Collaborators) (layout : BinaryProtocol3)
    (frames : list PromptFrame) (f : PromptFrame) (k : nat)
    (a : Application) :
  Forall (well_formed layout) frames ->
  well_formed layout f ->
  (0 < k < List.length (serialize f))%nat ->
  PlayLocalFile board layout
    (List.concat (map serialize frames) ++ firstn k (serialize f)) a
  = OutOfBounds.
Proof.
  intros Hwf Hf Hk. unfold PlayLocalFile.
  destruct (PlayLocalFile_loop_frames_then layout frames
              (S (List.length
                    (List.concat (map serialize frames)
                     ++ firstn k (serialize f))))
              (SetDecodeSampleRate board 16000
                 (call (ESP_LOGI TAG "PlayLocalFile: %zu bytes"
                          [ArgNumber
                             (Z.of_nat
                                (List.length
                                   (List.concat (map serialize frames)
                                    ++ firstn k (serialize f))))]) a))
              (firstn k (serialize f)) Hwf) as (fuel' & Hfuel' & E).
  { lia. }
  rewrite E. apply PlayLocalFile_loop_truncated; try assumption.
  rewrite length_firstn in Hfuel'. lia.
Qed.

Lemma PlayLocalFile_overruns_a_truncated_record_witness :
  PlayLocalFile Specimen.board Specimen.layout
    (List.concat (map serialize [prompt_320])
     ++ firstn 100 (serialize prompt_280)) Specimen.idle
  = OutOfBounds.
Proof.
  apply (PlayLocalFile_overruns_a_truncated_record Specimen.board
           Specimen.layout [prompt_320] prompt_280 100 Specimen.idle).
  - repeat constructor.
  - repeat constructor.
  - cbn. lia.
Defined.

(** X14. The parsing loop of the prompt player ends on every buffer as
    soon as the fixed header has at least one byte: each pass consumes
    the header, so the call either returns or runs off the buffer; the
    fuel of the model never runs out. *)
Theorem PlayLocalFile_ends
    (board : Collaborators) (layout : BinaryProtocol3)
    (data : list byte) (a : Application) :
  (0 < sizeof layout)%nat ->
  PlayLocalFile board layout data a <> OutOfFuel.
Proof.
  intros Hpos. unfold PlayLocalFile.
  apply PlayLocalFile_loop_ends; [exact Hpos | lia].
Qed.

Lemma PlayLocalFile_ends_witness :
  PlayLocalFile Specimen.board Specimen.layout [x01; x02; x03] Specimen.idle
  <> OutOfFuel.
Proof.
  apply (PlayLocalFile_ends Specimen.board Specimen.layout [x01; x02; x03]
           Specimen.idle).
  cbn. lia.
Defined.

(* ===================================================================== *)
(** * Facts about start-up and about the input pipeline                   *)
(* ===================================================================== *)

(** X15. [app_main] launches the application exactly when the event loop
    was created and the flash store was initialised, at once or after an
    erasure; it erases the store exactly when the first initialisation
    reports no free pages or a new version, never after any other
    failure; it initialises the store at most twice, and every failure
    it does not repair aborts before the application is launched. *)
Theorem app_main_start_up
    (loop_created init_first erased init_second : esp_err_t) :
  (launched (app_main loop_created init_first erased init_second) = true
   <-> loop_created = ESP_OK /\
       (init_first = ESP_OK \/
        (needs_erase init_first = true /\ erased = ESP_OK /\
         init_second = ESP_OK))) /\
  (In nvs_flash_erase
      (boot_calls (app_main loop_created init_first erased init_second))
   <-> loop_created = ESP_OK /\ needs_erase init_first = true) /\
  (List.length
     (filter is_nvs_flash_init
        (boot_calls (app_main loop_created init_first erased init_second)))
   <= 2)%nat /\
  (In Application_Start
      (boot_calls (app_main loop_created init_first erased init_second))
   <-> launched (app_main loop_created init_first erased init_second)
       = true).
Proof.
  destruct loop_created, init_first, erased, init_second; cbn;
    repeat split; intros; try lia; try discriminate; try tauto;
    repeat match goal with
           | H : _ /\ _ |- _ => destruct H
           | H : _ \/ _ |- _ => destruct H
           end; try discriminate; try tauto.
Qed.

(** ** Stereo blocks *)

Lemma pairwise_induction (P : Pcm -> Prop) :
  P [] -> (forall x, P [x]) ->
  (forall x y rest, P rest -> P (x :: y :: rest)) ->
  forall l, P l.
Proof.
  intros H0 H1 H2 l.
  assert (H : P l /\ forall x, P (x :: l)).
  { induction l as [|y l [IH1 IH2]]; [auto|].
    split; [apply IH2|]. intros x. apply H2. exact IH1. }
  exact (proj1 H).
Qed.

Lemma half_length_cons2 (x y : Z) (rest : Pcm) :
  (List.length (x :: y :: rest) / 2 = S (List.length rest / 2))%nat.
Proof.
  cbn [List.length].
  replace (S (S (List.length rest))) with (List.length rest + 1 * 2)%nat
    by lia.
  rewrite Nat.div_add by lia. lia.
Qed.

Lemma mic_channel_frames data :
  mic_channel data = map fst (stereo_frames data).
Proof.
  induction data as [|x|x y rest IH] using pairwise_induction;
    [reflexivity | reflexivity |].
  unfold mic_channel in *. rewrite half_length_cons2.
  cbn [List.seq map stereo_frames fst]. f_equal.
  rewrite <- seq_shift, map_map, <- IH.
  apply map_ext. intros i.
  replace (2 * S i)%nat with (S (S (2 * i))) by lia. reflexivity.
Qed.

Lemma reference_channel_frames data :
  reference_channel data = map snd (stereo_frames data).
Proof.
  induction data as [|x|x y rest IH] using pairwise_induction;
    [reflexivity | reflexivity |].
  unfold reference_channel in *. rewrite half_length_cons2.
  cbn [List.seq map stereo_frames snd]. f_equal.
  rewrite <- seq_shift, map_map, <- IH.
  apply map_ext. intros i.
  replace (2 * S i + 1)%nat with (S (S (2 * i + 1))) by lia. reflexivity.
Qed.

Lemma stereo_frames_weave frames : stereo_frames (weave frames) = frames.
Proof.
  induction frames as [|[m r] frames IH]; [reflexivity|].
  cbn. unfold weave in IH. rewrite IH. reflexivity.
Qed.

Lemma weave_stereo_frames data :
  weave (stereo_frames data) = firstn (2 * (List.length data / 2)) data.
Proof.
  induction data as [|x|x y rest IH] using pairwise_induction;
    [reflexivity | reflexivity |].
  rewrite half_length_cons2.
  replace (2 * S (List.length rest / 2))%nat
    with (S (S (2 * (List.length rest / 2)))) by lia.
  cbn [stereo_frames firstn]. unfold weave in *. cbn [flat_map fst snd app].
  rewrite IH. reflexivity.
Qed.

Lemma length_weave frames :
  List.length (weave frames) = (2 * List.length frames)%nat.
Proof.
  induction frames as [|p frames IH]; [reflexivity|].
  unfold weave in *. cbn [flat_map List.length app]. rewrite IH. lia.
Qed.

(** The writes of the second loop, pair by pair. *)
Lemma interleave_loop mic : forall ref,
  (List.length mic <= List.length ref)%nat ->
  flat_map (fun i => [nth i mic 0; nth i ref 0])
    (List.seq 0 (List.length mic))
  = weave (combine mic ref).
Proof.
  induction mic as [|m mic IH]; intros ref Hlen; [reflexivity|].
  destruct ref as [|r ref]; [cbn [List.length] in Hlen; lia|].
  cbn [List.length List.seq flat_map combine]. unfold weave.
  cbn [flat_map fst snd nth app]. do 2 f_equal.
  rewrite <- seq_shift, flat_map_concat_map, map_map,
    <- flat_map_concat_map.
  cbn [nth]. apply IH. cbn [List.length] in Hlen. lia.
Qed.

Lemma length_resize n v : List.length (resize n v) = n.
Proof.
  unfold resize. rewrite length_app, length_firstn, repeat_length. lia.
Qed.

Lemma interleave_equal_lengths mic ref data :
  List.length ref = List.length mic ->
  interleave mic ref data = Some (weave (combine mic ref)).
Proof.
  intros Hlen. unfold interleave.
  replace (List.length ref <? List.length mic)%nat with false
    by (symmetry; apply Nat.ltb_ge; lia).
  rewrite interleave_loop by lia.
  rewrite skipn_all2 by (rewrite length_resize; lia).
  rewrite app_nil_r. reflexivity.
Qed.

Lemma map_fst_combine (mic ref : Pcm) :
  List.length ref = List.length mic -> map fst (combine mic ref) = mic.
Proof.
  revert ref. induction mic as [|m mic IH]; intros [|r ref] H;
    try discriminate; [reflexivity|].
  cbn. rewrite IH; [reflexivity|]. cbn in H. lia.
Qed.

Lemma map_snd_combine (mic ref : Pcm) :
  List.length ref = List.length mic -> map snd (combine mic ref) = ref.
Proof.
  revert ref. induction mic as [|m mic IH]; intros [|r ref] H;
    try discriminate; [reflexivity|].
  cbn. rewrite IH; [reflexivity|]. cbn in H. lia.
Qed.

(** X16. When the two input resamplers return blocks of the same length,
    the stereo branch of [InputAudio] builds a block of twice that
    length whose even samples are the resampled microphone channel and
    whose odd samples are the resampled reference channel, whatever the
    captured block held before: splitting the result as the first loop
    does gives the two channels back. *)
Theorem interleave_keeps_both_channels (mic ref data : Pcm) :
  List.length ref = List.length mic ->
  exists block,
    interleave mic ref data = Some block /\
    List.length block = (2 * List.length mic)%nat /\
    mic_channel block = mic /\
    reference_channel block = ref.
Proof.
  intros Hlen. exists (weave (combine mic ref)).
  split; [exact (interleave_equal_lengths mic ref data Hlen)|].
  split.
  - rewrite length_weave, length_combine. lia.
  - rewrite mic_channel_frames, reference_channel_frames,
      stereo_frames_weave.
    split; [apply map_fst_combine | apply map_snd_combine]; exact Hlen.
Qed.

Lemma interleave_keeps_both_channels_witness :
  exists block,
    interleave [1; 2; 3] [10; 20; 30] [7; 7; 7; 7; 7; 7; 7; 7; 7]
      = Some block /\
    List.length block = (2 * List.length [1; 2; 3])%nat /\
    mic_channel block = [1; 2; 3] /\
    reference_channel block = [10; 20; 30].
Proof.
  apply (interleave_keeps_both_channels [1; 2; 3] [10; 20; 30]
           [7; 7; 7; 7; 7; 7; 7; 7; 7]).
  reflexivity.
Defined.

(** X17. Splitting a captured block into its two channels and putting
    them together again, as the stereo branch does around the
    resamplers, gives the block back without the sample that had no
    partner: a block of even length comes back unchanged. *)
Theorem split_then_interleave (data scratch : Pcm) :
  interleave (mic_channel data) (reference_channel data) scratch
    = Some (firstn (2 * (List.length data / 2)) data) /\
  (Nat.even (List.length data) = true ->
   interleave (mic_channel data) (reference_channel data) scratch
     = Some data).
Proof.
  assert (H : interleave (mic_channel data) (reference_channel data) scratch
              = Some (firstn (2 * (List.length data / 2)) data)).
  { rewrite interleave_equal_lengths.
    - rewrite mic_channel_frames, reference_channel_frames.
      rewrite <- weave_stereo_frames. do 2 f_equal.
      induction (stereo_frames data) as [|[m r] l IH]; [reflexivity|].
      cbn. rewrite IH. reflexivity.
    - unfold mic_channel, reference_channel. rewrite !length_map.
      reflexivity. }
  split; [exact H|].
  intros Heven. rewrite H. apply f_equal. apply firstn_all2.
  apply Nat.even_spec in Heven. destruct Heven as [k Hk]. rewrite Hk.
  rewrite (Nat.mul_comm 2 k), Nat.div_mul by lia. lia.
Qed.

(* ===================================================================== *)
(** * Facts about the input pipeline and the main loop                    *)
(* ===================================================================== *)

(** X18. [InputAudio] never changes a data member of the core nor the
    main loop's queue. Built for the ESP32-S3 it leaves the whole core as
    it is and hands the block to the audio processor and to the
    wake-word detector, to each only if it is running, in that order.
    Built for another chip it calls neither; it submits one encode
    closure for the block, after the closures already queued, when the
    device is listening, and does nothing at all in any other state. *)
Theorem InputAudio_routes_the_block
    (board : Collaborators) (cap : CaptureCodec) (reading : CaptureReading)
    (a a' : Application) (calls : list ShellCall) :
  InputAudio board cap reading a = Some (a', calls) ->
  members a' = members a /\
  main_tasks_ a' = main_tasks_ a /\
  (InputData reading = None -> a' = a /\ calls = []) /\
  (CONFIG_IDF_TARGET_ESP32S3 board = true ->
   a' = a /\
   forall captured data,
     InputData reading = Some captured ->
     resample_input cap captured = Some data ->
     calls = (if audio_processor_IsRunning reading
              then [AudioProcessor_Input data] else [])
             ++ (if wake_word_IsDetectionRunning reading
                 then [WakeWord_Feed data] else [])) /\
  (CONFIG_IDF_TARGET_ESP32S3 board = false ->
   calls = [] /\
   (device_state_ a <> kDeviceStateListening -> a' = a) /\
   forall captured data,
     device_state_ a = kDeviceStateListening ->
     InputData reading = Some captured ->
     resample_input cap captured = Some data ->
     BackgroundTask.main_tasks_ (background_task_ a')
       = BackgroundTask.main_tasks_ (background_task_ a)
         ++ [EncodeClosure data]).
Proof.
  unfold InputAudio. intros H.
  destruct (InputData reading) as [captured|] eqn:Ein.
  2:{ injection H as <- <-. repeat split; auto; try discriminate;
      intros; discriminate. }
  destruct (resample_input cap captured) as [data|] eqn:Er;
    [|discriminate H].
  destruct (CONFIG_IDF_TARGET_ESP32S3 board) eqn:Ec.
  - injection H as <- <-.
    split; [reflexivity|]. split; [reflexivity|].
    split; [discriminate|]. split; [|discriminate].
    intros _. split; [reflexivity|].
    intros c d Hc Hd. injection Hc as <-. rewrite Er in Hd.
    injection Hd as <-. reflexivity.
  - assert (Hsub : members (background_Schedule (EncodeClosure data) a)
                     = members a /\
                   main_tasks_ (background_Schedule (EncodeClosure data) a)
                     = main_tasks_ a /\
                   BackgroundTask.main_tasks_
                     (background_task_
                        (background_Schedule (EncodeClosure data) a))
                     = BackgroundTask.main_tasks_ (background_task_ a)
                       ++ [EncodeClosure data]).
    { unfold background_Schedule.
      destruct (BackgroundTask.Schedule_warns (background_task_ a));
        repeat split; reflexivity. }
    destruct Hsub as (Hm & Hq & Hb).
    destruct (device_state_ a) eqn:Es; injection H as <- <-;
      (split; [first [reflexivity | exact Hm]|]);
      (split; [first [reflexivity | exact Hq]|]);
      (split; [discriminate|]); (split; [discriminate|]);
      intros _; (split; [reflexivity|]);
      (split; [first [intros _; reflexivity | intros Hx; congruence]|]);
      intros c d Hs Hc Hd; try discriminate Hs.
    injection Hc as <-. rewrite Er in Hd. injection Hd as <-. exact Hb.
Qed.

Lemma InputAudio_routes_the_block_witness :
  InputAudio Specimen.board
    {| input_sample_rate := 16000; input_channels := 1;
       input_resampler_ := fun p => p; reference_resampler_ := fun p => p |}
    {| InputData := Some [1; 2; 3]; audio_processor_IsRunning := false;
       wake_word_IsDetectionRunning := false |}
    Specimen.listening
  = Some (background_Schedule (EncodeClosure [1; 2; 3]) Specimen.listening,
          [])
  /\ members (background_Schedule (EncodeClosure [1; 2; 3])
                Specimen.listening)
     = members Specimen.listening.
Proof.
  assert (H : InputAudio Specimen.board
    {| input_sample_rate := 16000; input_channels := 1;
       input_resampler_ := fun p => p; reference_resampler_ := fun p => p |}
    {| InputData := Some [1; 2; 3]; audio_processor_IsRunning := false;
       wake_word_IsDetectionRunning := false |}
    Specimen.listening
  = Some (background_Schedule (EncodeClosure [1; 2; 3]) Specimen.listening,
          [])) by reflexivity.
  split; [exact H|].
  exact (proj1 (InputAudio_routes_the_block _ _ _ _ _ _ H)).
Defined.

Section Passes.

Variable board : Collaborators.

Lemma schedule_packets_main_tasks (packets : list AudioFrame) : forall a,
  main_tasks_
    (fold_left (fun acc opus => Schedule (SendAudioClosure opus) acc)
       packets a)
  = main_tasks_ a ++ map SendAudioClosure packets.
Proof.
  induction packets as [|opus rest IH]; intros a; simpl.
  - rewrite app_nil_r. reflexivity.
  - rewrite IH. unfold Schedule. cbn [main_tasks_ set_main_tasks_].
    rewrite <- app_assoc. reflexivity.
Qed.

(** A batch of [SendAudio] closures hands its packets to the transport
    in order and touches nothing else. *)
Lemma run_tasks_sends (envs : nat -> Ambient) (packets : list AudioFrame) :
  forall i a,
    run_tasks board envs i (map SendAudioClosure packets) a
    = mkApplication (device_state_ a) (keep_listening_ a) (aborted_ a)
        (opus_decode_sample_rate_ a) (audio_decode_queue_ a)
        (last_output_time_ a) (last_iot_states_ a) (main_tasks_ a)
        (background_task_ a)
        (effects a ++ map Protocol_SendAudio packets).
Proof.
  induction packets as [|opus rest IH]; intros i a; simpl.
  - rewrite app_nil_r. destruct a; reflexivity.
  - rewrite IH. unfold call. cbn. rewrite <- app_assoc. reflexivity.
Qed.

End Passes.

(** X19. From the microphone to the transport, on a chip other than the
    ESP32-S3 with a codec that captures at 16 kHz: while the device is
    listening and the executor is idle, a captured block is submitted
    as it is, the worker encodes it, and the next pass of the main loop
    that finds [SCHEDULE_EVENT] sends the packets that were already
    queued and then the encoder's packets, each once and in the
    encoder's order. The pass leaves the main loop's queue empty, and
    the three steps leave every data member and the executor as they
    were. *)
Theorem captured_block_reaches_the_transport
    (board : Collaborators) (cap : CaptureCodec)
    (reading later : CaptureReading) (now : Z) (envs : nat -> Ambient)
    (captured : Pcm) (queued : list AudioFrame) (a : Application) :
  CONFIG_IDF_TARGET_ESP32S3 board = false ->
  input_sample_rate cap = 16000 ->
  device_state_ a = kDeviceStateListening ->
  background_task_ a = BackgroundTask.create ->
  main_tasks_ a = map SendAudioClosure queued ->
  InputData reading = Some captured ->
  exists a1 a2 a3,
    InputAudio board cap reading a = Some (a1, []) /\
    worker_runs_next board a1 = Some a2 /\
    MainLoop_pass board cap only_SCHEDULE later now envs a2
      = Some (a3, []) /\
    effects a1 = effects a /\
    effects a2 = effects a ++ [OpusEncoder_Encode captured] /\
    effects a3
      = effects a2
        ++ map Protocol_SendAudio (queued ++ Encode board captured) /\
    main_tasks_ a3 = [] /\
    members a3 = members a /\
    background_task_ a3 = background_task_ a.
Proof.
  intros Hc Hrate Hs Hbg Hq Hin.
  assert (E1 : InputAudio board cap reading a
               = Some (background_Schedule (EncodeClosure captured) a, [])).
  { unfold InputAudio, resample_input. rewrite Hin, Hrate, Hc, Hs.
    reflexivity. }
  set (a1 := background_Schedule (EncodeClosure captured) a) in *.
  assert (Ha1 : a1 = set_background_task_
                       (BackgroundTask.mk [EncodeClosure captured] 1) a).
  { subst a1. unfold background_Schedule. rewrite Hbg. reflexivity. }
  set (a2 := run_wrapper board (EncodeClosure captured)
               (set_background_task_ (BackgroundTask.mk [] 1) a)).
  assert (E2 : worker_runs_next board a1 = Some a2).
  { rewrite Ha1. reflexivity. }
  assert (Hpk := schedule_packets_main_tasks (Encode board captured)
                   (call (OpusEncoder_Encode captured)
                      (set_background_task_ (BackgroundTask.mk [] 1) a))).
  assert (Hef := schedule_packets_effects (Encode board captured)
                   (call (OpusEncoder_Encode captured)
                      (set_background_task_ (BackgroundTask.mk [] 1) a))).
  destruct (schedule_packets_members (Encode board captured)
              (call (OpusEncoder_Encode captured)
                 (set_background_task_ (BackgroundTask.mk [] 1) a)))
    as [Hmem Hbk].
  assert (Hm2 : members a2 = members a) by exact Hmem.
  assert (He2 : effects a2 = effects a ++ [OpusEncoder_Encode captured])
    by exact Hef.
  assert (Hq2 : main_tasks_ a2
                = map SendAudioClosure (queued ++ Encode board captured)).
  { subst a2. unfold run_wrapper. cbn [main_tasks_ set_background_task_].
    cbn [run_callback]. unfold run_EncodeClosure. rewrite Hpk.
    cbn [main_tasks_ call set_background_task_]. rewrite Hq, map_app.
    reflexivity. }
  assert (Hb2 : background_task_ a2 = BackgroundTask.create).
  { subst a2. unfold run_wrapper. cbn [background_task_ set_background_task_].
    cbn [run_callback]. unfold run_EncodeClosure. rewrite Hbk. reflexivity. }
  exists a1, a2.
  eexists. split; [exact E1|]. split; [exact E2|].
  split.
  { unfold MainLoop_pass, only_SCHEDULE.
    cbn [AUDIO_INPUT_READY_EVENT AUDIO_OUTPUT_READY_EVENT SCHEDULE_EVENT].
    rewrite Hq2, run_tasks_sends. reflexivity. }
  cbn [effects main_tasks_ background_task_ set_main_tasks_ members
       device_state_ keep_listening_ aborted_ opus_decode_sample_rate_
       audio_decode_queue_ last_output_time_ last_iot_states_].
  split; [rewrite Ha1; reflexivity|].
  split; [exact He2|]. split; [reflexivity|]. split; [reflexivity|].
  split; [exact Hm2|]. rewrite Hb2, Hbg. reflexivity.
Qed.

Lemma captured_block_reaches_the_transport_witness :
  exists a1 a2 a3,
    InputAudio SpecimenInput.board SpecimenInput.codec SpecimenInput.reading
      SpecimenInput.listening = Some (a1, []) /\
    worker_runs_next SpecimenInput.board a1 = Some a2 /\
    MainLoop_pass SpecimenInput.board SpecimenInput.codec only_SCHEDULE
      SpecimenInput.nothing 5 (fun _ => Specimen.env) a2 = Some (a3, []) /\
    effects a1 = [] /\
    effects a2 = [OpusEncoder_Encode SpecimenInput.block] /\
    effects a3
      = effects a2
        ++ [Protocol_SendAudio [x07]; Protocol_SendAudio [x2a];
            Protocol_SendAudio [x2a]] /\
    main_tasks_ a3 = [] /\
    members a3 = members SpecimenInput.listening /\
    background_task_ a3 = BackgroundTask.create.
Proof.
  exact (captured_block_reaches_the_transport
           SpecimenInput.board SpecimenInput.codec SpecimenInput.reading
           SpecimenInput.nothing 5 (fun _ => Specimen.env)
           SpecimenInput.block [[x07]] SpecimenInput.listening
           eq_refl eq_refl eq_refl eq_refl eq_refl eq_refl).
Defined.

(* ===================================================================== *)
(** * Facts about the control messages                                    *)
(* ===================================================================== *)


Section MoreLifecycle.

Variable board : Collaborators.

Lemma state_entry_keeps state env a :
  keep_listening_ (state_entry board state env a) = keep_listening_ a /\
  opus_decode_sample_rate_ (state_entry board state env a)
    = opus_decode_sample_rate_ a /\
  main_tasks_ (state_entry board state env a) = main_tasks_ a.
Proof.
  destruct state;
    unfold state_entry, ResetDecoder, audio_processor, UpdateIotStates,
      seq, skip;
    decide_tests; simpl; auto.
Qed.

Lemma SetDeviceState_keeps state env a :
  keep_listening_ (SetDeviceState board state env a) = keep_listening_ a /\
  opus_decode_sample_rate_ (SetDeviceState board state env a)
    = opus_decode_sample_rate_ a /\
  aborted_ (SetDeviceState board state env a) = aborted_ a.
Proof.
  destruct (adds_SetDeviceState board state env a) as [Hab _].
  unfold SetDeviceState in *.
  destruct (DeviceState_eqb (device_state_ a) state); [auto|].
  unfold seq in *.
  destruct (state_entry_keeps state env
              (call Led_OnStateChanged
                 (WaitForCompletion board
                    (log_state (set_device_state_ state a)))))
    as (H1 & H2 & _).
  rewrite H1, H2.
  destruct (members_fields _ _
              (WaitForCompletion_members board
                 (log_state (set_device_state_ state a))))
    as (_ & Hk & _ & Hr & _).
  cbn [keep_listening_ opus_decode_sample_rate_ call].
  rewrite Hk, Hr. auto.
Qed.

(** A change of state that takes place writes exactly one state line. *)
Lemma SetDeviceState_state_log state env a :
  device_state_ a <> state ->
  filter is_state_log (effects (SetDeviceState board state env a))
  = filter is_state_log (effects a) ++ [state_log state].
Proof.
  intros Hne.
  destruct (SetDeviceState_shape board state env a Hne)
    as (drained & barrier & side & Eb & Hd & _ & _ & _ & _ & Es & Hs).
  rewrite Es, Eb.
  change (Led_OnStateChanged :: side) with ([Led_OnStateChanged] ++ side).
  change (ESP_LOGI TAG "STATE: %s" [ArgString (STATE_STRINGS_at state)]
          :: drained ++ [BackgroundTask_WaitForCompletion])
    with ([state_log state] ++ drained ++ [BackgroundTask_WaitForCompletion]).
  rewrite !filter_app.
  rewrite (filter_none is_closure_effect is_state_log drained);
    [|intros e He; destruct e; simpl in *; congruence | exact Hd].
  rewrite (filter_none is_state_side_effect is_state_log side);
    [|intros e He; destruct e; simpl in *; congruence | exact Hs].
  cbn. rewrite !app_nil_r. reflexivity.
Qed.

End MoreLifecycle.

(** X21. A [tts] / [start] message takes effect only when the main loop
    runs its closure: the handler leaves the device state as it is, and
    the next pass that finds [SCHEDULE_EVENT] enters Speaking, which
    empties the decode queue. So a packet that the transport delivers
    after the message and before that pass is dropped, while the same
    packet delivered after the pass is queued. *)
Theorem audio_ahead_of_the_start_closure_is_dropped
    (board : Collaborators) (cap : CaptureCodec) (reading : CaptureReading)
    (now : Z) (envs : nat -> Ambient) (data : AudioFrame)
    (a : Application) :
  device_state_ a = kDeviceStateIdle \/
  device_state_ a = kDeviceStateListening ->
  main_tasks_ a = [] ->
  exists a1 a2,
    OnIncomingJson tts_start_message a = Some (a1, []) /\
    device_state_ a1 = device_state_ a /\
    OnIncomingAudio data a1 = a1 /\
    MainLoop_pass board cap only_SCHEDULE reading now envs a1
      = Some (a2, []) /\
    device_state_ a2 = kDeviceStateSpeaking /\
    aborted_ a2 = false /\
    audio_decode_queue_ a2 = [] /\
    audio_decode_queue_ (OnIncomingAudio data a2) = [data].
Proof.
  intros Hs Hq.
  exists (Schedule TtsStartClosure a).
  eexists. split; [reflexivity|]. split; [reflexivity|].
  split.
  { unfold OnIncomingAudio. cbn [device_state_ Schedule set_main_tasks_].
    destruct Hs as [-> | ->]; reflexivity. }
  split.
  { unfold MainLoop_pass, only_SCHEDULE.
    cbn [AUDIO_INPUT_READY_EVENT AUDIO_OUTPUT_READY_EVENT SCHEDULE_EVENT].
    unfold Schedule at 1. cbn [main_tasks_ set_main_tasks_]. rewrite Hq.
    cbn [app run_tasks run_closure]. reflexivity. }
  set (b := set_aborted_ false
              (set_main_tasks_ [] (Schedule TtsStartClosure a))).
  assert (Hb : device_state_ b <> kDeviceStateSpeaking).
  { subst b. cbn. destruct Hs as [-> | ->]; discriminate. }
  assert (Hrun : run_TtsStart board (envs 0%nat)
                   (set_main_tasks_ [] (Schedule TtsStartClosure a))
                 = SetDeviceState board kDeviceStateSpeaking (envs 0%nat) b).
  { unfold run_TtsStart. fold b.
    assert (E : device_state_ b = device_state_ a) by reflexivity.
    rewrite E. destruct Hs as [-> | ->]; reflexivity. }
  rewrite Hrun.
  destruct (SetDeviceState_queue board kDeviceStateSpeaking (envs 0%nat) b Hb)
    as [Hreset _].
  destruct (Hreset (or_intror eq_refl)) as (Hempty & _).
  destruct (SetDeviceState_keeps board kDeviceStateSpeaking (envs 0%nat) b)
    as (_ & _ & Hab).
  pose proof (SetDeviceState_state board kDeviceStateSpeaking (envs 0%nat) b)
    as Hst.
  split; [exact Hst|]. split; [rewrite Hab; reflexivity|].
  split; [exact Hempty|].
  unfold OnIncomingAudio. rewrite Hst.
  cbn [audio_decode_queue_ set_audio_decode_queue_]. rewrite Hempty.
  reflexivity.
Qed.

Lemma audio_ahead_of_the_start_closure_is_dropped_witness :
  exists a1 a2,
    OnIncomingJson tts_start_message Specimen.idle = Some (a1, []) /\
    device_state_ a1 = kDeviceStateIdle /\
    OnIncomingAudio Specimen.frame1 a1 = a1 /\
    MainLoop_pass Specimen.board SpecimenInput.codec only_SCHEDULE
      SpecimenInput.nothing 5 (fun _ => Specimen.env) a1 = Some (a2, []) /\
    device_state_ a2 = kDeviceStateSpeaking /\
    aborted_ a2 = false /\
    audio_decode_queue_ a2 = [] /\
    audio_decode_queue_ (OnIncomingAudio Specimen.frame1 a2)
      = [Specimen.frame1].
Proof.
  exact (audio_ahead_of_the_start_closure_is_dropped
           Specimen.board SpecimenInput.codec SpecimenInput.nothing 5
           (fun _ => Specimen.env) Specimen.frame1 Specimen.idle
           (or_introl eq_refl) eq_refl).
Defined.

(* ===================================================================== *)
(** * Facts about the control surface                                     *)
(* ===================================================================== *)

Section Surface.

Variable board : Collaborators.
Variable layout : BinaryProtocol3.
Variable assets : PromptAssets.

(** The alert for a channel that did not open plays no prompt. *)
Lemma Alert_channel_failure a :
  Alert board layout assets "Error" "Failed to open audio channel" a
  = (Finished
       (call (ESP_LOGW TAG "Alert: %s, %s"
                [ArgString "Error";
                 ArgString "Failed to open audio channel"]) a),
     [Display_ShowNotification "Failed to open audio channel"]).
Proof. reflexivity. Qed.

(** Two changes of state in a row, with calls in between that are no
    state lines. *)
Lemma two_transitions_logged s1 s2 env1 env2
    (between : Application -> Application) a :
  device_state_ a <> s1 ->
  s1 <> s2 ->
  (forall x, device_state_ (between x) = device_state_ x) ->
  (forall x, filter is_state_log (effects (between x))
             = filter is_state_log (effects x)) ->
  filter is_state_log
    (effects (SetDeviceState board s2 env2
                (between (SetDeviceState board s1 env1 a))))
  = filter is_state_log (effects a) ++ [state_log s1; state_log s2].
Proof.
  intros H1 H12 Hd Hf.
  rewrite SetDeviceState_state_log.
  - rewrite Hf, SetDeviceState_state_log by exact H1.
    rewrite <- app_assoc. reflexivity.
  - rewrite Hd, SetDeviceState_state. exact H12.
Qed.

End Surface.

(** X22. The closure of [ToggleChatState]. Without a transport it only
    logs an error. From Idle it logs Connecting and tries to open the
    audio channel: on success it sets [keep_listening_], sends
    [SendStartListening(AutoStop)] once and ends in Listening; on
    failure it shows the alert, plays no prompt, sends no
    [SendStartListening] and is back in Idle with [keep_listening_] and
    the decode queue as they were. While speaking it only aborts the reply, while listening it
    only closes the channel, and in every other state it does nothing:
    outside Idle the closure never changes the device state itself. *)
Theorem ToggleChatState_closure
    (board : Collaborators) (layout : BinaryProtocol3)
    (assets : PromptAssets) (opened : bool) (env1 env2 : Ambient)
    (a : Application) :
  run_ToggleChatState board layout assets false opened env1 env2 a
    = (Finished a, [ESP_LOGE TAG "Protocol not initialized"]) /\
  (device_state_ a = kDeviceStateIdle ->
   exists a',
     run_ToggleChatState board layout assets true opened env1 env2 a
       = (Finished a',
          Protocol_OpenAudioChannel
          :: (if opened then []
              else [Display_ShowNotification
                      "Failed to open audio channel"])) /\
     device_state_ a'
       = (if opened then kDeviceStateListening else kDeviceStateIdle) /\
     keep_listening_ a' = (opened || keep_listening_ a)%bool /\
     filter is_state_log (effects a')
       = filter is_state_log (effects a)
         ++ [state_log kDeviceStateConnecting;
             state_log (if opened then kDeviceStateListening
                        else kDeviceStateIdle)] /\
     filter is_start_listening (effects a')
       = filter is_start_listening (effects a)
         ++ (if opened
             then [Protocol_SendStartListening kListeningModeAutoStop]
             else []) /\
     opus_decode_sample_rate_ a' = opus_decode_sample_rate_ a /\
     (opened = false ->
      audio_decode_queue_ a' = audio_decode_queue_ a)) /\
  (device_state_ a = kDeviceStateSpeaking ->
   run_ToggleChatState board layout assets true opened env1 env2 a
     = (Finished (AbortSpeaking kAbortReasonNone a), [])) /\
  (device_state_ a = kDeviceStateListening ->
   run_ToggleChatState board layout assets true opened env1 env2 a
     = (Finished a, [Protocol_CloseAudioChannel])) /\
  (device_state_ a <> kDeviceStateIdle ->
   device_state_ a <> kDeviceStateSpeaking ->
   device_state_ a <> kDeviceStateListening ->
   run_ToggleChatState board layout assets true opened env1 env2 a
     = (Finished a, [])).
Proof.
  split; [reflexivity|].
  split.
  2:{ unfold run_ToggleChatState. cbn [negb].
      split; [intros ->; reflexivity|].
      split; [intros ->; reflexivity|].
      intros H1 H2 H3. destruct (device_state_ a); congruence. }
  intros Hs.
  assert (Hne : device_state_ a <> kDeviceStateConnecting)
    by (rewrite Hs; discriminate).
  set (a1 := SetDeviceState board kDeviceStateConnecting env1 a).
  assert (Hs1 : device_state_ a1 = kDeviceStateConnecting)
    by apply SetDeviceState_state.
  destruct (SetDeviceState_keeps board kDeviceStateConnecting env1 a)
    as (Hk1 & Hr1 & _).
  fold a1 in Hk1, Hr1.
  unfold run_ToggleChatState. cbn [negb]. rewrite Hs. fold a1.
  destruct opened.
  - set (between := fun x =>
           call (Protocol_SendStartListening kListeningModeAutoStop)
             (set_keep_listening_ true x)).
    change (call (Protocol_SendStartListening kListeningModeAutoStop)
              (set_keep_listening_ true a1)) with (between a1).
    eexists. split; [reflexivity|].
    destruct (SetDeviceState_keeps board kDeviceStateListening env2
                (between a1)) as (Hk2 & Hr2 & _).
    split; [apply SetDeviceState_state|].
    split; [rewrite Hk2; reflexivity|].
    split.
    { unfold a1.
      apply (two_transitions_logged board kDeviceStateConnecting
               kDeviceStateListening env1 env2 between a Hne).
      - discriminate.
      - reflexivity.
      - intros x. unfold between. cbn [effects call set_keep_listening_].
        rewrite filter_app. cbn. apply app_nil_r. }
    split.
    { rewrite (transition_calls_filtered is_start_listening
                 (SetDeviceState board kDeviceStateListening env2)
                 (between a1) transition_not_start_listening
                 (adds_SetDeviceState board _ _)).
      unfold between. cbn [effects call set_keep_listening_].
      rewrite filter_app. unfold a1.
      rewrite (transition_calls_filtered is_start_listening
                 (SetDeviceState board kDeviceStateConnecting env1)
                 a transition_not_start_listening
                 (adds_SetDeviceState board _ _)).
      reflexivity. }
    split; [rewrite Hr2; exact Hr1 | discriminate].
  - rewrite Alert_channel_failure.
    set (between := call (ESP_LOGW TAG "Alert: %s, %s"
                            [ArgString "Error";
                             ArgString "Failed to open audio channel"])).
    eexists. split; [reflexivity|].
    destruct (SetDeviceState_keeps board kDeviceStateIdle env2
                (between a1)) as (Hk2 & Hr2 & _).
    assert (Hne2 : device_state_ (between a1) <> kDeviceStateIdle).
    { unfold between. cbn [device_state_ call]. rewrite Hs1. discriminate. }
    split; [apply SetDeviceState_state|].
    split; [rewrite Hk2; exact Hk1|].
    split.
    { unfold a1.
      apply (two_transitions_logged board kDeviceStateConnecting
               kDeviceStateIdle env1 env2 between a Hne).
      - discriminate.
      - reflexivity.
      - intros x. unfold between. cbn [effects call].
        rewrite filter_app. cbn. apply app_nil_r. }
    split.
    { rewrite (transition_calls_filtered is_start_listening
                 (SetDeviceState board kDeviceStateIdle env2)
                 (between a1) transition_not_start_listening
                 (adds_SetDeviceState board _ _)).
      unfold between. cbn [effects call].
      rewrite filter_app. unfold a1.
      rewrite (transition_calls_filtered is_start_listening
                 (SetDeviceState board kDeviceStateConnecting env1)
                 a transition_not_start_listening
                 (adds_SetDeviceState board _ _)).
      reflexivity. }
    split; [rewrite Hr2; exact Hr1|].
    intros _.
    destruct (SetDeviceState_queue board kDeviceStateIdle env2
                (between a1) Hne2) as [_ Hkeep].
    destruct Hkeep as [Hq _]; try discriminate. rewrite Hq.
    unfold between. cbn [audio_decode_queue_ call].
    destruct (SetDeviceState_queue board kDeviceStateConnecting env1 a Hne)
      as [_ Hkeep1].
    destruct Hkeep1 as [Hq1 _]; try discriminate. exact Hq1.
Qed.

(** X23. The closure of [StartListening]. Without a transport it only
    logs an error; with one it clears [keep_listening_] whatever the
    state. From Idle it ends in Listening, having sent
    [SendStartListening(ManualStop)] once, when the channel is open or
    opens: it passes through Connecting only if the channel was not
    open yet. If the channel does not open it sends no
    [SendStartListening] and is back in Idle before the alert is
    raised. While speaking it aborts the
    reply, sends [SendStartListening(ManualStop)], waits 120 ms and
    enters Listening, which empties the decode queue; [aborted_] is
    still set then. In every other state clearing [keep_listening_] is
    all it does. *)
Theorem StartListening_closure
    (board : Collaborators) (layout : BinaryProtocol3)
    (assets : PromptAssets) (is_opened opened : bool) (env1 env2 : Ambient)
    (a : Application) :
  run_StartListening board layout assets false is_opened opened env1 env2 a
    = (Finished a, [ESP_LOGE TAG "Protocol not initialized"]) /\
  (device_state_ a = kDeviceStateIdle ->
   exists a',
     run_StartListening board layout assets true is_opened opened
       env1 env2 a
       = (Finished a',
          if is_opened then [Protocol_IsAudioChannelOpened]
          else [Protocol_IsAudioChannelOpened; Protocol_OpenAudioChannel]
               ++ (if opened then []
                   else [Display_ShowNotification
                           "Failed to open audio channel"])) /\
     keep_listening_ a' = false /\
     device_state_ a'
       = (if (is_opened || opened)%bool then kDeviceStateListening
          else kDeviceStateIdle) /\
     filter is_state_log (effects a')
       = filter is_state_log (effects a)
         ++ (if is_opened then [state_log kDeviceStateListening]
             else [state_log kDeviceStateConnecting;
                   state_log (if opened then kDeviceStateListening
                              else kDeviceStateIdle)]) /\
     filter is_start_listening (effects a')
       = filter is_start_listening (effects a)
         ++ (if (is_opened || opened)%bool
             then [Protocol_SendStartListening kListeningModeManualStop]
             else []) /\
     ((is_opened || opened)%bool = false ->
      exists before,
        effects a'
          = before
            ++ [ESP_LOGW TAG "Alert: %s, %s"
                  [ArgString "Error";
                   ArgString "Failed to open audio channel"]] /\
        filter is_state_log before
          = filter is_state_log (effects a)
            ++ [state_log kDeviceStateConnecting;
                state_log kDeviceStateIdle])) /\
  (device_state_ a = kDeviceStateSpeaking ->
   exists a',
     run_StartListening board layout assets true is_opened opened
       env1 env2 a
       = (Finished a', [vTaskDelay_ms 120]) /\
     keep_listening_ a' = false /\
     device_state_ a' = kDeviceStateListening /\
     aborted_ a' = true /\
     audio_decode_queue_ a' = [] /\
     filter is_start_listening (effects a')
       = filter is_start_listening (effects a)
         ++ [Protocol_SendStartListening kListeningModeManualStop]) /\
  (device_state_ a <> kDeviceStateIdle ->
   device_state_ a <> kDeviceStateSpeaking ->
   run_StartListening board layout assets true is_opened opened env1 env2 a
     = (Finished (set_keep_listening_ false a), [])).
Proof.
  split; [reflexivity|].
  set (a0 := set_keep_listening_ false a).
  assert (Hs0 : device_state_ a0 = device_state_ a) by reflexivity.
  assert (Hstart : forall state env x,
            filter is_start_listening
              (effects (SetDeviceState board state env x))
            = filter is_start_listening (effects x)).
  { intros state env x.
    apply (transition_calls_filtered is_start_listening
             (SetDeviceState board state env) x
             transition_not_start_listening
             (adds_SetDeviceState board state env)). }
  split; [|split].
  - intros Hs. unfold run_StartListening. cbn [negb]. fold a0.
    rewrite Hs0, Hs.
    assert (Hne : device_state_ a0 <> kDeviceStateConnecting)
      by (rewrite Hs0, Hs; discriminate).
    destruct is_opened.
    + set (a1 := call (Protocol_SendStartListening kListeningModeManualStop)
                   a0).
      assert (Hne1 : device_state_ a1 <> kDeviceStateListening).
      { unfold a1. cbn [device_state_ call]. rewrite Hs0, Hs. discriminate. }
      eexists. split; [reflexivity|].
      destruct (SetDeviceState_keeps board kDeviceStateListening env2 a1)
        as (Hk & _).
      split; [rewrite Hk; reflexivity|].
      split; [apply SetDeviceState_state|].
      split.
      { rewrite SetDeviceState_state_log by exact Hne1.
        unfold a1. cbn [effects call set_keep_listening_ a0].
        rewrite filter_app. cbn. rewrite app_nil_r. reflexivity. }
      split; [|intros H; discriminate H].
      rewrite Hstart. unfold a1. cbn [effects call]. rewrite filter_app.
      reflexivity.
    + set (a1 := SetDeviceState board kDeviceStateConnecting env1 a0).
      destruct (SetDeviceState_keeps board kDeviceStateConnecting env1 a0)
        as (Hk1 & _). fold a1 in Hk1.
      destruct opened.
      * set (between :=
               call (Protocol_SendStartListening kListeningModeManualStop)).
        eexists. split; [reflexivity|].
        destruct (SetDeviceState_keeps board kDeviceStateListening env2
                    (between a1)) as (Hk & _).
        split; [rewrite Hk; exact Hk1|].
        split; [apply SetDeviceState_state|].
        split.
        { unfold a1.
          rewrite (two_transitions_logged board kDeviceStateConnecting
                     kDeviceStateListening env1 env2 between a0 Hne).
          - reflexivity.
          - discriminate.
          - reflexivity.
          - intros x. unfold between. cbn [effects call].
            rewrite filter_app. cbn. apply app_nil_r. }
        split; [|intros H; discriminate H].
        rewrite Hstart. unfold between. cbn [effects call].
        rewrite filter_app. unfold a1. rewrite Hstart. reflexivity.
      * rewrite Alert_channel_failure. cbn [fst snd app].
        eexists. split; [reflexivity|].
        cbn [keep_listening_ device_state_ effects call].
        destruct (SetDeviceState_keeps board kDeviceStateIdle env2 a1)
          as (Hk & _).
        split; [rewrite Hk; exact Hk1|].
        split; [apply SetDeviceState_state|].
        assert (Hlog : filter is_state_log
                         (effects
                            (SetDeviceState board kDeviceStateIdle env2 a1))
                       = filter is_state_log (effects a)
                         ++ [state_log kDeviceStateConnecting;
                             state_log kDeviceStateIdle]).
        { unfold a1.
          rewrite (two_transitions_logged board kDeviceStateConnecting
                     kDeviceStateIdle env1 env2 (fun x => x) a0 Hne).
          - reflexivity.
          - discriminate.
          - reflexivity.
          - reflexivity. }
        split.
        { rewrite filter_app. cbn [filter is_state_log].
          rewrite app_nil_r. exact Hlog. }
        split.
        { rewrite filter_app. cbn [filter is_start_listening].
          rewrite !app_nil_r, Hstart. unfold a1. rewrite Hstart.
          reflexivity. }
        intros _. eexists. split; [reflexivity | exact Hlog].
  - intros Hs. unfold run_StartListening. cbn [negb]. fold a0.
    rewrite Hs0, Hs.
    set (a1 := call (Protocol_SendStartListening kListeningModeManualStop)
                 (AbortSpeaking kAbortReasonNone a0)).
    assert (Hne1 : device_state_ a1 <> kDeviceStateListening).
    { unfold a1, AbortSpeaking, seq. cbn. rewrite Hs. discriminate. }
    eexists. split; [reflexivity|].
    destruct (SetDeviceState_keeps board kDeviceStateListening env2 a1)
      as (Hk & _ & Hab).
    split; [rewrite Hk; reflexivity|].
    split; [apply SetDeviceState_state|].
    split; [rewrite Hab; reflexivity|].
    split.
    { destruct (SetDeviceState_queue board kDeviceStateListening env2 a1
                  Hne1) as [Hreset _].
      destruct (Hreset (or_introl eq_refl)) as [Hq _]. exact Hq. }
    rewrite Hstart. unfold a1, AbortSpeaking, seq.
    cbn [effects call set_aborted_ set_keep_listening_ a0].
    rewrite !filter_app. cbn. rewrite !app_nil_r. reflexivity.
  - intros H1 H2. unfold run_StartListening. cbn [negb]. fold a0.
    rewrite Hs0. destruct (device_state_ a); congruence.
Qed.

(* ===================================================================== *)
(** * Facts about the audio channel                                       *)
(* ===================================================================== *)

Section Channel.

Variable board : Collaborators.

Lemma state_entry_listening_iot env y :
  filter is_iot_states
    (effects (state_entry board kDeviceStateListening env y))
  = filter is_iot_states (effects y)
    ++ (if String.eqb (GetStatesJson env) (last_iot_states_ y) then []
        else [Protocol_SendIotStates (GetStatesJson env)]) /\
  last_iot_states_ (state_entry board kDeviceStateListening env y)
  = GetStatesJson env.
Proof.
  unfold state_entry, ResetDecoder, audio_processor, UpdateIotStates,
    seq, skip.
  destruct (CONFIG_IDF_TARGET_ESP32S3 board);
    cbn [last_iot_states_ call set_audio_decode_queue_
         set_last_output_time_];
    destruct (String.eqb (GetStatesJson env) (last_iot_states_ y)) eqn:Eq;
    cbn [effects call set_audio_decode_queue_ set_last_output_time_
         set_last_iot_states_ last_iot_states_];
    rewrite ?filter_app; cbn [filter is_iot_states]; rewrite ?app_nil_r;
    (split; [reflexivity|]);
    first [reflexivity | apply String.eqb_eq in Eq; symmetry; exact Eq].
Qed.

(** Entering Listening publishes the states of the things if they are
    not the ones published last. *)
Lemma SetDeviceState_listening_iot env x :
  device_state_ x <> kDeviceStateListening ->
  filter is_iot_states
    (effects (SetDeviceState board kDeviceStateListening env x))
  = filter is_iot_states (effects x)
    ++ (if String.eqb (GetStatesJson env) (last_iot_states_ x) then []
        else [Protocol_SendIotStates (GetStatesJson env)]) /\
  last_iot_states_ (SetDeviceState board kDeviceStateListening env x)
  = GetStatesJson env.
Proof.
  intros Hne.
  set (x1 := log_state (set_device_state_ kDeviceStateListening x)).
  set (y := call Led_OnStateChanged (WaitForCompletion board x1)).
  assert (Hbar : SetDeviceState board kDeviceStateListening env x
                 = state_entry board kDeviceStateListening env y).
  { unfold SetDeviceState. rewrite (DeviceState_eqb_neq _ _ Hne).
    reflexivity. }
  rewrite Hbar.
  destruct (WaitForCompletion_trace board x1)
    as [_ (drained & E & _ & Hd)].
  destruct (members_fields _ _ (WaitForCompletion_members board x1))
    as (_ & _ & _ & _ & _ & _ & Hiot).
  assert (Hw : filter is_iot_states (effects y)
               = filter is_iot_states (effects x)).
  { unfold y. cbn [effects call]. rewrite E. unfold x1, log_state.
    cbn [effects call set_device_state_].
    rewrite !filter_app.
    rewrite (filter_none is_closure_effect is_iot_states drained);
      [|intros e He; destruct e; simpl in *; congruence | exact Hd].
    cbn. rewrite !app_nil_r. reflexivity. }
  assert (Hl : last_iot_states_ y = last_iot_states_ x) by exact Hiot.
  destruct (state_entry_listening_iot env y) as [H1 H2].
  rewrite H1, H2, Hw, Hl. auto.
Qed.

End Channel.

(** X24. When the audio channel opens, the handler turns power saving
    off, sets the decode rate to the server's rate (warning if that is
    not the codec's output rate), forgets the states of the things
    published last and sends their descriptors; it changes neither the
    device state nor the decode queue. Because the published states are
    forgotten, the next entry into Listening publishes the current
    states again even if they are the ones published before the channel
    opened; only an empty description is not sent. *)
Theorem channel_opening_republishes_iot_states
    (board : Collaborators) (server_sample_rate : Z) (descriptors : string)
    (env : Ambient) (a : Application) :
  let opened := OnAudioChannelOpened board server_sample_rate descriptors a in
  snd opened = [Board_SetPowerSaveMode false;
                Protocol_SendIotDescriptors descriptors] /\
  opus_decode_sample_rate_ (fst opened) = server_sample_rate /\
  last_iot_states_ (fst opened) = EmptyString /\
  device_state_ (fst opened) = device_state_ a /\
  audio_decode_queue_ (fst opened) = audio_decode_queue_ a /\
  filter is_warning (effects (fst opened))
    = filter is_warning (effects a)
      ++ (if server_sample_rate =? output_sample_rate board then []
          else [ESP_LOGW TAG
                  "服务器的音频采样率 %d 与设备输出的采样率 %d 不一致，重采样后可能会失真"
                  [ArgNumber server_sample_rate;
                   ArgNumber (output_sample_rate board)]]) /\
  (device_state_ a <> kDeviceStateListening ->
   filter is_iot_states
     (effects (SetDeviceState board kDeviceStateListening env (fst opened)))
   = filter is_iot_states (effects a)
     ++ (if String.eqb (GetStatesJson env) EmptyString then []
         else [Protocol_SendIotStates (GetStatesJson env)]) /\
   last_iot_states_
     (SetDeviceState board kDeviceStateListening env (fst opened))
   = GetStatesJson env).
Proof.
  cbv zeta.
  assert (Hshape :
    snd (OnAudioChannelOpened board server_sample_rate descriptors a)
      = [Board_SetPowerSaveMode false;
         Protocol_SendIotDescriptors descriptors] /\
    opus_decode_sample_rate_
      (fst (OnAudioChannelOpened board server_sample_rate descriptors a))
      = server_sample_rate /\
    last_iot_states_
      (fst (OnAudioChannelOpened board server_sample_rate descriptors a))
      = EmptyString /\
    device_state_
      (fst (OnAudioChannelOpened board server_sample_rate descriptors a))
      = device_state_ a /\
    audio_decode_queue_
      (fst (OnAudioChannelOpened board server_sample_rate descriptors a))
      = audio_decode_queue_ a /\
    filter is_warning
      (effects
         (fst (OnAudioChannelOpened board server_sample_rate descriptors a)))
      = filter is_warning (effects a)
        ++ (if server_sample_rate =? output_sample_rate board then []
            else [ESP_LOGW TAG
                    "服务器的音频采样率 %d 与设备输出的采样率 %d 不一致，重采样后可能会失真"
                    [ArgNumber server_sample_rate;
                     ArgNumber (output_sample_rate board)]]) /\
    filter is_iot_states
      (effects
         (fst (OnAudioChannelOpened board server_sample_rate descriptors a)))
      = filter is_iot_states (effects a)).
  { unfold OnAudioChannelOpened, SetDecodeSampleRate, seq.
    cbn [fst snd].
    destruct (server_sample_rate =? output_sample_rate board) eqn:Eo;
      cbn [opus_decode_sample_rate_ call];
      destruct (opus_decode_sample_rate_ a =? server_sample_rate) eqn:Er;
      try (apply Z.eqb_eq in Er);
      cbn [effects call set_opus_decode_sample_rate_ set_last_iot_states_
           opus_decode_sample_rate_ last_iot_states_ device_state_
           audio_decode_queue_];
      rewrite ?filter_app; cbn [filter is_warning is_iot_states];
      rewrite ?app_nil_r; repeat split; auto. }
  destruct Hshape as (H1 & H2 & H3 & H4 & H5 & H6 & H7).
  repeat (split; [assumption|]).
  intros Hne.
  destruct (SetDeviceState_listening_iot board env
              (fst (OnAudioChannelOpened board server_sample_rate
                      descriptors a))) as [Ha Hb].
  { rewrite H4. exact Hne. }
  rewrite Ha, Hb, H3, H7. auto.
Qed.

(** X25. When the audio channel closes, the handler turns power saving
    on at once but leaves the core as it is apart from queueing one
    closure. The device returns to Idle only when the main loop runs
    that closure, which first clears the chat message; the return to
    Idle keeps the decode queue, [aborted_] and [keep_listening_] as
    they were. *)
Theorem channel_closing_returns_to_idle
    (board : Collaborators) (cap : CaptureCodec) (reading : CaptureReading)
    (now : Z) (envs : nat -> Ambient) (a : Application) :
  main_tasks_ a = [] ->
  snd (OnAudioChannelClosed a) = [Board_SetPowerSaveMode true] /\
  members (fst (OnAudioChannelClosed a)) = members a /\
  effects (fst (OnAudioChannelClosed a)) = effects a /\
  exists a2 later,
    MainLoop_pass board cap only_SCHEDULE reading now envs
      (fst (OnAudioChannelClosed a)) = Some (a2, []) /\
    device_state_ a2 = kDeviceStateIdle /\
    audio_decode_queue_ a2 = audio_decode_queue_ a /\
    aborted_ a2 = aborted_ a /\
    keep_listening_ a2 = keep_listening_ a /\
    effects a2
      = effects a ++ Display_SetChatMessage EmptyString EmptyString :: later /\
    (device_state_ a = kDeviceStateIdle -> later = []).
Proof.
  intros Hq.
  split; [reflexivity|]. split; [reflexivity|]. split; [reflexivity|].
  unfold OnAudioChannelClosed, MainLoop_pass, only_SCHEDULE.
  cbn [fst AUDIO_INPUT_READY_EVENT AUDIO_OUTPUT_READY_EVENT SCHEDULE_EVENT].
  unfold Schedule at 1. cbn [main_tasks_ set_main_tasks_]. rewrite Hq.
  cbn [app run_tasks run_closure]. unfold run_AudioChannelClosed, seq.
  set (x := call (Display_SetChatMessage EmptyString EmptyString)
              (set_main_tasks_ [] (Schedule AudioChannelClosedClosure a))).
  assert (Hx : effects x
               = effects a
                 ++ [Display_SetChatMessage EmptyString EmptyString])
    by reflexivity.
  destruct (SetDeviceState_keeps board kDeviceStateIdle (envs 0%nat) x)
    as (Hk & _ & Hab).
  destruct (adds_SetDeviceState board kDeviceStateIdle (envs 0%nat) x)
    as [_ (new & En & _)].
  exists (SetDeviceState board kDeviceStateIdle (envs 0%nat) x), new.
  split; [reflexivity|].
  split; [apply SetDeviceState_state|].
  split.
  { destruct (DeviceState_eqb (device_state_ x) kDeviceStateIdle) eqn:E.
    - unfold SetDeviceState. rewrite E. reflexivity.
    - assert (Hne : device_state_ x <> kDeviceStateIdle).
      { intros H. apply DeviceState_eqb_eq in H. congruence. }
      destruct (SetDeviceState_queue board kDeviceStateIdle (envs 0%nat) x
                  Hne) as [_ Hkeep].
      destruct Hkeep as [H _]; try discriminate. exact H. }
  split; [exact Hab|]. split; [exact Hk|].
  split; [rewrite En, Hx, <- app_assoc; reflexivity|].
  intros Hs.
  assert (E : SetDeviceState board kDeviceStateIdle (envs 0%nat) x = x).
  { unfold SetDeviceState.
    assert (Hxs : device_state_ x = kDeviceStateIdle) by exact Hs.
    rewrite Hxs. reflexivity. }
  rewrite E in En.
  apply (app_inv_head (effects x)). rewrite app_nil_r. symmetry. exact En.
Qed.

Lemma channel_closing_returns_to_idle_witness :
  snd (OnAudioChannelClosed Specimen.listening)
    = [Board_SetPowerSaveMode true] /\
  members (fst (OnAudioChannelClosed Specimen.listening))
    = members Specimen.listening /\
  effects (fst (OnAudioChannelClosed Specimen.listening)) = [] /\
  exists a2 later,
    MainLoop_pass Specimen.board SpecimenInput.codec only_SCHEDULE
      SpecimenInput.nothing 5 (fun _ => Specimen.env)
      (fst (OnAudioChannelClosed Specimen.listening)) = Some (a2, []) /\
    device_state_ a2 = kDeviceStateIdle /\
    audio_decode_queue_ a2 = [Specimen.frame1; Specimen.frame2] /\
    aborted_ a2 = false /\
    keep_listening_ a2 = true /\
    effects a2
      = [] ++ Display_SetChatMessage EmptyString EmptyString :: later /\
    (kDeviceStateListening = kDeviceStateIdle -> later = []).
Proof.
  exact (channel_closing_returns_to_idle Specimen.board SpecimenInput.codec
           SpecimenInput.nothing 5 (fun _ => Specimen.env)
           Specimen.listening eq_refl).
Defined.

(* ===================================================================== *)
(** * Facts about the upgrade and about the wake word                     *)
(* ===================================================================== *)

Lemma last_output_switch_app l r :
  last_output_switch (l ++ r)
  = match last_output_switch r with
    | Some later => Some later
    | None => last_output_switch l
    end.
Proof.
  induction l as [|e l IH]; simpl.
  - destruct (last_output_switch r); reflexivity.
  - destruct e; try exact IH.
    rewrite IH. destruct (last_output_switch r); reflexivity.
Qed.

Lemma last_output_switch_closure l :
  forallb is_closure_effect l = true -> last_output_switch l = None.
Proof.
  induction l as [|e l IH]; simpl; [reflexivity|].
  intros H. apply andb_true_iff in H. destruct H as [He Hl].
  destruct e; simpl in He; try discriminate; exact (IH Hl).
Qed.

(** X26. The closure that starts a firmware upgrade, up to the start of
    the download: it enters Upgrading, switches the codec output off,
    discards the packets still in the decode queue and waits for the
    executor before deleting it. So when the executor is deleted none
    of its closures is pending, the decode queue is empty, and the last
    thing the codec was told is that its output is off. The only
    packets decoded on the way are those the executor already held.
    Afterwards neither an incoming packet, nor an output tick, nor a
    captured block changes the core: none of them reaches for the
    deleted executor. *)
Theorem upgrade_prologue_quiesces
    (board : Collaborators) (icon version : string) (env : Ambient)
    (a : Application) :
  let upgrading := fst (run_upgrade_prologue board icon version env a) in
  device_state_ upgrading = kDeviceStateUpgrading /\
  audio_decode_queue_ upgrading = [] /\
  BackgroundTask.main_tasks_ (background_task_ upgrading) = [] /\
  last_output_switch (effects upgrading) = Some false /\
  snd (run_upgrade_prologue board icon version env a)
    = [Display_SetIcon icon; BackgroundTask_delete; vTaskDelay_ms 1000] /\
  (aborted_ a = false ->
   frames_decoded (effects upgrading)
   = frames_decoded (effects a)
     ++ decode_frames (BackgroundTask.main_tasks_ (background_task_ a))) /\
  (forall data, OnIncomingAudio data upgrading = upgrading) /\
  (forall now, OutputAudio now upgrading = upgrading) /\
  (forall cap reading a' calls,
     InputAudio board cap reading upgrading = Some (a', calls) ->
     a' = upgrading).
Proof.
  cbv zeta. unfold run_upgrade_prologue. cbn [fst snd].
  set (a1 := SetDeviceState board kDeviceStateUpgrading env a).
  set (a4 := set_audio_decode_queue_ []
               (call (Codec_EnableOutput false)
                  (call (Display_SetStatus (String.append "新版本 " version))
                     a1))).
  destruct (members_fields _ _ (WaitForCompletion_members board a4))
    as (Hst & _ & _ & _ & Hq & _).
  destruct (WaitForCompletion_trace board a4)
    as [_ (drained & E & Erun & Hd)].
  split.
  { rewrite Hst. unfold a4. cbn [device_state_ call set_audio_decode_queue_].
    apply SetDeviceState_state. }
  split; [rewrite Hq; reflexivity|].
  split; [apply WaitForCompletion_queue|].
  split.
  { rewrite E. unfold a4. cbn [effects call set_audio_decode_queue_].
    rewrite !last_output_switch_app. cbn [last_output_switch].
    rewrite (last_output_switch_closure drained Hd). reflexivity. }
  split; [reflexivity|].
  assert (Hup : device_state_ (WaitForCompletion board a4)
                = kDeviceStateUpgrading).
  { rewrite Hst. unfold a4. cbn [device_state_ call set_audio_decode_queue_].
    apply SetDeviceState_state. }
  assert (Hempty : audio_decode_queue_ (WaitForCompletion board a4) = [])
    by (rewrite Hq; reflexivity).
  split.
  2:{ split; [intros data; unfold OnIncomingAudio; rewrite Hup; reflexivity|].
      split; [intros now; unfold OutputAudio; rewrite Hempty, Hup;
              reflexivity|].
      intros cap reading a' calls. unfold InputAudio. rewrite Hup.
      destruct (InputData reading); [|congruence].
      destruct (resample_input cap p); [|discriminate].
      destruct (CONFIG_IDF_TARGET_ESP32S3 board); congruence. }
  intros Hab.
  (* the packets decoded: by the wait of the change of state if there is
     one, by the final wait otherwise *)
  assert (Hfinal : forall x,
            aborted_ x = false ->
            frames_decoded (effects (WaitForCompletion board x))
            = frames_decoded (effects x)
              ++ decode_frames
                   (BackgroundTask.main_tasks_ (background_task_ x))).
  { intros x Hx. unfold WaitForCompletion.
    cbn [fst snd BackgroundTask.take_batch effects call].
    rewrite frames_decoded_app. cbn [frames_decoded].
    rewrite app_nil_r.
    destruct (run_batch_plays board
                (BackgroundTask.main_tasks_ (background_task_ x))
                (set_background_task_
                   (BackgroundTask.mk []
                      (BackgroundTask.active_tasks_ (background_task_ x)))
                   x) Hx) as [H _].
    exact H. }
  assert (Hab4 : aborted_ a4 = false).
  { unfold a4. cbn [aborted_ call set_audio_decode_queue_]. unfold a1.
    destruct (SetDeviceState_keeps board kDeviceStateUpgrading env a)
      as (_ & _ & H). rewrite H. exact Hab. }
  rewrite (Hfinal a4 Hab4).
  unfold a4. cbn [effects call set_audio_decode_queue_ background_task_].
  rewrite !frames_decoded_app. cbn [frames_decoded]. rewrite !app_nil_r.
  unfold a1, SetDeviceState.
  destruct (DeviceState_eqb (device_state_ a) kDeviceStateUpgrading) eqn:Es.
  - reflexivity.
  - unfold seq, state_entry, skip.
    cbn [effects call background_task_].
    rewrite frames_decoded_app. cbn [frames_decoded]. rewrite app_nil_r.
    rewrite WaitForCompletion_queue. cbn [decode_frames].
    rewrite app_nil_r.
    rewrite (Hfinal (log_state (set_device_state_ kDeviceStateUpgrading a)));
      [|exact Hab].
    unfold log_state. cbn [effects call set_device_state_ background_task_].
    rewrite frames_decoded_app. cbn [frames_decoded]. rewrite app_nil_r.
    reflexivity.
Qed.

Lemma packets_sent_app l r :
  packets_sent (l ++ r) = packets_sent l ++ packets_sent r.
Proof.
  induction l as [|e l IH]; simpl; [reflexivity|].
  destruct e; simpl; rewrite IH; reflexivity.
Qed.

Lemma packets_sent_transition l :
  forallb is_transition_call l = true -> packets_sent l = [].
Proof.
  induction l as [|e l IH]; simpl; [reflexivity|].
  intros H. apply andb_true_iff in H. destruct H as [He Hl].
  destruct e; simpl in He; try discriminate; exact (IH Hl).
Qed.

Lemma packets_sent_SetDeviceState board state env a :
  packets_sent (effects (SetDeviceState board state env a))
  = packets_sent (effects a).
Proof.
  destruct (adds_SetDeviceState board state env a) as [_ (new & E & Hn)].
  rewrite E, packets_sent_app, (packets_sent_transition new Hn).
  apply app_nil_r.
Qed.

Lemma send_packets_effects (packets : list AudioFrame) : forall a,
  effects (fold_left (fun acc opus => call (Protocol_SendAudio opus) acc)
             packets a)
  = effects a ++ map Protocol_SendAudio packets /\
  members (fold_left (fun acc opus => call (Protocol_SendAudio opus) acc)
             packets a) = members a.
Proof.
  induction packets as [|opus rest IH]; intros a; simpl.
  - rewrite app_nil_r. auto.
  - destruct (IH (call (Protocol_SendAudio opus) a)) as [H1 H2].
    rewrite H1, H2. cbn [effects call]. rewrite <- app_assoc. auto.
Qed.

Lemma packets_sent_map packets :
  packets_sent (map Protocol_SendAudio packets) = packets.
Proof.
  induction packets as [|p rest IH]; simpl; [reflexivity|].
  rewrite IH. reflexivity.
Qed.

(** X27. The closure run when the wake word is heard. On every path,
    the early return after a failed opening included, it asks the
    detector to resume exactly once, as the last thing it does. From
    Idle it passes through Connecting; if the channel opens it hands
    the recorded wake-word packets to the transport in their order,
    sets [keep_listening_] and ends in Listening, and if not it sends
    no packet and is back in Idle. While speaking it only aborts the
    reply, and in every other state it leaves the core alone. *)
Theorem WakeWordDetected_closure
    (board : Collaborators) (wake_word : string) (opened : bool)
    (wake_word_opus : list AudioFrame) (env1 env2 : Ambient)
    (a : Application) :
  let ran := run_WakeWordDetected board wake_word opened wake_word_opus
               env1 env2 a in
  (exists before,
     snd ran = before ++ [WakeWord_StartDetection] /\
     filter is_StartDetection before = []) /\
  (device_state_ a = kDeviceStateIdle ->
   device_state_ (fst ran)
     = (if opened then kDeviceStateListening else kDeviceStateIdle) /\
   keep_listening_ (fst ran) = (opened || keep_listening_ a)%bool /\
   packets_sent (effects (fst ran))
     = packets_sent (effects a)
       ++ (if opened then wake_word_opus else []) /\
   filter is_state_log (effects (fst ran))
     = filter is_state_log (effects a)
       ++ [state_log kDeviceStateConnecting;
           state_log (if opened then kDeviceStateListening
                      else kDeviceStateIdle)]) /\
  (device_state_ a = kDeviceStateSpeaking ->
   fst ran = AbortSpeaking kAbortReasonWakeWordDetected a) /\
  (device_state_ a <> kDeviceStateIdle ->
   device_state_ a <> kDeviceStateSpeaking ->
   fst ran = a).
Proof.
  cbv zeta. split.
  { unfold run_WakeWordDetected.
    destruct (device_state_ a); try destruct opened; cbn [snd];
      first [ exists []; split; reflexivity
            | eexists [_; _; _]; split; reflexivity ]. }
  split.
  2:{ unfold run_WakeWordDetected.
      split; [intros ->; reflexivity|].
      intros H1 H2.
      destruct (device_state_ a); first [reflexivity | congruence]. }
  intros Hs. unfold run_WakeWordDetected. rewrite Hs.
  assert (Hne : device_state_ a <> kDeviceStateConnecting)
    by (rewrite Hs; discriminate).
  set (a1 := SetDeviceState board kDeviceStateConnecting env1 a).
  destruct (SetDeviceState_keeps board kDeviceStateConnecting env1 a)
    as (Hk1 & _). fold a1 in Hk1.
  destruct opened; cbn [fst orb].
  - set (between := fun x =>
           set_keep_listening_ true
             (call (ESP_LOGI TAG "Wake word detected: %s"
                      [ArgString wake_word])
                (fold_left
                   (fun acc opus => call (Protocol_SendAudio opus) acc)
                   wake_word_opus x))).
    change (set_keep_listening_ true _) with (between a1).
    assert (Hbe : forall x,
              effects (between x)
              = effects x ++ map Protocol_SendAudio wake_word_opus
                ++ [ESP_LOGI TAG "Wake word detected: %s"
                      [ArgString wake_word]]).
    { intros x. unfold between. cbn [effects call set_keep_listening_].
      destruct (send_packets_effects wake_word_opus x) as [H _].
      rewrite H, <- app_assoc. reflexivity. }
    assert (Hbs : forall x, device_state_ (between x) = device_state_ x).
    { intros x. unfold between. cbn [device_state_ call set_keep_listening_].
      destruct (members_fields _ _
                  (proj2 (send_packets_effects wake_word_opus x)))
        as (H & _). exact H. }
    destruct (SetDeviceState_keeps board kDeviceStateListening env2
                (between a1)) as (Hk2 & _).
    split; [apply SetDeviceState_state|].
    split; [rewrite Hk2; reflexivity|].
    split.
    { rewrite packets_sent_SetDeviceState, Hbe, !packets_sent_app.
      unfold a1. rewrite packets_sent_SetDeviceState, packets_sent_map.
      cbn. rewrite app_nil_r. reflexivity. }
    unfold a1.
    apply (two_transitions_logged board kDeviceStateConnecting
             kDeviceStateListening env1 env2 between a Hne).
    + discriminate.
    + exact Hbs.
    + intros x. rewrite Hbe, !filter_app.
      assert (Hnone : filter is_state_log
                        (map Protocol_SendAudio wake_word_opus) = []).
      { clear. induction wake_word_opus as [|p rest IH]; simpl; auto. }
      rewrite Hnone. cbn. rewrite !app_nil_r. reflexivity.
  - destruct (SetDeviceState_keeps board kDeviceStateIdle env2 a1)
      as (Hk2 & _).
    split; [apply SetDeviceState_state|].
    split; [rewrite Hk2; exact Hk1|].
    split.
    { rewrite packets_sent_SetDeviceState. unfold a1.
      rewrite packets_sent_SetDeviceState, app_nil_r. reflexivity. }
    unfold a1.
    apply (two_transitions_logged board kDeviceStateConnecting
             kDeviceStateIdle env1 env2 (fun x => x) a Hne).
    + discriminate.
    + reflexivity.
    + reflexivity.
Qed.

(* ===================================================================== *)
(** * Facts about audio events and about alerts                           *)
(* ===================================================================== *)

Section AudioEvents.

Variable board : Collaborators.

Lemma keeps_refl a : keeps_the_state_machine a a.
Proof.
  repeat (split; [reflexivity|]). exists []. rewrite app_nil_r. auto.
Qed.

Lemma keeps_trans a b c :
  keeps_the_state_machine a b -> keeps_the_state_machine b c ->
  keeps_the_state_machine a c.
Proof.
  intros (H1 & H2 & H3 & H4 & H5 & H6 & n1 & E1 & F1)
         (G1 & G2 & G3 & G4 & G5 & G6 & n2 & E2 & F2).
  repeat (split; [congruence|]).
  exists (n1 ++ n2). rewrite E2, E1, <- app_assoc, forallb_app, F1, F2. auto.
Qed.

Lemma keeps_background_Schedule c a :
  keeps_the_state_machine a (background_Schedule c a).
Proof.
  unfold background_Schedule.
  destruct (BackgroundTask.Schedule_warns (background_task_ a));
    repeat (split; [reflexivity|]).
  - eexists [_]. split; reflexivity.
  - exists []. cbn. rewrite app_nil_r. auto.
Qed.

Lemma keeps_OutputAudio now a :
  keeps_the_state_machine a (OutputAudio now a).
Proof.
  unfold OutputAudio.
  destruct (audio_decode_queue_ a) as [|opus rest].
  - destruct (device_state_ a) eqn:Es; try apply keeps_refl.
    destruct (max_silence_seconds <?
              duration_cast_seconds (now - last_output_time_ a));
      [|apply keeps_refl].
    repeat (split; [first [reflexivity | exact Es]|]).
    eexists [_]. split; reflexivity.
  - destruct (device_state_ a) eqn:Es;
      try (unfold seq;
           apply (keeps_trans a
                    (set_audio_decode_queue_ rest
                       (set_last_output_time_ now a)));
           [ repeat (split; [first [reflexivity | exact Es]|]);
             exists []; cbn; rewrite app_nil_r; auto
           | apply keeps_background_Schedule ]).
    repeat (split; [first [reflexivity | exact Es]|]).
    exists []. cbn. rewrite app_nil_r. auto.
Qed.

Lemma keeps_InputAudio cap reading a a' calls :
  InputAudio board cap reading a = Some (a', calls) ->
  keeps_the_state_machine a a'.
Proof.
  unfold InputAudio. intros H.
  destruct (InputData reading) as [captured|];
    [|injection H as <- _; apply keeps_refl].
  destruct (resample_input cap captured) as [data|]; [|discriminate H].
  destruct (CONFIG_IDF_TARGET_ESP32S3 board);
    [injection H as <- _; apply keeps_refl|].
  destruct (device_state_ a); injection H as <- _;
    first [apply keeps_refl | apply keeps_background_Schedule].
Qed.

End AudioEvents.

(** X28. A pass of the main loop that finds no [SCHEDULE_EVENT] runs no
    queued closure: whatever the audio events do, the device state,
    [keep_listening_], [aborted_], the decode rate, the published
    states of the things and the main loop's queue are as before. The
    only calls such a pass can add to the trace are the executor's
    warning about its backlog and the switching-off of the codec
    output. *)
Theorem audio_events_keep_the_state_machine
    (board : Collaborators) (cap : CaptureCodec) (bits : EventBits)
    (reading : CaptureReading) (now : Z) (envs : nat -> Ambient)
    (a a' : Application) (calls : list ShellCall) :
  SCHEDULE_EVENT bits = false ->
  MainLoop_pass board cap bits reading now envs a = Some (a', calls) ->
  device_state_ a' = device_state_ a /\
  keep_listening_ a' = keep_listening_ a /\
  aborted_ a' = aborted_ a /\
  opus_decode_sample_rate_ a' = opus_decode_sample_rate_ a /\
  last_iot_states_ a' = last_iot_states_ a /\
  main_tasks_ a' = main_tasks_ a /\
  exists new,
    effects a' = effects a ++ new /\
    forallb is_warning_or_output_off new = true.
Proof.
  intros Hbit. unfold MainLoop_pass. rewrite Hbit. intros H.
  change (keeps_the_state_machine a a').
  assert (Hin : exists a1,
            (if AUDIO_INPUT_READY_EVENT bits
             then InputAudio board cap reading a else Some (a, []))
            = Some (a1, calls) /\
            a' = (if AUDIO_OUTPUT_READY_EVENT bits
                  then OutputAudio now a1 else a1)).
  { destruct (if AUDIO_INPUT_READY_EVENT bits
              then InputAudio board cap reading a else Some (a, []))
      as [[a1 c1]|]; [|discriminate H].
    injection H as <- <-. exists a1. auto. }
  destruct Hin as (a1 & Hi & ->).
  apply (keeps_trans a a1).
  - destruct (AUDIO_INPUT_READY_EVENT bits).
    + exact (keeps_InputAudio board cap reading a a1 calls Hi).
    + injection Hi as <- _. apply keeps_refl.
  - destruct (AUDIO_OUTPUT_READY_EVENT bits);
      [apply keeps_OutputAudio | apply keeps_refl].
Qed.

Lemma audio_events_keep_the_state_machine_witness :
  let a' := background_Schedule (DecodeClosure Specimen.frame1)
              (set_audio_decode_queue_ [Specimen.frame2]
                 (set_last_output_time_ 5 Specimen.speaking)) in
  device_state_ a' = kDeviceStateSpeaking /\
  keep_listening_ a' = true /\
  aborted_ a' = false /\
  opus_decode_sample_rate_ a' = 24000 /\
  last_iot_states_ a' = EmptyString /\
  main_tasks_ a' = [] /\
  exists new,
    effects a' = [] ++ new /\
    forallb is_warning_or_output_off new = true.
Proof.
  exact (audio_events_keep_the_state_machine Specimen.board
           SpecimenInput.codec
           {| SCHEDULE_EVENT := false; AUDIO_INPUT_READY_EVENT := true;
              AUDIO_OUTPUT_READY_EVENT := true |}
           SpecimenInput.reading 5 (fun _ => Specimen.env)
           Specimen.speaking _ [] eq_refl eq_refl).
Defined.

(** X29. An alert logs a warning and shows the message, always. It plays
    a prompt for exactly three messages: for any other message the
    warning is all it adds to the core. For each of the three, when the
    linked prompt is a sequence of well-formed records, the alert
    returns with the decode rate at 16 kHz and the payloads of the
    prompt behind what the decode queue held, in whatever state the
    device is, and that state is left as it was. *)
Theorem Alert_plays_three_prompts
    (board : Collaborators) (layout : BinaryProtocol3)
    (assets : PromptAssets) (title message : string) (a : Application) :
  snd (Alert board layout assets title message a)
    = [Display_ShowNotification message] /\
  (message <> "PIN is not ready"%string ->
   message <> "Configuring WiFi"%string ->
   message <> "Registration denied"%string ->
   fst (Alert board layout assets title message a)
     = Finished (call (ESP_LOGW TAG "Alert: %s, %s"
                         [ArgString title; ArgString message]) a)) /\
  (forall data frames,
     In (message, data)
        [("PIN is not ready"%string, p3_err_pin assets);
         ("Configuring WiFi"%string, p3_err_wificonfig assets);
         ("Registration denied"%string, p3_err_reg assets)] ->
     data = List.concat (map serialize frames) ->
     Forall (well_formed layout) frames ->
     exists a',
       fst (Alert board layout assets title message a) = Finished a' /\
       opus_decode_sample_rate_ a' = 16000 /\
       audio_decode_queue_ a'
         = audio_decode_queue_ a ++ map payload frames /\
       device_state_ a' = device_state_ a).
Proof.
  split.
  { unfold Alert.
    repeat match goal with
           | |- context [if ?c then _ else _] => destruct c
           end; reflexivity. }
  split.
  { intros H1 H2 H3. unfold Alert.
    rewrite (proj2 (String.eqb_neq _ _) H1),
            (proj2 (String.eqb_neq _ _) H2),
            (proj2 (String.eqb_neq _ _) H3).
    reflexivity. }
  intros data frames Hin -> Hwf.
  set (a1 := call (ESP_LOGW TAG "Alert: %s, %s"
                     [ArgString title; ArgString message]) a).
  assert (Hplay : fst (Alert board layout assets title message a)
                  = PlayLocalFile board layout
                      (List.concat (map serialize frames)) a1).
  { unfold Alert. fold a1.
    destruct Hin as [H | [H | [H | []]]]; injection H as <- <-;
      reflexivity. }
  rewrite Hplay, (PlayLocalFile_frames board layout frames a1 Hwf).
  eexists. split; [reflexivity|].
  cbn [opus_decode_sample_rate_ audio_decode_queue_ device_state_
       set_audio_decode_queue_].
  destruct (SetDecodeSampleRate_rate board 16000
              (call (ESP_LOGI TAG "PlayLocalFile: %zu bytes"
                       [ArgNumber
                          (Z.of_nat
                             (List.length
                                (List.concat (map serialize frames))))])
                 a1)) as (Hr & _ & Hs).
  split; [exact Hr|]. split; [reflexivity|]. rewrite Hs. reflexivity.
Qed.
